(** * K-Lab accounting: statement import, reconciliation and reminders

    A shallow embedding of the reconciliation core of the K-Lab member
    accounting tool:

    - [csv_import_manager.py]: [parse_csv_file], [_add_smart_month_defaults],
      [auto_assign_members], [add_member_mapping], [_check_existing_entries],
      [validate_import_data], [transfer_to_member_database], and the
      handler of the transfer button in [run_csv_import_interface];
    - [payment_reminder_export.py]: [calculate_outstanding_payments] (of
      which [telegram_reminder.py] holds a copy), [get_outstanding_summary];
    - [member_management.py]: [get_payment_status],
      [get_introduction_course_status], [create_member_dataframe],
      [update_member_from_dataframe], [add_new_member].

    Python [str] values are byte strings holding the UTF-8 encoding of the
    text; the string literals below are the bytes of the literals in the
    source files.  A pandas [DataFrame] is the list of its rows, a JSON
    object used as a record is a [Record], the year/month tables of the
    ledger are [gmap]s and the insertion-ordered dictionaries that the code
    scans in order (members, learned mappings) are association lists. *)

From Stdlib Require Import Ascii QArith Lqa.
From stdpp Require Import gmap strings list pretty sorting.

(** ** Python strings *)

Module PyStr.

Definition code (a : ascii) : nat := Ascii.nat_of_ascii a.

(** Code points [c] with [c.isspace()] that are encoded in one byte:
    U+0009..U+000D, U+001C..U+001F and U+0020. *)
Definition space1 (a : ascii) : bool :=
  let n := code a in
  ((9 <=? n)%nat && (n <=? 13)%nat) || ((28 <=? n)%nat && (n <=? 32)%nat).

(** ... in two bytes: U+0085 and U+00A0. *)
Definition space2 (a b : ascii) : bool :=
  (code a =? 194)%nat && ((code b =? 133)%nat || (code b =? 160)%nat).

(** ... in three bytes: U+1680, U+2000..U+200A, U+2028, U+2029, U+202F,
    U+205F and U+3000. *)
Definition space3 (a b c : ascii) : bool :=
  let '(x, y, z) := (code a, code b, code c) in
  ((x =? 225)%nat && (y =? 154)%nat && (z =? 128)%nat)
  || ((x =? 226)%nat && (y =? 128)%nat &&
      (((128 <=? z)%nat && (z <=? 138)%nat)
       || (z =? 168)%nat || (z =? 169)%nat || (z =? 175)%nat))
  || ((x =? 226)%nat && (y =? 129)%nat && (z =? 159)%nat)
  || ((x =? 227)%nat && (y =? 128)%nat && (z =? 128)%nat).

(** Drop leading white space; [fwd] tells whether the bytes are read in
    text order or, for the reversed string, last byte first. *)
Fixpoint drop_space (fwd : bool) (s : string) : string :=
  match s with
  | EmptyString => EmptyString
  | String a s1 =>
      if space1 a then drop_space fwd s1 else
      match s1 with
      | EmptyString => s
      | String b s2 =>
          if (if fwd then space2 a b else space2 b a) then drop_space fwd s2 else
          match s2 with
          | EmptyString => s
          | String c s3 =>
              if (if fwd then space3 a b c else space3 c b a)
              then drop_space fwd s3 else s
          end
      end
  end.

Definition lstrip (s : string) : string := drop_space true s.
Definition rstrip (s : string) : string :=
  String.rev (drop_space false (String.rev s)).

(** [s.strip()] *)
Definition strip (s : string) : string := rstrip (lstrip s).

(** [sub in s] *)
Fixpoint contains (sub s : string) : bool :=
  String.prefix sub s ||
  match s with
  | EmptyString => false
  | String _ s' => contains sub s'
  end.

(** [f"{n:02d}"] for a non-negative [n]. *)
Definition fmt02d (n : nat) : string :=
  if (n <? 10)%nat then "0" +:+ pretty n else pretty n.

(** [f"{n:04d}"], the [%Y] of [strftime] for the years of a timestamp. *)
Definition fmt04d (n : nat) : string :=
  if (n <? 10)%nat then "000" +:+ pretty n
  else if (n <? 100)%nat then "00" +:+ pretty n
  else if (n <? 1000)%nat then "0" +:+ pretty n
  else pretty n.

End PyStr.

(** ** Data frames *)

(** A cell of a text column: a string, or one of the two missing values
    ([float('nan')] and [None]).  A column that pandas holds as numbers is
    represented by the text of its cells. *)
Inductive cell := CStr (s : string) | CNaN | CNone.

Global Instance cell_eq_dec : EqDecision cell.
Proof. solve_decision. Defined.

(** [str(c)] *)
Definition py_str (c : cell) : string :=
  match c with CStr s => s | CNaN => "nan" | CNone => "None" end.

(** [pd.isna(c)] *)
Definition isna (c : cell) : bool :=
  match c with CStr _ => false | CNaN | CNone => true end.

(** [c == ''] *)
Definition eq_empty (c : cell) : bool :=
  match c with CStr s => bool_decide (s = "") | CNaN | CNone => false end.

(** [bool(c)]: the empty string and [None] are false, a NaN is true. *)
Definition truthy (c : cell) : bool :=
  match c with
  | CStr s => negb (bool_decide (s = ""))
  | CNaN => true
  | CNone => false
  end.

(** [col.fillna('')] on one cell *)
Definition fillna (c : cell) : cell := if isna c then CStr "" else c.

(** A [pd.Timestamp]; [None] in a date column stands for [NaT]. *)
Record Timestamp := { ts_year : nat; ts_month : nat; ts_day : nat }.

Definition leap (y : nat) : bool :=
  ((y mod 4 =? 0)%nat && negb (y mod 100 =? 0)%nat) || (y mod 400 =? 0)%nat.

Definition days_in_month (y m : nat) : nat :=
  match m with
  | 2 => if leap y then 29 else 28
  | 4 | 6 | 9 | 11 => 30
  | _ => 31
  end%nat.

(** A calendar date, as every [Timestamp] that pandas builds is. *)
Definition valid_date (d : Timestamp) : Prop :=
  (1 ≤ ts_month d ≤ 12 ∧ 1 ≤ ts_day d ≤ days_in_month (ts_year d) (ts_month d))%nat.

(** [d.strftime('%m')] and [d.strftime('%Y-%m-%d')] *)
Definition strftime_m (d : Timestamp) : string := PyStr.fmt02d (ts_month d).
Definition strftime_Ymd (d : Timestamp) : string :=
  PyStr.fmt04d (ts_year d) +:+ "-" +:+ PyStr.fmt02d (ts_month d)
    +:+ "-" +:+ PyStr.fmt02d (ts_day d).

(** A row of the table that [pd.read_csv] returns for a bank statement,
    with the columns the importer reads (after the header clean-up). *)
Record RawRow := {
  raw_Datum : cell;
  raw_Details : cell;
  raw_Gutschrift_CHF : cell;
  raw_Zahlungszweck : cell;
  raw_ZKB_Referenz : cell
}.

(** A row of the processed table: a candidate transaction.  [index] is the
    row's label in the data frame's index.  An amount is the rational that
    the decimal numeral denotes, [None] for NaN: the code compares amounts
    with 0 and stores them, nothing more. *)
Record Row := {
  index : nat;
  Datum : option Timestamp;
  Details : cell;
  Amount : option Q;
  Zahlungszweck : cell;
  Mitglied : cell;
  Monat : cell;
  Bemerkungen : cell;
  ZKB_Referenz : cell
}.

(** [df.at[idx, 'Monat'] = v] and [df.at[idx, 'Mitglied'] = v] on the row
    labelled [idx] (the labels of a frame are distinct). *)
Definition set_Monat (v : cell) (r : Row) : Row :=
  {| index := index r; Datum := Datum r; Details := Details r;
     Amount := Amount r; Zahlungszweck := Zahlungszweck r;
     Mitglied := Mitglied r; Monat := v; Bemerkungen := Bemerkungen r;
     ZKB_Referenz := ZKB_Referenz r |}.

Definition set_Mitglied (v : cell) (r : Row) : Row :=
  {| index := index r; Datum := Datum r; Details := Details r;
     Amount := Amount r; Zahlungszweck := Zahlungszweck r;
     Mitglied := v; Monat := Monat r; Bemerkungen := Bemerkungen r;
     ZKB_Referenz := ZKB_Referenz r |}.

(** ** Month tables *)

(** [month_names] of [_add_smart_month_defaults] *)
Definition month_names : gmap nat string :=
  list_to_map
    [(1, "Januar"); (2, "Februar"); (3, "M√§rz"); (4, "April");
     (5, "Mai"); (6, "Juni"); (7, "Juli"); (8, "August");
     (9, "September"); (10, "Oktober"); (11, "November"); (12, "Dezember")]%nat.

(** [month_to_num] of [_check_existing_entries] and of
    [transfer_to_member_database] *)
Definition month_to_num : gmap string string :=
  list_to_map
    [("Januar", "01"); ("Februar", "02"); ("M√§rz", "03"); ("April", "04");
     ("Mai", "05"); ("Juni", "06"); ("Juli", "07"); ("August", "08");
     ("September", "09"); ("Oktober", "10"); ("November", "11");
     ("Dezember", "12")].

(** ** Assigner: month and member defaults *)

(** One iteration of the loop of [_add_smart_month_defaults]; [None] is the
    [KeyError] of [month_names[payment_date.month]]. *)
Definition month_default (r : Row) : option Row :=
  match Datum r with
  | None => Some r
  | Some payment_date =>
      let day_of_month := ts_day payment_date in
      if (day_of_month <=? 7)%nat then Some (set_Monat (CStr "") r)
      else
        month_name ← month_names !! ts_month payment_date;
        Some (set_Monat (CStr month_name) r)
  end.

Definition _add_smart_month_defaults (df : list Row) : option (list Row) :=
  mapM month_default df.

Section Library.

(** What the program takes from the Python and pandas libraries:
    [str.lower], [pd.to_numeric(_, errors='coerce')] on a cell ([None] is
    NaN) and [pd.to_datetime(_, format='%d.%m.%Y', errors='coerce')] on a
    cell ([None] is NaT). *)
Variable lower : string → string.
Variable to_numeric : cell → option Q.
Variable to_datetime : cell → option Timestamp.

(** The scan of [auto_assign_members] over the learned mappings, in
    insertion order, first match wins. *)
Definition first_mapping (mappings : list (string * string)) (details : string)
    : option string :=
  snd <$> List.find (λ km, PyStr.contains (lower km.1) details) mappings.

Definition auto_assign (mappings : list (string * string)) (r : Row) : Row :=
  let details := PyStr.strip (lower (py_str (Details r))) in
  let current_member := Mitglied r in
  if truthy current_member && negb (eq_empty current_member) then r
  else match first_mapping mappings details with
       | Some member_name => set_Mitglied (CStr member_name) r
       | None => r
       end.

Definition auto_assign_members (mappings : list (string * string))
    (df : list Row) : list Row :=
  auto_assign mappings <$> df.

(** ** StatementParser *)

(** [df['Gutschrift CHF'].notna() & (df['Gutschrift CHF'] != '')] *)
Definition is_credit (raw : RawRow) : bool :=
  negb (isna (raw_Gutschrift_CHF raw)) && negb (eq_empty (raw_Gutschrift_CHF raw)).

(** The row of [processed_df] built from the raw row labelled [i]. *)
Definition processed_row (i : nat) (raw : RawRow) : Row :=
  {| index := i;
     Datum := to_datetime (raw_Datum raw);
     Details := fillna (raw_Details raw);
     Amount := to_numeric (raw_Gutschrift_CHF raw);
     Zahlungszweck := CStr "Mitgliederbeitrag";
     Mitglied := CStr "";
     Monat := CStr "";
     Bemerkungen := fillna (raw_Zahlungszweck raw);
     ZKB_Referenz := fillna (raw_ZKB_Referenz raw) |}.

(** [Amount.notna() & (Amount > 0)] *)
Definition amount_ok (r : Row) : bool :=
  match Amount r with
  | Some a => negb (Qle_bool a 0)
  | None => false
  end.

(** [parse_csv_file] on the table read from the uploaded file, whose rows
    [pd.read_csv] labels 0, 1, 2, ...; [mappings] is the content of the
    mapping store.  [None] is the function's [None]: no credit row, or an
    exception. *)
Definition parse_csv_file (mappings : list (string * string))
    (df : list RawRow) : option (list Row) :=
  let credit_df := filter (λ ir, is_credit ir.2) (imap pair df) in
  if bool_decide (credit_df = []) then None
  else
    let processed_df := (λ ir, processed_row ir.1 ir.2) <$> credit_df in
    let processed_df := filter (λ r, amount_ok r) processed_df in
    processed_df ← _add_smart_month_defaults processed_df;
    Some (auto_assign_members mappings processed_df).

(** A labelled raw row is kept when its credit cell passes the first
    filter and the amount read from it passes the second. *)
Definition kept (ir : nat * RawRow) : Prop :=
  is_credit ir.2 = true ∧ amount_ok (processed_row ir.1 ir.2) = true.

Global Instance kept_dec ir : Decision (kept ir).
Proof. unfold kept. apply _. Defined.

End Library.

(** ** Ledger and mapping store *)

(** An entry of [contributions[year][month]].  The importer writes all the
    fields; the entries ticked by hand in the member table carry an amount
    and a null date and transaction id only. *)
Record Contribution := {
  c_amount : option Q;
  c_date : option string;
  c_transaction_id : option string;
  c_source : option string;
  c_purpose : option string;
  c_details : option string;
  c_month_name : option string;
  c_zkb_reference : option string
}.

(** A member record; the keys that [dict.get] reads with a default or that
    the code tests with [in] may be absent. *)
Record Member := {
  name : string;
  phone : option string;
  email : option string;
  mitgliedsform : option string;
  einfuehrungskurs : option bool;
  contributions : option (gmap string (gmap string Contribution))
}.

(** [member_db["members"]]: member id to member record, in insertion
    order. *)
Definition Members := list (string * Member).

(** The two persisted documents. *)
Record Store := {
  member_db : Members;
  categories : list (string * string)
}.

(** The scan [for mid, member_data in members.items(): if
    member_data["name"] == member_name: ... break]. *)
Definition find_member_id (members : Members) (member_name : string)
    : option string :=
  fst <$> List.find (λ im, bool_decide (name im.2 = member_name)) members.

(** [members[member_id]] *)
Definition get_member (members : Members) (member_id : string) : option Member :=
  snd <$> List.find (λ im, bool_decide (im.1 = member_id)) members.

(** In-place update of [members[member_id]]. *)
Fixpoint update_member (member_id : string) (f : Member → Member)
    (members : Members) : Members :=
  match members with
  | [] => []
  | (mid, m) :: rest =>
      if bool_decide (mid = member_id) then (mid, f m) :: rest
      else (mid, m) :: update_member member_id f rest
  end.

(** [member.get("contributions", {}).get(year, {})] *)
Definition contributions_of (m : Member) (year : string)
    : gmap string Contribution :=
  default ∅ (default ∅ (contributions m) !! year).

(** ** Reconciler: validation *)

(** One iteration of the loop of [_check_existing_entries]: the conflict
    line appended for the row, if any. *)
Definition existing_entry (members : Members) (r : Row) : option string :=
  let member_name := PyStr.strip (py_str (Mitglied r)) in
  let month_name := PyStr.strip (py_str (Monat r)) in
  let purpose := PyStr.strip (py_str (Zahlungszweck r)) in
  member_id ← find_member_id members member_name;
  month_num ← month_to_num !! month_name;
  if bool_decide (month_num = "") then None
  else
    member_data ← get_member members member_id;
    let contributions := contributions_of member_data "2025" in
    if bool_decide (is_Some (contributions !! month_num))
    then Some (member_name +:+ " - " +:+ month_name +:+ " (" +:+ purpose +:+ ")")
    else None.

Definition _check_existing_entries (members : Members) (df : list Row)
    : list string :=
  omap (existing_entry members) df.

(** The grouping key of [df.groupby(['Mitglied', 'Monat', 'Zahlungszweck'])];
    rows with a missing value in a key column belong to no group. *)
Definition group_key (r : Row) : option (string * string * string) :=
  match Mitglied r, Monat r, Zahlungszweck r with
  | CStr m, CStr mo, CStr z => Some (m, mo, z)
  | _, _, _ => None
  end.

(** Group keys are listed in sorted order, component by component. *)
Definition key_leb (k1 k2 : string * string * string) : bool :=
  let '(a1, b1, c1) := k1 in
  let '(a2, b2, c2) := k2 in
  match String.compare a1 a2 with
  | Lt => true
  | Gt => false
  | Eq => match String.compare b1 b2 with
          | Lt => true
          | Gt => false
          | Eq => String.leb c1 c2
          end
  end.

(** [df.groupby([...]).size()]: each key with the number of its rows. *)
Definition group_sizes (df : list Row)
    : list ((string * string * string) * nat) :=
  let keys := omap group_key df in
  (λ k, (k, length (filter (λ k', k' = k) keys)))
    <$> merge_sort (λ k1 k2, Is_true (key_leb k1 k2)) (remove_dups keys).

(** The three required columns of the edited table. *)
Inductive Column := Col_Zahlungszweck | Col_Mitglied | Col_Monat.

Definition column (c : Column) (r : Row) : cell :=
  match c with
  | Col_Zahlungszweck => Zahlungszweck r
  | Col_Mitglied => Mitglied r
  | Col_Monat => Monat r
  end.

(** The message of a validation, with the data it prints: the three
    "please choose ..." messages differ in the column they name. *)
Inductive Message :=
  | MissingField (col : Column) (missing_rows : list nat)
  | DuplicateTransactions (duplicates : list ((string * string * string) * nat))
  | ExistingEntries (existing_conflicts : list string)
  | ValidationOk.

(** [col.isna() | (col == '')] *)
Definition missing (c : cell) : bool := isna c || eq_empty c.

(** [df[mask].index.tolist()] *)
Definition rows_where (mask : Row → bool) (df : list Row) : list nat :=
  index <$> filter (λ r, mask r) df.

(** [validate_import_data] on the edited table, against the member database
    found on disk. *)
Definition validate_import_data (members : Members) (df : list Row)
    : bool * Message :=
  let missing_zweck r := missing (Zahlungszweck r) in
  let missing_member r := missing (Mitglied r) in
  let missing_month r := missing (Monat r) in
  if existsb missing_zweck df then
    (false, MissingField Col_Zahlungszweck (rows_where missing_zweck df))
  else if existsb missing_member df then
    (false, MissingField Col_Mitglied (rows_where missing_member df))
  else if existsb missing_month df then
    (false, MissingField Col_Monat (rows_where missing_month df))
  else
    let duplicates := filter (λ ks, 1 < ks.2) (group_sizes df) in
    if negb (bool_decide (duplicates = [])) then
      (false, DuplicateTransactions duplicates)
    else
      let existing_conflicts := _check_existing_entries members df in
      if negb (bool_decide (existing_conflicts = [])) then
        (false, ExistingEntries existing_conflicts)
      else (true, ValidationOk).

(** ** Reconciler: commit *)

(** [add_member_mapping] on the mapping store: the returned flag and the
    store as saved. *)
Definition add_member_mapping (details member_name : string)
    (mappings : list (string * string)) : bool * list (string * string) :=
  let details_key := PyStr.strip details in
  if negb (bool_decide (details_key = ""))
     && negb (bool_decide (details_key ∈ mappings.*1))
  then (true, mappings ++ [(details_key, member_name)])
  else (false, mappings).

(** [member["contributions"][year][month] = entry], creating the two
    tables on the way when they are missing. *)
Definition put_contribution (year month : string) (entry : Contribution)
    (m : Member) : Member :=
  let cs := default ∅ (contributions m) in
  {| name := name m; phone := phone m; email := email m;
     mitgliedsform := mitgliedsform m;
     einfuehrungskurs := einfuehrungskurs m;
     contributions := Some (<[year := <[month := entry]> (default ∅ (cs !! year))]> cs) |}.

(** [member["einfuehrungskurs"] = True] *)
Definition set_einfuehrungskurs (m : Member) : Member :=
  {| name := name m; phone := phone m; email := email m;
     mitgliedsform := mitgliedsform m;
     einfuehrungskurs := Some true;
     contributions := contributions m |}.

(** The state of the commit loop: the member database in memory, the
    mapping store on disk, and how many times the clock was read. *)
Record Commit := {
  st_members : Members;
  st_mappings : list (string * string);
  st_tick : nat
}.

Section Clock.

(** [int(datetime.now().timestamp())] at the k-th reading of the clock. *)
Variable clock : nat → Z.

(** The entry written for a row, and whether the clock was read for its
    transaction id. *)
Definition entry_of (member_id : string) (tick : nat) (r : Row)
    (d : Timestamp) : Contribution * bool :=
  let month_name := PyStr.strip (py_str (Monat r)) in
  let year := pretty (ts_year d) in
  let amount := Amount r in
  let purpose := PyStr.strip (py_str (Zahlungszweck r)) in
  let month := default (strftime_m d) (month_to_num !! month_name) in
  let zkb_reference := PyStr.strip (py_str (ZKB_Referenz r)) in
  let synthesize := bool_decide (zkb_reference = "") in
  let transaction_id :=
    if synthesize
    then "CSV_" +:+ member_id +:+ "_" +:+ year +:+ month +:+ "_"
           +:+ pretty (clock tick)
    else zkb_reference in
  ({| c_amount := amount;
      c_date := Some (strftime_Ymd d);
      c_transaction_id := Some transaction_id;
      c_source := Some "csv_import";
      c_purpose := Some purpose;
      c_details := Some (PyStr.strip (py_str (Details r)));
      c_month_name := Some month_name;
      c_zkb_reference := Some zkb_reference |}, synthesize).

(** The key [(year, month)] under which a row is written. *)
Definition period_of (r : Row) (d : Timestamp) : string * string :=
  (pretty (ts_year d),
   default (strftime_m d) (month_to_num !! PyStr.strip (py_str (Monat r)))).

(** One iteration of the inner loop [for _, row in group.iterrows()];
    [None] is the exception that [strftime] raises on [NaT]. *)
Definition write_row (member_id : string) (st : Commit) (r : Row)
    : option Commit :=
  d ← Datum r;
  let '(year, month) := period_of r d in
  let '(entry, ticked) := entry_of member_id (st_tick st) r d in
  Some {| st_members :=
            update_member member_id (put_contribution year month entry)
              (st_members st);
          st_mappings := st_mappings st;
          st_tick := if ticked then S (st_tick st) else st_tick st |}.

Fixpoint write_rows (member_id : string) (st : Commit) (group : list Row)
    : option Commit :=
  match group with
  | [] => Some st
  | r :: rest => st' ← write_row member_id st r; write_rows member_id st' rest
  end.

(** One iteration of the outer loop [for member_name, group in
    df.groupby('Mitglied')].  The statements after the inner loop read
    [row] and [purpose] as the last row of the group left them; a group of
    [groupby] has at least one row. *)
Definition process_group (st : Commit) (g : string * list Row)
    : option Commit :=
  let '(member_name, group) := g in
  match find_member_id (st_members st) member_name with
  | None => Some st
  | Some member_id =>
      st' ← write_rows member_id st group;
      row ← last group;
      let purpose := PyStr.strip (py_str (Zahlungszweck row)) in
      let members :=
        if bool_decide (purpose = "Einf√ºhrungskurs")
        then update_member member_id set_einfuehrungskurs (st_members st')
        else st_members st' in
      let mappings :=
        (add_member_mapping (PyStr.strip (py_str (Details row)))
           (PyStr.strip member_name) (st_mappings st')).2 in
      Some {| st_members := members; st_mappings := mappings;
              st_tick := st_tick st' |}
  end.

(** The outer loop; on an exception the state reached before the failing
    group is returned with [false]. *)
Fixpoint process_groups (st : Commit) (groups : list (string * list Row))
    : Commit * bool :=
  match groups with
  | [] => (st, true)
  | g :: rest =>
      match process_group st g with
      | Some st' => process_groups st' rest
      | None => (st, false)
      end
  end.

(** [df.groupby('Mitglied')]: the member names of the table in sorted
    order, each with its rows in table order; rows with a missing member
    belong to no group. *)
Definition member_key (r : Row) : option string :=
  match Mitglied r with CStr s => Some s | CNaN | CNone => None end.

Definition groupby_Mitglied (df : list Row) : list (string * list Row) :=
  (λ k, (k, filter (λ r, member_key r = Some k) df))
    <$> merge_sort String.le (remove_dups (omap member_key df)).

(** [transfer_to_member_database]: the returned flag and the two stores
    as they are on disk afterwards.  The member database is written once,
    after the loop; the mapping store is written by each
    [add_member_mapping]. *)
Definition transfer_to_member_database (df : list Row) (s : Store)
    : bool * Store :=
  let st0 := {| st_members := member_db s; st_mappings := categories s;
                st_tick := 0 |} in
  let '(st, ok) := process_groups st0 (groupby_Mitglied df) in
  if ok then (true, {| member_db := st_members st; categories := st_mappings st |})
  else (false, {| member_db := member_db s; categories := st_mappings st |}).

End Clock.

(** ** Outstanding payments *)

(** [calculate_outstanding_payments]; [now] is the reading of
    [datetime.now()].  Amounts are rationals: the sums taken here are whole
    multiples of 25 below 1000, which floating point adds exactly. *)
Definition monthly_amount_of (member_form : string) : Q :=
  if bool_decide (member_form = "Aktiv") then 50
  else if bool_decide (member_form = "Passiv") then 25
  else 0.

(** The body of the loop [for month in range(1, current_month + 1)] on
    the pair of [outstanding_months] and [total_outstanding]. *)
Definition outstanding_step (monthly_amount : Q) (paid_months : gset string)
    (acc : list string * Q) (month : nat) : list string * Q :=
  let month_str := PyStr.fmt02d month in
  if bool_decide (month_str ∉ paid_months)
  then (acc.1 ++ [month_str], (acc.2 + monthly_amount)%Q)
  else acc.

Definition calculate_outstanding_payments (now : Timestamp)
    (member_data : Member) : list string * Q :=
  let member_form := default "Aktiv" (mitgliedsform member_data) in
  let monthly_amount := monthly_amount_of member_form in
  if Qeq_bool monthly_amount 0 then ([], 0%Q)
  else
    let current_year := "2025" in
    let current_month := ts_month now in
    let contributions := contributions_of member_data current_year in
    let paid_months := dom contributions in
    foldl (outstanding_step monthly_amount paid_months)
          ([], 0%Q) (seq 1 current_month).

(** ** An instance of the library calls

    Plain readings of the three library functions, for running the parser
    on concrete statements: ASCII letters are lowered, an amount is an
    optionally signed decimal numeral, and a date is day.month.year with one
    or two digits for the day and for the month and four for the year. *)
Module Plain.

Definition lower_ascii (a : ascii) : ascii :=
  let n := PyStr.code a in
  if (65 <=? n)%nat && (n <=? 90)%nat then Ascii.ascii_of_nat (n + 32) else a.

Fixpoint lower (s : string) : string :=
  match s with
  | EmptyString => EmptyString
  | String a s' => String (lower_ascii a) (lower s')
  end.

Definition digit (a : ascii) : option nat :=
  let n := PyStr.code a in
  if (48 <=? n)%nat && (n <=? 57)%nat then Some (n - 48)%nat else None.

(** The value of a string of digits, most significant first. *)
Fixpoint number (acc : nat) (s : string) : option nat :=
  match s with
  | EmptyString => Some acc
  | String a s' => d ← digit a; number (10 * acc + d)%nat s'
  end.

(** [s.split('.')] *)
Fixpoint split_dot (cur : string) (s : string) : list string :=
  match s with
  | EmptyString => [String.rev cur]
  | String a s' =>
      if bool_decide (a = "."%char) then String.rev cur :: split_dot "" s'
      else split_dot (String a cur) s'
  end.

Definition valid_dateb (d : Timestamp) : bool :=
  bool_decide (valid_date d).

Definition strptime (s : string) : option Timestamp :=
  match split_dot "" s with
  | [ds; ms; ys] =>
      if bool_decide (1 ≤ String.length ds ≤ 2 ∧ 1 ≤ String.length ms ≤ 2
                      ∧ String.length ys = 4)%nat
      then
        d ← number 0 ds; m ← number 0 ms; y ← number 0 ys;
        let t := {| ts_year := y; ts_month := m; ts_day := d |} in
        if valid_dateb t then Some t else None
      else None
  | _ => None
  end.

Definition to_datetime (c : cell) : option Timestamp :=
  match c with CStr s => strptime s | CNaN | CNone => None end.

Definition unsigned_decimal (s : string) : option Q :=
  match split_dot "" s with
  | [ip] =>
      if bool_decide (ip = "") then None
      else n ← number 0 ip; Some (inject_Z (Z.of_nat n))
  | [ip; fp] =>
      if bool_decide (ip = "" ∧ fp = "") then None
      else
        n ← number 0 ip; f ← number 0 fp;
        let scale := (10 ^ Z.of_nat (String.length fp))%Z in
        Some (Qred (Qmake (Z.of_nat n * scale + Z.of_nat f) (Z.to_pos scale)))
  | _ => None
  end.

Definition decimal (s : string) : option Q :=
  match s with
  | String "-" s' => Qopp <$> unsigned_decimal s'
  | String "+" s' => unsigned_decimal s'
  | _ => unsigned_decimal s
  end.

Definition to_numeric (c : cell) : option Q :=
  match c with CStr s => decimal s | CNaN | CNone => None end.

Definition parse_csv_file := parse_csv_file lower to_numeric to_datetime.

(** [str.isdigit] and [int] on text in which every digit is one of 0 to
    9. *)
Definition isdigit (s : string) : bool :=
  negb (bool_decide (s = ""))
  && forallb (λ a, bool_decide (is_Some (digit a))) (String.list_ascii_of_string s).

Definition int (s : string) : option nat :=
  if isdigit s then number 0 s else None.

End Plain.

(** ** The transfer button

    The handler of the transfer button in [run_csv_import_interface]: the
    table is validated again against the member database on disk and is
    transferred only when it is valid.  The result is [None] when validation
    fails, and the flag of [transfer_to_member_database] otherwise. *)
Definition transfer_button (clock : nat → Z) (df : list Row) (s : Store)
    : option bool * Store :=
  let '(is_valid, message) := validate_import_data (member_db s) df in
  if is_valid then
    let '(ok, s') := transfer_to_member_database clock df s in (Some ok, s')
  else (None, s).

(** ** Outstanding summary *)

(** The dictionary returned by [get_outstanding_summary]. *)
Record Summary := {
  total_members : nat;
  members_with_outstanding : nat;
  total_outstanding_amount : Q
}.

(** One iteration of the loop of [get_outstanding_summary]. *)
Definition summary_step (now : Timestamp) (acc : Summary)
    (im : string * Member) : Summary :=
  let member_data := im.2 in
  if bool_decide (mitgliedsform member_data = Some "Inaktiv") then acc
  else
    let '(outstanding_months, total_amount) :=
      calculate_outstanding_payments now member_data in
    if bool_decide (outstanding_months = []) then
      {| total_members := S (total_members acc);
         members_with_outstanding := members_with_outstanding acc;
         total_outstanding_amount := total_outstanding_amount acc |}
    else
      {| total_members := S (total_members acc);
         members_with_outstanding := S (members_with_outstanding acc);
         total_outstanding_amount :=
           (total_outstanding_amount acc + total_amount)%Q |}.

Definition get_outstanding_summary (now : Timestamp) (members : Members)
    : Summary :=
  foldl (summary_step now)
    {| total_members := 0; members_with_outstanding := 0;
       total_outstanding_amount := 0%Q |}
    members.

(** ** Member table

    The table of [member_management.py]: one row per member with the
    membership class, the course flag and a checkbox per month of 2025. *)

Definition MONTHS : list string :=
  ["01"; "02"; "03"; "04"; "05"; "06"; "07"; "08"; "09"; "10"; "11"; "12"].

Definition MONTH_NAMES : gmap string string :=
  list_to_map
    [("01", "Januar"); ("02", "Februar"); ("03", "März"); ("04", "April");
     ("05", "Mai"); ("06", "Juni"); ("07", "Juli"); ("08", "August");
     ("09", "September"); ("10", "Oktober"); ("11", "November");
     ("12", "Dezember")].

(** [get_payment_status(member_id, month, year)]; an unknown member id reads
    as the empty record. *)
Definition get_payment_status (members : Members)
    (member_id month year : string) : bool :=
  match get_member members member_id with
  | Some member => bool_decide (is_Some (contributions_of member year !! month))
  | None => false
  end.

(** [get_introduction_course_status(member_id)] *)
Definition get_introduction_course_status (members : Members)
    (member_id : string) : bool :=
  match get_member members member_id with
  | Some member => default false (einfuehrungskurs member)
  | None => false
  end.

(** A row of the member table.  The name cell of a row added in the editor
    is missing; the class is the text of a select box, the course flag and
    the months, keyed by the month's column name, are checkboxes. *)
Record MemberRow := {
  mr_Mitglied : cell;
  mr_Mitgliedsform : string;
  mr_Einfuehrungskurs : bool;
  mr_months : gmap string bool
}.

(** The month columns of a row, [row[MONTH_NAMES[month]] = status(month)]
    for the months of [MONTHS]. *)
Definition month_cells (status : string → bool) : gmap string bool :=
  foldl (λ row month,
           match MONTH_NAMES !! month with
           | Some month_name => <[month_name := status month]> row
           | None => row
           end)
        ∅ MONTHS.

(** [create_member_dataframe] *)
Definition create_member_dataframe (members : Members) : list MemberRow :=
  (λ im,
     {| mr_Mitglied := CStr (name im.2);
        mr_Mitgliedsform := default "Aktiv" (mitgliedsform im.2);
        mr_Einfuehrungskurs := get_introduction_course_status members im.1;
        mr_months :=
          month_cells (λ month, get_payment_status members im.1 month "2025") |})
    <$> members.

(** [member["mitgliedsform"] = v] and [member["einfuehrungskurs"] = b] *)
Definition set_mitgliedsform (v : string) (m : Member) : Member :=
  {| name := name m; phone := phone m; email := email m;
     mitgliedsform := Some v;
     einfuehrungskurs := einfuehrungskurs m;
     contributions := contributions m |}.

Definition set_einfuehrungskurs_to (b : bool) (m : Member) : Member :=
  {| name := name m; phone := phone m; email := email m;
     mitgliedsform := mitgliedsform m;
     einfuehrungskurs := Some b;
     contributions := contributions m |}.

(** [del member["contributions"][year][month]] for an entry that is there. *)
Definition delete_contribution (year month : string) (m : Member) : Member :=
  let cs := default ∅ (contributions m) in
  {| name := name m; phone := phone m; email := email m;
     mitgliedsform := mitgliedsform m;
     einfuehrungskurs := einfuehrungskurs m;
     contributions := Some (<[year := delete month (default ∅ (cs !! year))]> cs) |}.

(** The entry written for a ticked checkbox: an amount, a null date and a
    null transaction id. *)
Definition ticked_entry (amount : Q) : Contribution :=
  {| c_amount := Some amount; c_date := None; c_transaction_id := None;
     c_source := None; c_purpose := None; c_details := None;
     c_month_name := None; c_zkb_reference := None |}.

(** One iteration of the loop over [MONTHS] in
    [update_member_from_dataframe], on the member database in memory and the
    flag that no exception was raised so far; a row without the month's
    column raises a [KeyError]. *)
Definition update_month (member_id : string) (row : MemberRow)
    (st : Members * bool) (month : string) : Members * bool :=
  let '(members, ok) := st in
  if ok then
    match MONTH_NAMES !! month ≫= λ month_name, mr_months row !! month_name with
    | None => (members, false)
    | Some is_paid =>
        let paid := get_payment_status members member_id month "2025" in
        if is_paid && negb paid then
          let amount :=
            if bool_decide (mr_Mitgliedsform row = "Aktiv") then 50%Q else 25%Q in
          (update_member member_id
             (put_contribution "2025" month (ticked_entry amount)) members, true)
        else if negb is_paid && paid then
          (update_member member_id (delete_contribution "2025" month) members, true)
        else (members, true)
    end
  else st.

(** One iteration of the loop over the rows of the table. *)
Definition update_row (st : Members * bool) (row : MemberRow) : Members * bool :=
  let '(members, ok) := st in
  if ok then
    match match mr_Mitglied row with
          | CStr member_name => find_member_id members member_name
          | CNaN | CNone => None
          end with
    | None => (members, true)
    | Some member_id =>
        let members :=
          update_member member_id (set_mitgliedsform (mr_Mitgliedsform row)) members in
        let members :=
          update_member member_id
            (set_einfuehrungskurs_to (mr_Einfuehrungskurs row)) members in
        foldl (update_month member_id row) (members, true) MONTHS
    end
  else st.

(** [update_member_from_dataframe]: the returned flag and the member
    database in memory afterwards, which keeps the changes made before an
    exception. *)
Definition update_member_from_dataframe (df : list MemberRow)
    (members : Members) : bool * Members :=
  let '(members', ok) := foldl update_row (members, true) df in
  (ok, members').

(** ** New members *)

(** [f"{n:03d}"] *)
Definition fmt03d (n : nat) : string :=
  if (n <? 10)%nat then "00" +:+ pretty n
  else if (n <? 100)%nat then "0" +:+ pretty n
  else pretty n.

(** [members[k] = v] on the dictionary of members. *)
Fixpoint dict_set (k : string) (v : Member) (members : Members) : Members :=
  match members with
  | [] => [(k, v)]
  | (k', v') :: rest =>
      if bool_decide (k' = k) then (k, v) :: rest
      else (k', v') :: dict_set k v rest
  end.

Section Digits.

(** What [add_new_member] takes from Python's strings: [str.isdigit], which
    accepts the digits of every script and superscripts such as a raised
    two, and [int] of a string, which refuses some of these; [None] is its
    [ValueError]. *)
Variable isdigit : string → bool.
Variable int : string → option nat.

(** [mid[1:]] for an id that passes the filter [mid.startswith('M') and
    mid[1:].isdigit()]. *)
Definition numeric_part (mid : string) : option string :=
  match mid with
  | String "M" rest => if isdigit rest then Some rest else None
  | _ => None
  end.

(** [[int(mid[1:]) for mid in existing_ids if ...]]; [None] when an [int]
    raises. *)
Definition member_numbers (existing_ids : list string) : option (list nat) :=
  mapM int (omap numeric_part existing_ids).

(** The id chosen by [add_new_member]; [None] is a [ValueError], of [int]
    or of [max] on an empty list. *)
Definition new_member_id (existing_ids : list string) : option string :=
  if bool_decide (existing_ids = []) then Some "M001"
  else
    numbers ← member_numbers existing_ids;
    if bool_decide (numbers = []) then None
    else Some ("M" +:+ fmt03d (max_list numbers + 1)).

(** [add_new_member]: the returned flag and the member database, when
    the file of the database can be written.  The null [telegram_chat_id] of
    the new record, which no function reads, is not kept. *)
Definition add_new_member (name phone email mitgliedsform : string)
    (members : Members) : bool * Members :=
  match new_member_id members.*1 with
  | None => (false, members)
  | Some new_id =>
      let new_member :=
        Build_Member (PyStr.strip name) (Some (PyStr.strip phone))
          (Some (PyStr.strip email)) (Some (PyStr.strip mitgliedsform))
          (Some false) (Some {[ "2025" := ∅ ]}) in
      (true, dict_set new_id new_member members)
  end.

End Digits.

(** * Specification vocabulary *)

(** The twelve labels that [month_to_num] knows. *)
Definition month_labels : list string :=
  ["Januar"; "Februar"; "M√§rz"; "April"; "Mai"; "Juni"; "Juli"; "August";
   "September"; "Oktober"; "November"; "Dezember"].

(** The names of the calendar months, as the member table and the
    reminders spell them ([MONTH_NAMES] of member_management.py and
    [month_names] of payment_reminder_export.py). *)
Definition calendar_month_name (m : nat) : option string :=
  match m with
  | 1 => Some "Januar" | 2 => Some "Februar" | 3 => Some "März"
  | 4 => Some "April" | 5 => Some "Mai" | 6 => Some "Juni"
  | 7 => Some "Juli" | 8 => Some "August" | 9 => Some "September"
  | 10 => Some "Oktober" | 11 => Some "November" | 12 => Some "Dezember"
  | _ => None
  end%nat.

(** The two-digit decimal numeral of a number below 100: the digit of the
    tens, then the digit of the units. *)
Definition two_digits (n : nat) : string :=
  String (Ascii.ascii_of_nat (48 + n / 10))
    (String (Ascii.ascii_of_nat (48 + n mod 10)) "").

(** ** Validation *)

(** A required cell is filled when it holds a non-empty string. *)
Definition filled (c : cell) : Prop := ∃ s, c = CStr s ∧ s ≠ "".

(** A row is complete when its purpose, member and month are filled. *)
Definition complete (r : Row) : Prop :=
  filled (Zahlungszweck r) ∧ filled (Mitglied r) ∧ filled (Monat r).

(** Two rows of the same member, month and purpose. *)
Definition same_group (r1 r2 : Row) : Prop :=
  Mitglied r1 = Mitglied r2 ∧ Monat r1 = Monat r2
  ∧ Zahlungszweck r1 = Zahlungszweck r2.

(** A batch has a duplicate when two of its rows, at different positions,
    are of the same group. *)
Definition duplicated (df : list Row) : Prop :=
  ∃ i j r1 r2, i ≠ j ∧ df !! i = Some r1 ∧ df !! j = Some r2 ∧ same_group r1 r2.

(** The line reported for a conflicting row. *)
Definition conflict_line (r : Row) : string :=
  PyStr.strip (py_str (Mitglied r)) +:+ " - " +:+ PyStr.strip (py_str (Monat r))
    +:+ " (" +:+ PyStr.strip (py_str (Zahlungszweck r)) +:+ ")".

(** A row conflicts with the ledger when its trimmed member name is the
    name of a member, its trimmed month label is one of the twelve, and the
    ledger holds an entry of that member for that month under the year of
    the row's own date. *)
Definition has_conflict (members : Members) (r : Row) : Prop :=
  ∃ member_id member_data month_num d,
    find_member_id members (PyStr.strip (py_str (Mitglied r))) = Some member_id
    ∧ get_member members member_id = Some member_data
    ∧ month_to_num !! PyStr.strip (py_str (Monat r)) = Some month_num
    ∧ Datum r = Some d
    ∧ is_Some (contributions_of member_data (pretty (ts_year d)) !! month_num).

(** The rows of a batch are dated in 2025. *)
Definition dated_2025 (df : list Row) : Prop :=
  Forall (λ r, ∃ d, Datum r = Some d ∧ ts_year d = 2025%nat) df.

(** What validation may answer as the specification has it: the first
    failing one of the three checks only, with its offending rows, groups or
    conflict lines.  The completeness check is one check: its offending rows
    are the rows that miss a purpose, a member or a month. *)
Inductive validation_outcome (members : Members) (df : list Row)
    : bool * Message → Prop :=
  | Fails_completeness col rows :
      rows ≠ [] →
      (∀ i, i ∈ rows ↔ ∃ r, r ∈ df ∧ index r = i ∧ ¬ complete r) →
      validation_outcome members df (false, MissingField col rows)
  | Fails_duplication groups :
      Forall complete df →
      duplicated df →
      groups ≠ [] →
      (∀ k n, (k, n) ∈ groups ↔
         1 < n ∧ n = length (filter (λ r, group_key r = Some k) df)) →
      validation_outcome members df (false, DuplicateTransactions groups)
  | Fails_conflict lines :
      Forall complete df →
      ¬ duplicated df →
      lines ≠ [] →
      (∀ line, line ∈ lines ↔
         ∃ r, r ∈ df ∧ has_conflict members r ∧ line = conflict_line r) →
      validation_outcome members df (false, ExistingEntries lines)
  | Passes :
      Forall complete df →
      ¬ duplicated df →
      Forall (λ r, ¬ has_conflict members r) df →
      validation_outcome members df (true, ValidationOk).

(** The columns checked before [col]. *)
Definition filled_before (col : Column) (df : list Row) : Prop :=
  match col with
  | Col_Zahlungszweck => True
  | Col_Mitglied => Forall (λ r, filled (Zahlungszweck r)) df
  | Col_Monat =>
      Forall (λ r, filled (Zahlungszweck r)) df
      ∧ Forall (λ r, filled (Mitglied r)) df
  end.

(** The amended reading: completeness is three checks, one per required
    column in the order purpose, member, month, and a failing one reports
    the rows that miss that column. *)
Inductive first_failing_check (members : Members) (df : list Row)
    : bool * Message → Prop :=
  | Check_field col rows :
      filled_before col df →
      rows ≠ [] →
      (∀ i, i ∈ rows ↔ ∃ r, r ∈ df ∧ index r = i ∧ ¬ filled (column col r)) →
      first_failing_check members df (false, MissingField col rows)
  | Check_duplication groups :
      Forall complete df →
      duplicated df →
      groups ≠ [] →
      (∀ k n, (k, n) ∈ groups ↔
         1 < n ∧ n = length (filter (λ r, group_key r = Some k) df)) →
      first_failing_check members df (false, DuplicateTransactions groups)
  | Check_conflict lines :
      Forall complete df →
      ¬ duplicated df →
      lines ≠ [] →
      (∀ line, line ∈ lines ↔
         ∃ r, r ∈ df ∧ has_conflict members r ∧ line = conflict_line r) →
      first_failing_check members df (false, ExistingEntries lines)
  | Check_passed :
      Forall complete df →
      ¬ duplicated df →
      Forall (λ r, ¬ has_conflict members r) df →
      first_failing_check members df (true, ValidationOk).

(** ** Commit *)

(** The ledger holds an entry for a member, year and month. *)
Definition recorded (members : Members) (member_id year month : string) : Prop :=
  ∃ m, get_member members member_id = Some m
       ∧ is_Some (contributions_of m year !! month).

(** The directory after a step of the commit: names resolve as before and
    no entry is lost. *)
Definition grows (ms ms' : Members) : Prop :=
  (∀ n, find_member_id ms' n = find_member_id ms n)
  ∧ (∀ member_id year month,
       recorded ms member_id year month → recorded ms' member_id year month).

(** * Scenarios *)

(** The directory of the end-to-end scenario: one active member without
    any entry. *)
Definition jane_doe : Member :=
  {| name := "Jane Doe"; phone := None; email := None;
     mitgliedsform := Some "Aktiv"; einfuehrungskurs := Some false;
     contributions := Some {[ "2025" := ∅ ]} |}.

(** The two stores before the first import. *)
Definition ledger0 : Store :=
  {| member_db := [("M001", jane_doe)]; categories := [] |}.

(** A reviewed transaction. *)
Definition txn (i : nat) (y m d : nat) (details : string) (amount : Q)
    (purpose member month_label reference : string) : Row :=
  {| index := i;
     Datum := Some {| ts_year := y; ts_month := m; ts_day := d |};
     Details := CStr details; Amount := Some amount;
     Zahlungszweck := CStr purpose; Mitglied := CStr member;
     Monat := CStr month_label; Bemerkungen := CStr "";
     ZKB_Referenz := CStr reference |}.

(** An entry ticked by hand in the member table. *)
Definition manual_entry (amount : Q) : Contribution :=
  {| c_amount := Some amount; c_date := None; c_transaction_id := None;
     c_source := None; c_purpose := None; c_details := None;
     c_month_name := None; c_zkb_reference := None |}.

(** A dated row of August 2025, for the boundary days 7 and 8. *)
Definition august_row (i day : nat) (monat : string) : Row :=
  {| index := i;
     Datum := Some {| ts_year := 2025; ts_month := 8; ts_day := day |};
     Details := CStr "Gutschrift Jane Doe"; Amount := Some 50%Q;
     Zahlungszweck := CStr "Mitgliederbeitrag"; Mitglied := CStr "";
     Monat := CStr monat; Bemerkungen := CStr ""; ZKB_Referenz := CStr "" |}.

(** A row of a statement. *)
Definition raw_row (datum details credit : cell) : RawRow :=
  {| raw_Datum := datum; raw_Details := details;
     raw_Gutschrift_CHF := credit; raw_Zahlungszweck := CStr "Monatsbeitrag";
     raw_ZKB_Referenz := CStr "SL250829579C9948" |}.

(** A statement with a credit, a debit row without credit amount, a
    negative amount and an amount that is no number, and what the parser
    returns for it. *)
Definition statement_amounts : list RawRow :=
  [raw_row (CStr "29.08.2025") (CStr "Test Member 1, Test Address") (CStr "50.00");
   raw_row (CStr "29.08.2025") (CStr "Miete") CNaN;
   raw_row (CStr "28.08.2025") (CStr "Storno") (CStr "-25.00");
   raw_row (CStr "27.08.2025") (CStr "Test Member 2") (CStr "fifty")].

Definition parsed_amounts : list Row :=
  [{| index := 0;
      Datum := Some {| ts_year := 2025; ts_month := 8; ts_day := 29 |};
      Details := CStr "Test Member 1, Test Address"; Amount := Some 50%Q;
      Zahlungszweck := CStr "Mitgliederbeitrag"; Mitglied := CStr "";
      Monat := CStr "August"; Bemerkungen := CStr "Monatsbeitrag";
      ZKB_Referenz := CStr "SL250829579C9948" |}].

(** A credit whose date is written year-month-day, and what the parser
    returns for it. *)
Definition statement_iso_date : list RawRow :=
  [raw_row (CStr "2025-08-29") (CStr "Test Member 1, Test Address") (CStr "50.00")].

Definition parsed_iso_date : list Row :=
  [{| index := 0; Datum := None;
      Details := CStr "Test Member 1, Test Address"; Amount := Some 50%Q;
      Zahlungszweck := CStr "Mitgliederbeitrag"; Mitglied := CStr "";
      Monat := CStr ""; Bemerkungen := CStr "Monatsbeitrag";
      ZKB_Referenz := CStr "SL250829579C9948" |}].

(** A payment of May 2024, booked for May. *)
Definition batch_2024 : list Row :=
  [txn 0 2024 5 10 "ACME Corp Payment, Jane Doe" 50
     "Mitgliederbeitrag" "Jane Doe" "Mai" "SL240510579C9948"].

(** A directory in which Jane Doe has paid May 2025. *)
Definition ledger_may : Members :=
  [("M001",
    put_contribution "2025" "05" (manual_entry 50) jane_doe)].

(** A batch of a stranger and of a month label that is none of the
    twelve. *)
Definition batch_unresolved : list Row :=
  [txn 0 2025 5 12 "Gutschrift John Roe" 50
     "Mitgliederbeitrag" "John Roe" "Mai" "SL1";
   txn 1 2025 5 13 "Gutschrift Jane Doe" 50
     "Mitgliederbeitrag" "Jane Doe" "May" "SL2"].

(** A payment of May 2025 labelled in English. *)
Definition batch_may_label : list Row :=
  [txn 0 2025 5 13 "Gutschrift Jane Doe" 50
     "Mitgliederbeitrag" "Jane Doe" "May" "SL250513579C9948"].

(** Two payments of one member in one batch: the course fee in January and
    the membership fee in February. *)
Definition batch_course_then_fee : list Row :=
  [txn 0 2025 1 15 "Kurs Jane Doe" 50
     "Einf√ºhrungskurs" "Jane Doe" "Januar" "SL250115579B1869";
   txn 1 2025 2 14 "ACME Corp Payment, Jane Doe" 50
     "Mitgliederbeitrag" "Jane Doe" "Februar" "SL250214579C9948"].

(** Two membership fees of one member with different statement texts. *)
Definition batch_two_details : list Row :=
  [txn 0 2025 1 15 "Dauerauftrag J. Doe" 50
     "Mitgliederbeitrag" "Jane Doe" "Januar" "SL250115579B1869";
   txn 1 2025 2 14 "ACME Corp Payment, Jane Doe" 50
     "Mitgliederbeitrag" "Jane Doe" "Februar" "SL250214579C9948"].

(** Three rows that miss the purpose, the member and the month, one
    each. *)
Definition batch_gaps : list Row :=
  [txn 0 2025 5 12 "Gutschrift Jane Doe" 50 "" "Jane Doe" "Mai" "SL1";
   txn 1 2025 5 13 "Gutschrift Jane Doe" 50 "Mitgliederbeitrag" "" "Juni" "SL2";
   txn 2 2025 5 14 "Gutschrift Jane Doe" 50 "Mitgliederbeitrag" "Jane Doe" "" "SL3"].

(** Dated rows of 2025 before the month defaults, and the three rows of
    days 7 and 8 of August and of 15 March. *)
Definition dated_row (i month day : nat) : Row :=
  {| index := i;
     Datum := Some {| ts_year := 2025; ts_month := month; ts_day := day |};
     Details := CStr "Gutschrift Jane Doe"; Amount := Some 50%Q;
     Zahlungszweck := CStr "Mitgliederbeitrag"; Mitglied := CStr "";
     Monat := CStr ""; Bemerkungen := CStr ""; ZKB_Referenz := CStr "" |}.

Definition batch_boundary : list Row :=
  [dated_row 0 8 7; dated_row 1 8 8; dated_row 2 3 15].

(** A batch of a payment for May that conflicts with [ledger_may], of a
    stranger, and of a label that is none of the twelve. *)
Definition batch_mixed : list Row :=
  [txn 0 2025 5 11 "Gutschrift Jane Doe" 50
     "Mitgliederbeitrag" "Jane Doe" "Mai" "SL0";
   txn 1 2025 5 12 "Gutschrift John Roe" 50
     "Mitgliederbeitrag" "John Roe" "Mai" "SL1";
   txn 2 2025 5 13 "Gutschrift Jane Doe" 50
     "Mitgliederbeitrag" "Jane Doe" "May" "SL2"].

(** Jane Doe with January to March 2026 paid. *)
Definition jane_doe_2026 : Member :=
  put_contribution "2026" "03" (manual_entry 50)
    (put_contribution "2026" "02" (manual_entry 50)
       (put_contribution "2026" "01" (manual_entry 50) jane_doe)).

(** * Further vocabulary *)

(** A member record after a commit is the same person: name, contact and
    class are as before, and a course flag that was set is still set. *)
Definition same_person (m m' : Member) : Prop :=
  name m' = name m ∧ phone m' = phone m ∧ email m' = email m
  ∧ mitgliedsform m' = mitgliedsform m
  ∧ (einfuehrungskurs m = Some true → einfuehrungskurs m' = Some true).

(** The same members under the same ids, in the same order. *)
Definition same_directory (ms ms' : Members) : Prop :=
  Forall2 (λ im im', im'.1 = im.1 ∧ same_person im.2 im'.2) ms ms'.

(** The entry of a member for a year and a month, if any. *)
Definition entry_at (members : Members) (member_id year month : string)
    : option Contribution :=
  get_member members member_id ≫= λ m, contributions_of m year !! month.

(** A row of a batch is written for a member under a year and a month: its
    member cell names the member and its period is that year and month. *)
Definition targets (members : Members) (r : Row)
    (member_id year month : string) : Prop :=
  ∃ member_name d,
    Mitglied r = CStr member_name
    ∧ find_member_id members member_name = Some member_id
    ∧ Datum r = Some d ∧ period_of r d = (year, month).

(** * Further scenarios *)

(** A statement with two credits around a debit, and what the parser
    returns for it with an empty mapping store. *)
Definition statement_two_credits : list RawRow :=
  [raw_row (CStr "29.08.2025") (CStr "Test Member 1, Test Address") (CStr "50.00");
   raw_row (CStr "29.08.2025") (CStr "Miete") CNaN;
   raw_row (CStr "25.08.2025") (CStr "Test Member 3, Test Address") (CStr "25.00")].

Definition parsed_credit (i day : nat) (details : string) (amount : Q) : Row :=
  {| index := i;
     Datum := Some {| ts_year := 2025; ts_month := 8; ts_day := day |};
     Details := CStr details; Amount := Some amount;
     Zahlungszweck := CStr "Mitgliederbeitrag"; Mitglied := CStr "";
     Monat := CStr "August"; Bemerkungen := CStr "Monatsbeitrag";
     ZKB_Referenz := CStr "SL250829579C9948" |}.

Definition parsed_two_credits : list Row :=
  [parsed_credit 0 29 "Test Member 1, Test Address" 50;
   parsed_credit 2 25 "Test Member 3, Test Address" 25].

(** A reviewed row without a member, and a mapping store whose second and
    third keys both occur in the row's details. *)
Definition unassigned_row : Row :=
  txn 0 2025 8 29 "ACME Corp Payment, Jane Doe" 50
    "Mitgliederbeitrag" "" "August" "SL250829579C9948".

Definition mappings_three : list (string * string) :=
  [("Dauerauftrag J. Doe", "Jane Doe"); ("ACME Corp", "Jane Doe");
   ("Jane Doe", "John Roe")].

(** A payment of a stranger. *)
Definition batch_stranger : list Row :=
  [txn 0 2025 5 12 "Gutschrift John Roe" 50
     "Mitgliederbeitrag" "John Roe" "Mai" "SL250512579C9948"].

(** An entry written by the importer for a membership fee of 50.0. *)
Definition imported_entry (date details month_name reference : string)
    : Contribution :=
  {| c_amount := Some 50%Q; c_date := Some date;
     c_transaction_id := Some reference; c_source := Some "csv_import";
     c_purpose := Some "Mitgliederbeitrag"; c_details := Some details;
     c_month_name := Some month_name; c_zkb_reference := Some reference |}.

(** Jane Doe and the two stores after the commit of [batch_two_details] on
    [ledger0]. *)
Definition jane_doe_two_details : Member :=
  put_contribution "2025" "02"
    (imported_entry "2025-02-14" "ACME Corp Payment, Jane Doe" "Februar"
       "SL250214579C9948")
    (put_contribution "2025" "01"
       (imported_entry "2025-01-15" "Dauerauftrag J. Doe" "Januar"
          "SL250115579B1869")
       jane_doe).

Definition ledger_two_details : Store :=
  {| member_db := [("M001", jane_doe_two_details)];
     categories := [("ACME Corp Payment, Jane Doe", "Jane Doe")] |}.

(** A row of the member table with the given months ticked. *)
Definition table_row (member form : string) (course : bool)
    (ticked : list string) : MemberRow :=
  {| mr_Mitglied := CStr member; mr_Mitgliedsform := form;
     mr_Einfuehrungskurs := course;
     mr_months :=
       month_cells
         (λ month, bool_decide (month ∈ ticked)) |}.

(** * Properties *)

(** ** Strings and tables *)

Example strip_spaces : PyStr.strip "  Jane Doe " = "Jane Doe".
Proof. reflexivity. Qed.

Example strip_no_break_space :
  let nbsp := String (Ascii.ascii_of_nat 194) (String (Ascii.ascii_of_nat 160) "") in
  let tab := String (Ascii.ascii_of_nat 9) "" in
  PyStr.strip (nbsp +:+ "Mai" +:+ tab) = "Mai".
Proof. reflexivity. Qed.

Lemma month_to_num_None (s : string) :
  month_to_num !! s = None ↔ s ∉ month_labels.
Proof. unfold month_to_num. by rewrite <- not_elem_of_list_to_map. Qed.

Lemma month_to_num_nonempty (s num : string) :
  month_to_num !! s = Some num → num ≠ "".
Proof.
  unfold month_to_num. intros H%elem_of_list_to_map_2.
  repeat (apply elem_of_cons in H as [H|H]; [by simplify_eq|]).
  by apply elem_of_nil in H.
Qed.

Lemma month_names_valid (m : nat) :
  (1 ≤ m ≤ 12)%nat → is_Some (month_names !! m).
Proof.
  intros [H1 H2].
  do 13 (destruct m as [|m]; [first [lia | by eexists]|]). lia.
Qed.

(** ** Month defaults *)

Lemma month_default_fields (r r' : Row) :
  month_default r = Some r' →
  index r' = index r ∧ Datum r' = Datum r ∧ Details r' = Details r
  ∧ Amount r' = Amount r ∧ Zahlungszweck r' = Zahlungszweck r
  ∧ Mitglied r' = Mitglied r ∧ Bemerkungen r' = Bemerkungen r
  ∧ ZKB_Referenz r' = ZKB_Referenz r.
Proof.
  unfold month_default. destruct (Datum r) as [d|] eqn:Hd.
  - case_match; intros; simplify_option_eq; by rewrite ?Hd.
  - intros; simplify_eq. by rewrite Hd.
Qed.

Lemma month_default_dated (r : Row) (d : Timestamp) :
  Datum r = Some d → (1 ≤ ts_month d ≤ 12)%nat →
  ∃ r', month_default r = Some r'
        ∧ ((ts_day d ≤ 7)%nat → Monat r' = CStr "")
        ∧ ((7 < ts_day d)%nat →
           ∃ month_name, month_names !! ts_month d = Some month_name
                         ∧ Monat r' = CStr month_name).
Proof.
  intros Hd Hm. unfold month_default. rewrite Hd.
  destruct (month_names_valid _ Hm) as [nm Hnm].
  destruct (ts_day d <=? 7)%nat eqn:Hday.
  - apply Nat.leb_le in Hday. eexists; split; [done|]. split; [done|lia].
  - apply Nat.leb_gt in Hday. rewrite Hnm. simpl.
    eexists; split; [done|]. split; [lia|]. intros _. by exists nm.
Qed.

Lemma month_default_undated (r : Row) :
  Datum r = None → month_default r = Some r.
Proof. unfold month_default. by intros ->. Qed.

(** The names of the months are those of the member table. *)
Lemma calendar_month_name_MONTH_NAMES (m : nat) :
  (1 ≤ m ≤ 12)%nat → MONTH_NAMES !! two_digits m = calendar_month_name m.
Proof.
  intros [Hlow Hhigh]. destruct m as [|m]; [lia|].
  do 12 (destruct m as [|m]; [reflexivity|]). lia.
Qed.



Example month_default_day_7_and_8 :
  _add_smart_month_defaults [august_row 0 7 "x"; august_row 1 8 "x"]
  = Some [august_row 0 7 ""; august_row 1 8 "August"].
Proof. reflexivity. Qed.

(** Days 7 and 8 of August, and 15 March, whose month becomes the
    mis-encoded label and not März. *)
Example month_default_march :
  _add_smart_month_defaults batch_boundary
  = Some [dated_row 0 8 7; set_Monat (CStr "August") (dated_row 1 8 8);
          set_Monat (CStr "M√§rz") (dated_row 2 3 15)]
  ∧ calendar_month_name 3 = Some "März"
  ∧ "M√§rz" ≠ "März"
  ∧ MONTH_NAMES !! "03" = Some "März".
Proof. split; [reflexivity|]. split; [done|]. split; [done|reflexivity]. Qed.


(** ** Member directory *)

Lemma find_member_id_None (members : Members) (n : string) :
  find_member_id members n = None ↔ Forall (λ im, name im.2 ≠ n) members.
Proof.
  unfold find_member_id. induction members as [|[mid m] members IH]; simpl.
  - split; [constructor|done].
  - case_bool_decide as Hn; simpl.
    + split; [done|]. intros H. by inversion H.
    + rewrite Forall_cons. simpl. tauto.
Qed.

Lemma find_member_id_Some (members : Members) (n member_id : string) :
  find_member_id members n = Some member_id →
  ∃ m, (member_id, m) ∈ members ∧ name m = n.
Proof.
  unfold find_member_id.
  destruct (List.find _ members) as [[mid m]|] eqn:Hf; [|done].
  intros [= <-]. apply find_some in Hf as [Hin Hn].
  exists m. split; [by apply list_elem_of_In|]. by apply bool_decide_eq_true in Hn.
Qed.

Lemma get_member_is_Some (members : Members) (member_id : string) (m : Member) :
  (member_id, m) ∈ members → is_Some (get_member members member_id).
Proof.
  unfold get_member. intros Hin.
  destruct (List.find _ members) as [x|] eqn:Hf; [by eexists|].
  apply list_elem_of_In in Hin.
  pose proof (find_none _ _ Hf _ Hin) as Hb. simpl in Hb.
  by apply bool_decide_eq_false in Hb.
Qed.

(** ** Ledger conflicts *)

Lemma existing_entry_Some (members : Members) (r : Row) (line : string) :
  existing_entry members r = Some line ↔
  (∃ member_id member_data month_num,
     find_member_id members (PyStr.strip (py_str (Mitglied r))) = Some member_id
     ∧ get_member members member_id = Some member_data
     ∧ month_to_num !! PyStr.strip (py_str (Monat r)) = Some month_num
     ∧ is_Some (contributions_of member_data "2025" !! month_num))
  ∧ line = conflict_line r.
Proof.
  unfold existing_entry, conflict_line. split.
  - intros H.
    destruct (find_member_id _ _) as [mid|] eqn:Hmid; simpl in H; [|done].
    destruct (month_to_num !! _) as [num|] eqn:Hnum; simpl in H; [|done].
    case_bool_decide; [done|].
    destruct (get_member _ _) as [md|] eqn:Hmd; simpl in H; [|done].
    case_bool_decide as Hc; [|done]. injection H as <-.
    split; [|done]. by exists mid, md, num.
  - intros [(mid & md & num & Hmid & Hmd & Hnum & Hc) ->].
    rewrite Hmid. simpl. rewrite Hnum. simpl.
    rewrite bool_decide_false by by eapply month_to_num_nonempty.
    rewrite Hmd. simpl. by rewrite bool_decide_true.
Qed.

(** For a row dated in 2025 the test of the code is the conflict with the
    ledger under the year of the row's date. *)
Lemma existing_entry_dated_2025 (members : Members) (r : Row) (d : Timestamp)
    (line : string) :
  Datum r = Some d → ts_year d = 2025%nat →
  existing_entry members r = Some line ↔
  has_conflict members r ∧ line = conflict_line r.
Proof.
  intros Hd Hyear. rewrite existing_entry_Some. unfold has_conflict.
  assert (pretty (ts_year d) = "2025") as Hp by (by rewrite Hyear).
  split.
  - intros [(mid & md & num & Hmid & Hmd & Hnum & Hc) ->]. split; [|done].
    exists mid, md, num, d. by rewrite Hp.
  - intros [(mid & md & num & d' & Hmid & Hmd & Hnum & Hd' & Hc) ->].
    split; [|done]. assert (d' = d) as -> by congruence.
    rewrite Hp in Hc. by exists mid, md, num.
Qed.

Lemma check_existing_entries_elem (members : Members) (df : list Row)
    (line : string) :
  line ∈ _check_existing_entries members df ↔
  ∃ r, r ∈ df ∧ existing_entry members r = Some line.
Proof. unfold _check_existing_entries. by rewrite list_elem_of_omap. Qed.

Lemma check_existing_entries_nil (members : Members) (df : list Row) :
  _check_existing_entries members df = [] ↔
  Forall (λ r, existing_entry members r = None) df.
Proof.
  unfold _check_existing_entries. induction df as [|r df IH]; simpl.
  - split; [constructor|done].
  - rewrite Forall_cons, <- IH.
    destruct (existing_entry members r); simpl;
      [split; [done|by intros [? _]] | tauto].
Qed.

Lemma check_existing_entries_app (members : Members) (df1 df2 : list Row) :
  _check_existing_entries members (df1 ++ df2)
  = _check_existing_entries members df1 ++ _check_existing_entries members df2.
Proof. unfold _check_existing_entries. apply omap_app. Qed.

(** C9. A row whose trimmed member cell names nobody of the directory, or
    whose trimmed month label is none of the twelve, is skipped by the
    conflict check: it yields no conflict line, and wherever it stands in a
    batch, between rows that may conflict, the check answers as for the
    batch without it, whatever the ledger holds.  A batch of such rows only
    passes the check. *)
Theorem check_existing_entries_skips_unresolved (members : Members)
    (df1 df2 df : list Row) (r : Row) :
  Forall (λ im, name im.2 ≠ PyStr.strip (py_str (Mitglied r))) members
  ∨ PyStr.strip (py_str (Monat r)) ∉ month_labels →
  existing_entry members r = None
  ∧ _check_existing_entries members (df1 ++ r :: df2)
    = _check_existing_entries members (df1 ++ df2)
  ∧ ((∀ r', r' ∈ df →
        Forall (λ im, name im.2 ≠ PyStr.strip (py_str (Mitglied r'))) members
        ∨ PyStr.strip (py_str (Monat r')) ∉ month_labels) →
     _check_existing_entries members df = []).
Proof.
  assert (Hskip : ∀ r',
    Forall (λ im, name im.2 ≠ PyStr.strip (py_str (Mitglied r'))) members
    ∨ PyStr.strip (py_str (Monat r')) ∉ month_labels →
    existing_entry members r' = None).
  { intros r' Hr'. destruct (existing_entry members r') as [line|] eqn:He; [|done].
    apply existing_entry_Some in He as [(mid & md & num & Hmid & _ & Hnum & _) _].
    destruct Hr' as [Hname|Hlabel].
    - apply find_member_id_None in Hname. congruence.
    - apply month_to_num_None in Hlabel. congruence. }
  intros Hr. split_and!.
  - by apply Hskip.
  - rewrite !check_existing_entries_app. f_equal.
    unfold _check_existing_entries. simpl. by rewrite (Hskip r Hr).
  - intros Hall. apply check_existing_entries_nil, Forall_forall.
    intros r' Hr'. by apply Hskip, Hall.
Qed.

(** The stranger between a conflicting row and a row labelled May is
    skipped, and so is the row labelled May: the check answers with the
    conflict of the first row, as for that row alone. *)
Lemma check_existing_entries_skips_unresolved_witness :
  let stranger :=
    txn 1 2025 5 12 "Gutschrift John Roe" 50
      "Mitgliederbeitrag" "John Roe" "Mai" "SL1" in
  let paid :=
    txn 0 2025 5 11 "Gutschrift Jane Doe" 50
      "Mitgliederbeitrag" "Jane Doe" "Mai" "SL0" in
  let may :=
    txn 2 2025 5 13 "Gutschrift Jane Doe" 50
      "Mitgliederbeitrag" "Jane Doe" "May" "SL2" in
  existing_entry ledger_may stranger = None
  ∧ _check_existing_entries ledger_may ([paid] ++ stranger :: [may])
    = _check_existing_entries ledger_may ([paid] ++ [may])
  ∧ ((∀ r', r' ∈ batch_unresolved →
        Forall (λ im, name im.2 ≠ PyStr.strip (py_str (Mitglied r'))) ledger_may
        ∨ PyStr.strip (py_str (Monat r')) ∉ month_labels) →
     _check_existing_entries ledger_may batch_unresolved = []).
Proof.
  apply (check_existing_entries_skips_unresolved ledger_may
           [txn 0 2025 5 11 "Gutschrift Jane Doe" 50
              "Mitgliederbeitrag" "Jane Doe" "Mai" "SL0"]
           [txn 2 2025 5 13 "Gutschrift Jane Doe" 50
              "Mitgliederbeitrag" "Jane Doe" "May" "SL2"]
           batch_unresolved
           (txn 1 2025 5 12 "Gutschrift John Roe" 50
              "Mitgliederbeitrag" "John Roe" "Mai" "SL1")).
  left. repeat constructor. simpl. discriminate.
Defined.

(** The mixed batch reports the conflict of its first row only; the batch
    of unresolved rows reports none. *)
Example check_existing_entries_mixed :
  _check_existing_entries ledger_may batch_mixed
  = ["Jane Doe - Mai (Mitgliederbeitrag)"]
  ∧ _check_existing_entries ledger_may batch_unresolved = [].
Proof. split; by vm_compute. Qed.

(** A row of Jane Doe for May, with blanks around the name and the label,
    conflicts with the ledger in which she has paid May 2025. *)
Example check_existing_entries_may :
  _check_existing_entries ledger_may
    [txn 1 2025 5 13 "Gutschrift Jane Doe" 50
       "Mitgliederbeitrag" " Jane Doe" "Mai " "SL2"]
  = ["Jane Doe - Mai (Mitgliederbeitrag)"].
Proof. by vm_compute. Qed.

(** C1. The batch [batch_2024], dated 2024, passes validation against
    [ledger0], is committed under the year 2024, and passes validation again
    against the ledger that now holds it: the conflict check reads the
    entries of 2025 only, so the second commit is not rejected. *)
Theorem recommit_outside_2025_passes_validation (clock : nat → Z) :
  validate_import_data (member_db ledger0) batch_2024 = (true, ValidationOk)
  ∧ ∃ ledger1,
      transfer_to_member_database clock batch_2024 ledger0 = (true, ledger1)
      ∧ (∃ m, get_member (member_db ledger1) "M001" = Some m
              ∧ is_Some (contributions_of m "2024" !! "05"))
      ∧ validate_import_data (member_db ledger1) batch_2024 = (true, ValidationOk)
      ∧ (transfer_to_member_database clock batch_2024 ledger1).1 = true.
Proof.
  split; [by vm_compute|].
  eexists. split; [by vm_compute|].
  split; [|split; by vm_compute].
  eexists. split; [by vm_compute|]. vm_compute. by eexists.
Qed.

(** The end-to-end scenario: the same payment dated 2025 is rejected the
    second time. *)
Example recommit_2025_rejected (clock : nat → Z) :
  let batch :=
    [txn 0 2025 3 10 "ACME Corp Payment, Jane Doe" 50
       "Mitgliederbeitrag" "Jane Doe" "M√§rz" "SL250310579C9948"] in
  validate_import_data (member_db ledger0) batch = (true, ValidationOk)
  ∧ validate_import_data
      (member_db (transfer_to_member_database clock batch ledger0).2) batch
    = (false, ExistingEntries ["Jane Doe - M√§rz (Mitgliederbeitrag)"]).
Proof. split; by vm_compute. Qed.

(** ** Counting in lists *)

Section Counting.
Context {A : Type} `{EqDecision A}.
Implicit Types (l : list A) (x k : A).

Lemma filter_eq_nil (P : A → Prop) `{∀ x, Decision (P x)} l :
  filter P l = [] ↔ Forall (λ x, ¬ P x) l.
Proof.
  induction l as [|x l IH]; [by split; [constructor|]|].
  rewrite filter_cons, Forall_cons. destruct (decide (P x)); [|tauto].
  split; [done|]. by intros [? _].
Qed.

Lemma occurrences_pos k l : k ∈ l ↔ 0 < length (filter (λ x, x = k) l).
Proof.
  induction l as [|x l IH]; simpl.
  - rewrite elem_of_nil. simpl. lia.
  - rewrite elem_of_cons, filter_cons. destruct (decide (x = k)) as [->|Hne]; simpl.
    + split; [lia|auto].
    + rewrite IH. split; [intros [?|?]; [congruence|done]|auto].
Qed.

Lemma occurrences_pos_not k l :
  k ∉ l → length (filter (λ x, x = k) l) = 0.
Proof. rewrite occurrences_pos. lia. Qed.

Lemma NoDup_occurrences l :
  NoDup l ↔ ∀ k, k ∈ l → length (filter (λ x, x = k) l) ≤ 1.
Proof.
  induction l as [|x l IH].
  - split; [by intros _ k ?%elem_of_nil|constructor].
  - rewrite NoDup_cons, IH. split.
    + intros [Hx Hl] k Hk. rewrite filter_cons.
      destruct (decide (x = k)) as [->|Hne]; simpl.
      * apply occurrences_pos_not in Hx. lia.
      * apply elem_of_cons in Hk as [?|Hk]; [congruence|]. by apply Hl.
    + intros Hall. split.
      * intros Hx. specialize (Hall x (list_elem_of_here _ _)).
        rewrite filter_cons, decide_True in Hall by done. simpl in Hall.
        apply occurrences_pos in Hx. lia.
      * intros k Hk. specialize (Hall k (list_elem_of_further _ _ _ Hk)).
        rewrite filter_cons in Hall. destruct (decide (x = k)); simpl in Hall; lia.
Qed.

Lemma not_NoDup_lookup l :
  ¬ NoDup l → ∃ i j k, i ≠ j ∧ l !! i = Some k ∧ l !! j = Some k.
Proof.
  induction l as [|x l IH]; intros Hnd.
  - destruct Hnd. constructor.
  - destruct (decide (x ∈ l)) as [Hx|Hx].
    + apply list_elem_of_lookup_1 in Hx as [j Hj].
      exists 0, (S j), x. by split_and!.
    + destruct IH as (i & j & k & Hij & Hi & Hj).
      { intros Hl. apply Hnd. by constructor. }
      exists (S i), (S j), k. split_and!; [lia|done..].
Qed.

End Counting.

(** ** Validation order *)

Lemma missing_false (c : cell) : missing c = false ↔ filled c.
Proof.
  unfold missing, filled. destruct c as [s| |]; simpl.
  - rewrite bool_decide_eq_false. split; [by exists s|].
    by intros (s' & [= <-] & Hne).
  - split; [done|]. by intros (? & ? & _).
  - split; [done|]. by intros (? & ? & _).
Qed.

Lemma missing_true (c : cell) : missing c = true ↔ ¬ filled c.
Proof. rewrite <- missing_false. by destruct (missing c). Qed.

Lemma existsb_missing_false (f : Row → cell) (df : list Row) :
  existsb (λ r, missing (f r)) df = false ↔ Forall (λ r, filled (f r)) df.
Proof.
  induction df as [|r df IH]; simpl; [by split; [constructor|]|].
  rewrite orb_false_iff, Forall_cons, IH, missing_false. done.
Qed.

Lemma rows_where_missing (f : Row → cell) (df : list Row) (i : nat) :
  i ∈ rows_where (λ r, missing (f r)) df ↔
  ∃ r, r ∈ df ∧ index r = i ∧ ¬ filled (f r).
Proof.
  unfold rows_where. rewrite list_elem_of_fmap. split.
  - intros (r & -> & [Hm Hr]%list_elem_of_filter). exists r.
    split; [done|]. split; [done|]. apply missing_true. by apply Is_true_true.
  - intros (r & Hr & <- & Hm). exists r. split; [done|].
    apply list_elem_of_filter. split; [|done]. by apply Is_true_true, missing_true.
Qed.

Lemma rows_where_missing_nonempty (f : Row → cell) (df : list Row) :
  existsb (λ r, missing (f r)) df = true →
  rows_where (λ r, missing (f r)) df ≠ [].
Proof.
  intros (r & Hr & Hm)%existsb_exists Hnil.
  assert (index r ∈ rows_where (λ r, missing (f r)) df) as Hin.
  { apply rows_where_missing. exists r. rewrite list_elem_of_In.
    split; [done|]. split; [done|]. by apply missing_true. }
  rewrite Hnil in Hin. by apply elem_of_nil in Hin.
Qed.

Lemma complete_group_key (r : Row) :
  complete r → group_key r = Some (py_str (Mitglied r), py_str (Monat r), py_str (Zahlungszweck r)).
Proof.
  intros ((z & Hz & _) & (m & Hm & _) & (mo & Hmo & _)).
  unfold group_key. by rewrite Hz, Hm, Hmo.
Qed.

Lemma complete_same_group (r1 r2 : Row) :
  complete r1 → complete r2 →
  same_group r1 r2 ↔ group_key r1 = group_key r2.
Proof.
  intros ((z1 & Hz1 & _) & (m1 & Hm1 & _) & (mo1 & Hmo1 & _))
         ((z2 & Hz2 & _) & (m2 & Hm2 & _) & (mo2 & Hmo2 & _)).
  unfold same_group, group_key. rewrite Hz1, Hm1, Hmo1, Hz2, Hm2, Hmo2.
  split; [by intros ([= ->] & [= ->] & [= ->])|by intros [= -> -> ->]].
Qed.

Lemma omap_group_key_complete (df : list Row) :
  Forall complete df → Some <$> omap group_key df = group_key <$> df.
Proof.
  induction 1 as [|r df Hr _ IH]; [done|]. csimpl.
  rewrite (complete_group_key r Hr). csimpl. by rewrite IH.
Qed.

Lemma duplicated_NoDup (df : list Row) :
  Forall complete df → duplicated df ↔ ¬ NoDup (omap group_key df).
Proof.
  intros Hc.
  assert (Hlk : ∀ i k, omap group_key df !! i = Some k ↔
                       ∃ r, df !! i = Some r ∧ group_key r = Some k).
  { intros i k. pose proof (omap_group_key_complete df Hc) as Heq.
    apply (f_equal (λ l, l !! i)) in Heq. rewrite !list_lookup_fmap in Heq.
    destruct (omap group_key df !! i) as [k'|], (df !! i) as [r|];
      simplify_eq/=.
    - split; [intros [= ->]; eauto|]. intros (r0 & [= <-] & Hk). congruence.
    - split; [done|]. by intros (? & ? & _). }
  split.
  - intros (i & j & r1 & r2 & Hij & Hi & Hj & Hsame) Hnd.
    assert (complete r1 ∧ complete r2) as [Hc1 Hc2].
    { rewrite Forall_forall in Hc.
      split; apply Hc; by eapply list_elem_of_lookup_2. }
    apply complete_same_group in Hsame; [|done..].
    destruct (group_key r1) as [k|] eqn:Hk1;
      [|by rewrite complete_group_key in Hk1].
    apply Hij. eapply (proj1 (NoDup_alt _) Hnd _ _ k); apply Hlk; eauto.
  - intros (i & j & k & Hij & Hi & Hj)%not_NoDup_lookup.
    apply Hlk in Hi as (r1 & Hi & Hk1). apply Hlk in Hj as (r2 & Hj & Hk2).
    exists i, j, r1, r2. split_and!; [done..|].
    assert (complete r1 ∧ complete r2) as [Hc1 Hc2].
    { rewrite Forall_forall in Hc.
      split; apply Hc; by eapply list_elem_of_lookup_2. }
    apply complete_same_group; congruence.
Qed.

Lemma occurrences_group_key (df : list Row) (k : string * string * string) :
  length (filter (λ k', k' = k) (omap group_key df))
  = length (filter (λ r, group_key r = Some k) df).
Proof.
  induction df as [|r df IH]; [done|]. csimpl.
  rewrite (filter_cons (λ r, group_key r = Some k)).
  destruct (group_key r) as [k'|]; simpl.
  - rewrite filter_cons.
    destruct (decide (k' = k)) as [->|Hne].
    + rewrite decide_True by done. simpl. by rewrite IH.
    + rewrite decide_False by congruence. done.
  - exact IH.
Qed.

Lemma group_sizes_elem (df : list Row) (k : string * string * string) (n : nat) :
  (k, n) ∈ group_sizes df ↔
  k ∈ omap group_key df ∧ n = length (filter (λ r, group_key r = Some k) df).
Proof.
  unfold group_sizes. rewrite list_elem_of_fmap. split.
  - intros (k' & [= <- ->] & Hk). rewrite merge_sort_Permutation in Hk.
    rewrite elem_of_remove_dups in Hk. split; [done|apply occurrences_group_key].
  - intros [Hk ->]. exists k. rewrite occurrences_group_key. split; [done|].
    rewrite merge_sort_Permutation. by apply elem_of_remove_dups.
Qed.

Lemma duplicates_elem (df : list Row) (k : string * string * string) (n : nat) :
  (k, n) ∈ filter (λ ks, 1 < ks.2) (group_sizes df) ↔
  1 < n ∧ n = length (filter (λ r, group_key r = Some k) df).
Proof.
  rewrite list_elem_of_filter, group_sizes_elem. simpl. split.
  - tauto.
  - intros [Hn ->]. split_and!; [done| |done].
    apply occurrences_pos. rewrite occurrences_group_key. lia.
Qed.

Lemma duplicates_nil (df : list Row) :
  filter (λ ks, 1 < ks.2) (group_sizes df) = [] ↔ NoDup (omap group_key df).
Proof.
  rewrite filter_eq_nil, NoDup_occurrences, Forall_forall. split.
  - intros Hall k Hk.
    specialize (Hall (k, length (filter (λ r, group_key r = Some k) df))).
    rewrite occurrences_group_key. simpl in Hall.
    apply Nat.nlt_ge, Hall, group_sizes_elem. done.
  - intros Hall [k n] [Hk ->]%group_sizes_elem. simpl.
    specialize (Hall k Hk). rewrite occurrences_group_key in Hall. lia.
Qed.

Lemma check_existing_entries_dated_elem (members : Members) (df : list Row)
    (line : string) :
  dated_2025 df →
  line ∈ _check_existing_entries members df ↔
  ∃ r, r ∈ df ∧ has_conflict members r ∧ line = conflict_line r.
Proof.
  intros Hdated. rewrite check_existing_entries_elem.
  unfold dated_2025 in Hdated. rewrite Forall_forall in Hdated.
  split; intros (r & Hr & H); exists r; (split; [done|]);
    destruct (Hdated r Hr) as (d & Hd & Hyear);
    by apply (existing_entry_dated_2025 members r d line Hd Hyear).
Qed.

Lemma check_existing_entries_dated_nil (members : Members) (df : list Row) :
  dated_2025 df →
  _check_existing_entries members df = [] ↔
  Forall (λ r, ¬ has_conflict members r) df.
Proof.
  intros Hdated. rewrite check_existing_entries_nil, !Forall_forall.
  unfold dated_2025 in Hdated. rewrite Forall_forall in Hdated.
  split; intros Hall r Hr; destruct (Hdated r Hr) as (d & Hd & Hyear).
  - intros Hc.
    assert (existing_entry members r = Some (conflict_line r)) as Hs
      by by apply (existing_entry_dated_2025 members r d _ Hd Hyear).
    rewrite (Hall r Hr) in Hs. done.
  - destruct (existing_entry members r) as [line|] eqn:He; [|done].
    apply (existing_entry_dated_2025 members r d line Hd Hyear) in He as [Hc _].
    by destruct (Hall r Hr).
Qed.

(** C7 (amended). Validation answers with the first failing check, in the
    order purpose filled, member filled, month filled, no duplicate within
    the batch, no conflict with the ledger, and with that check's offending
    rows only: for a missing field, the rows that miss that field.  It
    answers [true] exactly when all checks pass.  The conflict with the
    ledger is the one under the year of the row's date for a batch dated in
    2025; a batch that reaches the conflict check with other dates is left
    out. *)
Theorem validate_import_data_first_failure (members : Members) (df : list Row) :
  (Forall complete df → ¬ duplicated df → dated_2025 df) →
  first_failing_check members df (validate_import_data members df)
  ∧ ((validate_import_data members df).1 = true ↔
     Forall complete df ∧ ¬ duplicated df
     ∧ Forall (λ r, ¬ has_conflict members r) df).
Proof.
  intros Hyear. unfold validate_import_data.
  destruct (existsb (λ r, missing (Zahlungszweck r)) df) eqn:Hz.
  { split.
    - apply (Check_field _ _ Col_Zahlungszweck); [done| |].
      + by apply rows_where_missing_nonempty.
      + apply (rows_where_missing Zahlungszweck).
    - split; [done|]. intros (Hc & _).
      apply not_false_iff_true in Hz. destruct Hz.
      apply existsb_missing_false. eapply Forall_impl; [exact Hc|]. by intros r (? & _). }
  apply existsb_missing_false in Hz.
  destruct (existsb (λ r, missing (Mitglied r)) df) eqn:Hm.
  { split.
    - apply (Check_field _ _ Col_Mitglied); [done| |].
      + by apply rows_where_missing_nonempty.
      + apply (rows_where_missing Mitglied).
    - split; [done|]. intros (Hc & _).
      apply not_false_iff_true in Hm. destruct Hm.
      apply existsb_missing_false. eapply Forall_impl; [exact Hc|]. by intros r (_ & ? & _). }
  apply existsb_missing_false in Hm.
  destruct (existsb (λ r, missing (Monat r)) df) eqn:Hmo.
  { split.
    - apply (Check_field _ _ Col_Monat); [done| |].
      + by apply rows_where_missing_nonempty.
      + apply (rows_where_missing Monat).
    - split; [done|]. intros (Hc & _).
      apply not_false_iff_true in Hmo. destruct Hmo.
      apply existsb_missing_false. eapply Forall_impl; [exact Hc|]. by intros r (_ & _ & ?). }
  apply existsb_missing_false in Hmo.
  assert (Hc : Forall complete df).
  { rewrite Forall_forall in Hz, Hm, Hmo. apply Forall_forall. intros r Hr.
    split_and!; auto. }
  simpl. case_bool_decide as Hdup; simpl.
  - apply duplicates_nil in Hdup.
    assert (Hnodup : ¬ duplicated df).
    { intros Hd. by apply (duplicated_NoDup df Hc) in Hd. }
    specialize (Hyear Hc Hnodup).
    case_bool_decide as Hconf; simpl.
    + apply (check_existing_entries_dated_nil members df Hyear) in Hconf.
      split; [by constructor|done].
    + split.
      * apply Check_conflict; [done..|].
        intros line. by apply check_existing_entries_dated_elem.
      * split; [done|]. intros (_ & _ & Hno).
        by apply (check_existing_entries_dated_nil members df Hyear) in Hno.
  - assert (Hd : duplicated df).
    { apply (duplicated_NoDup df Hc). by rewrite <- duplicates_nil. }
    split.
    + apply Check_duplication; [done..|]. apply duplicates_elem.
    + split; [done|]. by intros (_ & ? & _).
Qed.

(** The course fee and the membership fee of Jane Doe, both of 2025, pass
    all checks against [ledger0]. *)
Lemma validate_import_data_first_failure_witness :
  first_failing_check (member_db ledger0) batch_course_then_fee
    (validate_import_data (member_db ledger0) batch_course_then_fee)
  ∧ ((validate_import_data (member_db ledger0) batch_course_then_fee).1 = true ↔
     Forall complete batch_course_then_fee ∧ ¬ duplicated batch_course_then_fee
     ∧ Forall (λ r, ¬ has_conflict (member_db ledger0) r) batch_course_then_fee).
Proof.
  apply (validate_import_data_first_failure (member_db ledger0)
           batch_course_then_fee).
  intros _ _. repeat constructor; eexists; split; reflexivity.
Defined.

(** C7 as stated fails on [batch_gaps], whose three rows miss the purpose,
    the member and the month, one each: validation reports row 0, which
    misses the purpose, and not the rows 1 and 2, which are incomplete as
    well. *)
Lemma validate_import_data_reports_first_column_only :
  validate_import_data (member_db ledger0) batch_gaps
  = (false, MissingField Col_Zahlungszweck [0])
  ∧ ¬ validation_outcome (member_db ledger0) batch_gaps
        (validate_import_data (member_db ledger0) batch_gaps).
Proof.
  assert (Heq : validate_import_data (member_db ledger0) batch_gaps
                = (false, MissingField Col_Zahlungszweck [0])) by by vm_compute.
  split; [exact Heq|]. rewrite Heq. intros Hout.
  inversion Hout as [col rows Hne Hrows| | |]; subst.
  assert (1 ∈ [0]) as Hin.
  { apply Hrows. eexists. split; [right; left|]. split; [reflexivity|].
    intros (_ & (n & Hn & Hnn) & _). by injection Hn as <-. }
  apply list_elem_of_singleton in Hin. discriminate.
Qed.

(** ** StatementParser *)

Lemma filter_fmap {A B : Type} (f : A → B) (P : B → Prop)
    `{∀ y, Decision (P y)} (l : list A) :
  filter P (f <$> l) = f <$> filter (λ x, P (f x)) l.
Proof.
  induction l as [|x l IH]; [done|]. csimpl.
  rewrite !filter_cons. destruct (decide (P (f x))); csimpl; by rewrite IH.
Qed.

Lemma amount_ok_positive (r : Row) :
  amount_ok r = true ↔ ∃ a, Amount r = Some a ∧ (0 < a)%Q.
Proof.
  unfold amount_ok. destruct (Amount r) as [a|].
  - rewrite negb_true_iff. split.
    + intros Hle. exists a. split; [done|]. apply Qnot_le_lt.
      rewrite <- Qle_bool_iff. by rewrite Hle.
    + intros (? & [= <-] & Hlt). apply Qlt_not_le in Hlt.
      rewrite <- Qle_bool_iff in Hlt. by destruct (Qle_bool a 0).
  - split; [done|]. by intros (? & ? & _).
Qed.

Lemma is_credit_filled (raw : RawRow) :
  is_credit raw = true ↔ filled (raw_Gutschrift_CHF raw).
Proof.
  rewrite <- missing_false. unfold is_credit, missing.
  by destruct (isna _), (eq_empty _).
Qed.

Section Parser.

Variable lower : string → string.
Variable to_numeric : cell → option Q.
Variable to_datetime : cell → option Timestamp.
Variable mappings : list (string * string).

Local Abbreviation parse := (parse_csv_file lower to_numeric to_datetime mappings).
Local Abbreviation raw_to_row := (processed_row to_numeric to_datetime).
Local Abbreviation assign := (auto_assign lower mappings).
Local Abbreviation is_kept := (kept to_numeric to_datetime).

Lemma auto_assign_fields (r : Row) :
  index (assign r) = index r ∧ Datum (assign r) = Datum r
  ∧ Amount (assign r) = Amount r ∧ Monat (assign r) = Monat r
  ∧ Details (assign r) = Details r
  ∧ Zahlungszweck (assign r) = Zahlungszweck r.
Proof.
  unfold auto_assign.
  destruct (_ && _); [done|]. by destruct (first_mapping _ _ _).
Qed.

(** The parser's output is, row by row and in table order, the kept raw
    rows with the month default and the member default applied. *)
Lemma parse_csv_file_rows (df : list RawRow) (out : list Row) :
  parse df = Some out →
  Forall2 (λ ir r, ∃ r1, month_default (raw_to_row ir.1 ir.2) = Some r1
                         ∧ r = assign r1)
    (filter is_kept (imap pair df)) out.
Proof.
  unfold parse_csv_file. case_bool_decide; [done|].
  intros Hout. apply bind_Some in Hout as (df1 & Hdf1 & [= <-]).
  apply mapM_Some in Hdf1. unfold auto_assign_members.
  apply Forall2_fmap_r.
  rewrite (filter_fmap (λ ir, raw_to_row ir.1 ir.2)) in Hdf1.
  apply Forall2_fmap_l in Hdf1. rewrite list_filter_filter in Hdf1.
  erewrite list_filter_iff; [|intros ir; reflexivity].
  assert (Heq : filter is_kept (imap pair df)
                = filter (λ ir, Is_true (amount_ok (raw_to_row ir.1 ir.2))
                                ∧ Is_true (is_credit ir.2)) (imap pair df)).
  { apply list_filter_iff. intros ir. unfold kept.
    rewrite !Is_true_true. tauto. }
  rewrite Heq. eapply Forall2_impl; [exact Hdf1|].
  intros ir r1 Hr1. simpl in Hr1. by exists r1.
Qed.

Lemma kept_lookup (df : list RawRow) (ir : nat * RawRow) :
  ir ∈ filter is_kept (imap pair df) ↔ df !! ir.1 = Some ir.2 ∧ is_kept ir.
Proof.
  rewrite list_elem_of_filter, elem_of_lookup_imap. destruct ir as [i raw]. simpl.
  split.
  - intros [Hk (j & x & [= <- <-] & Hj)]. done.
  - intros [Hi Hk]. split; [done|]. by exists i, raw.
Qed.

(** Every output row comes from a kept raw row, which it names by its
    index label. *)
Lemma parse_csv_file_origin (df : list RawRow) (out : list Row) (r : Row) :
  parse df = Some out → r ∈ out →
  ∃ raw r1, df !! index r = Some raw ∧ is_kept (index r, raw)
            ∧ month_default (raw_to_row (index r) raw) = Some r1
            ∧ r = assign r1.
Proof.
  intros Hrows%parse_csv_file_rows [j Hj]%list_elem_of_lookup_1.
  destruct (Forall2_lookup_r _ _ _ _ _ Hrows Hj)
    as ([i raw] & Hir & r1 & Hr1 & ->).
  apply list_elem_of_lookup_2, kept_lookup in Hir as [Hi Hk]. simpl in *.
  destruct (auto_assign_fields r1) as (-> & _).
  destruct (month_default_fields _ _ Hr1) as (-> & _). simpl.
  by exists raw, r1.
Qed.

(** Every kept raw row has its output row. *)
Lemma parse_csv_file_retains (df : list RawRow) (out : list Row)
    (i : nat) (raw : RawRow) :
  parse df = Some out → df !! i = Some raw → is_kept (i, raw) →
  ∃ r1, month_default (raw_to_row i raw) = Some r1
        ∧ assign r1 ∈ out.
Proof.
  intros Hrows%parse_csv_file_rows Hi Hk.
  assert ((i, raw) ∈ filter is_kept (imap pair df)) as [j Hj]%list_elem_of_lookup_1
    by by apply kept_lookup.
  destruct (Forall2_lookup_l _ _ _ _ _ Hrows Hj) as (r & Hr & r1 & Hr1 & ->).
  exists r1. split; [done|]. by eapply list_elem_of_lookup_2.
Qed.

End Parser.

(** C6. Whatever the numeric and date parsers and the case folding are,
    every row of the parser's output carries the amount read from a filled
    credit cell of the raw row it is labelled with, and that amount is
    positive; a raw row whose credit cell is empty or missing, or whose
    amount does not parse or is not positive, labels no output row. *)
Theorem parse_csv_file_positive_amounts (lower : string → string)
    (to_numeric : cell → option Q) (to_datetime : cell → option Timestamp)
    (mappings : list (string * string)) (df : list RawRow) (out : list Row) :
  parse_csv_file lower to_numeric to_datetime mappings df = Some out →
  (∀ r, r ∈ out →
     ∃ raw a, df !! index r = Some raw
              ∧ filled (raw_Gutschrift_CHF raw)
              ∧ to_numeric (raw_Gutschrift_CHF raw) = Some a
              ∧ Amount r = Some a ∧ (0 < a)%Q)
  ∧ (∀ i raw, df !! i = Some raw →
       (¬ filled (raw_Gutschrift_CHF raw)
        ∨ to_numeric (raw_Gutschrift_CHF raw) = None
        ∨ ∃ a, to_numeric (raw_Gutschrift_CHF raw) = Some a ∧ (a <= 0)%Q) →
       ∀ r, r ∈ out → index r ≠ i).
Proof.
  intros Hparse.
  assert (Hin : ∀ r, r ∈ out →
     ∃ raw a, df !! index r = Some raw
              ∧ filled (raw_Gutschrift_CHF raw)
              ∧ to_numeric (raw_Gutschrift_CHF raw) = Some a
              ∧ Amount r = Some a ∧ (0 < a)%Q).
  { intros r Hr.
    destruct (parse_csv_file_origin _ _ _ _ _ _ _ Hparse Hr)
      as (raw & r1 & Hraw & [Hcredit Hok] & Hr1 & ->).
    simpl in Hcredit, Hok. apply amount_ok_positive in Hok as (a & Ha & Hpos).
    simpl in Ha. exists raw, a.
    destruct (auto_assign_fields lower mappings r1) as (Hidx & _ & Ham & _).
    destruct (month_default_fields _ _ Hr1) as (Hidx1 & _ & _ & Ham1 & _).
    rewrite Hidx, Hidx1 in Hraw. simpl in Hraw. rewrite Hidx, Hidx1. simpl.
    split; [done|]. split; [by apply is_credit_filled|]. split; [done|].
    split; [|done]. by rewrite Ham, Ham1. }
  split; [done|].
  intros i raw Hi Hbad r Hr <-.
  destruct (Hin r Hr) as (raw' & a & Hraw' & Hfilled & Hnum & _ & Hpos).
  assert (raw' = raw) as -> by congruence.
  destruct Hbad as [Hempty|[Hnone|(a' & Ha' & Hle)]].
  - done.
  - congruence.
  - assert (a' = a) as -> by congruence. by apply Qle_not_lt in Hle.
Qed.

Lemma parse_csv_file_positive_amounts_witness :
  (∀ r, r ∈ parsed_amounts →
     ∃ raw a, statement_amounts !! index r = Some raw
              ∧ filled (raw_Gutschrift_CHF raw)
              ∧ Plain.to_numeric (raw_Gutschrift_CHF raw) = Some a
              ∧ Amount r = Some a ∧ (0 < a)%Q)
  ∧ (∀ i raw, statement_amounts !! i = Some raw →
       (¬ filled (raw_Gutschrift_CHF raw)
        ∨ Plain.to_numeric (raw_Gutschrift_CHF raw) = None
        ∨ ∃ a, Plain.to_numeric (raw_Gutschrift_CHF raw) = Some a ∧ (a <= 0)%Q) →
       ∀ r, r ∈ parsed_amounts → index r ≠ i).
Proof.
  apply (parse_csv_file_positive_amounts Plain.lower Plain.to_numeric
           Plain.to_datetime [] statement_amounts parsed_amounts).
  vm_compute. reflexivity.
Defined.

(** ** Dates in the parser *)

(** C2 as stated fails on [statement_iso_date]: its date does not parse,
    and the row is kept, without a date; only the amount filters rows. *)
Lemma parse_csv_file_keeps_unparseable_date :
  Plain.to_datetime (CStr "2025-08-29") = None
  ∧ Plain.parse_csv_file [] statement_iso_date = Some parsed_iso_date.
Proof. split; by vm_compute. Qed.

(** C2 (amended). Every output row carries the date that the day.month.year
    parser returns for the date cell of the raw row it is labelled with, or
    no date (NaT) with a blank month when the cell does not parse; a raw row
    with a filled credit cell and a positive amount is kept also when its date
    does not parse. *)
Theorem parse_csv_file_dates (lower : string → string)
    (to_numeric : cell → option Q) (to_datetime : cell → option Timestamp)
    (mappings : list (string * string)) (df : list RawRow) (out : list Row) :
  parse_csv_file lower to_numeric to_datetime mappings df = Some out →
  (∀ r, r ∈ out →
     ∃ raw, df !! index r = Some raw
            ∧ Datum r = to_datetime (raw_Datum raw)
            ∧ (to_datetime (raw_Datum raw) = None → Monat r = CStr ""))
  ∧ (∀ i raw a, df !! i = Some raw →
       filled (raw_Gutschrift_CHF raw) →
       to_numeric (raw_Gutschrift_CHF raw) = Some a → (0 < a)%Q →
       to_datetime (raw_Datum raw) = None →
       ∃ r, r ∈ out ∧ index r = i ∧ Datum r = None ∧ Amount r = Some a).
Proof.
  intros Hparse. split.
  - intros r Hr.
    destruct (parse_csv_file_origin _ _ _ _ _ _ _ Hparse Hr)
      as (raw & r1 & Hraw & _ & Hr1 & ->).
    destruct (auto_assign_fields lower mappings r1) as (Hidx & Hdat & _ & Hmo & _).
    destruct (month_default_fields _ _ Hr1) as (Hidx1 & Hdat1 & _).
    rewrite Hidx, Hidx1 in Hraw. simpl in Hraw.
    rewrite Hidx, Hidx1, Hdat, Hdat1, Hmo. simpl. exists raw.
    split; [done|]. split; [done|]. intros Hnat.
    rewrite month_default_undated in Hr1 by done. by injection Hr1 as <-.
  - intros i raw a Hi Hfilled Hnum Hpos Hnat.
    destruct (parse_csv_file_retains _ _ _ _ _ _ i raw Hparse Hi) as (r1 & Hr1 & Hin).
    { split; simpl; [by apply is_credit_filled|].
      apply amount_ok_positive. by exists a. }
    rewrite month_default_undated in Hr1 by done. injection Hr1 as <-.
    eexists. split; [exact Hin|].
    destruct (auto_assign_fields lower mappings
                (processed_row to_numeric to_datetime i raw))
      as (-> & -> & -> & _).
    by simpl.
Qed.

Lemma parse_csv_file_dates_witness :
  (∀ r, r ∈ parsed_iso_date →
     ∃ raw, statement_iso_date !! index r = Some raw
            ∧ Datum r = Plain.to_datetime (raw_Datum raw)
            ∧ (Plain.to_datetime (raw_Datum raw) = None → Monat r = CStr ""))
  ∧ (∀ i raw a, statement_iso_date !! i = Some raw →
       filled (raw_Gutschrift_CHF raw) →
       Plain.to_numeric (raw_Gutschrift_CHF raw) = Some a → (0 < a)%Q →
       Plain.to_datetime (raw_Datum raw) = None →
       ∃ r, r ∈ parsed_iso_date ∧ index r = i ∧ Datum r = None
            ∧ Amount r = Some a).
Proof.
  apply (parse_csv_file_dates Plain.lower Plain.to_numeric
           Plain.to_datetime [] statement_iso_date parsed_iso_date).
  vm_compute. reflexivity.
Defined.

(** ** Mapping store *)

(** [add_member_mapping] only ever appends an entry for a key that is not
    yet in the store. *)
Lemma add_member_mapping_appends (details member_name : string)
    (mappings : list (string * string)) :
  let res := add_member_mapping details member_name mappings in
  (res.1 = true
   ∧ PyStr.strip details ≠ "" ∧ (PyStr.strip details ∉ mappings.*1)
   ∧ res.2 = mappings ++ [(PyStr.strip details, member_name)])
  ∨ (res.1 = false
     ∧ (PyStr.strip details = "" ∨ PyStr.strip details ∈ mappings.*1)
     ∧ res.2 = mappings).
Proof.
  unfold add_member_mapping. simpl.
  case_bool_decide as He; simpl; [right; auto|].
  case_bool_decide as Hk; simpl; [right; auto|]. left. auto.
Qed.

Lemma add_member_mapping_keeps (details member_name : string)
    (mappings : list (string * string)) (k : string) :
  k ∈ mappings.*1 →
  List.find (λ kv, bool_decide (kv.1 = k))
    (add_member_mapping details member_name mappings).2
  = List.find (λ kv, bool_decide (kv.1 = k)) mappings.
Proof.
  intros Hk.
  destruct (add_member_mapping_appends details member_name mappings)
    as [(_ & _ & _ & ->)|(_ & _ & ->)]; [|done].
  induction mappings as [|[k' v'] mappings IH]; [by apply elem_of_nil in Hk|].
  simpl in *. case_bool_decide; [done|].
  apply IH. apply elem_of_cons in Hk as [?|?]; [congruence|done].
Qed.

Lemma find_mapping_app (mappings added : list (string * string)) (k : string) :
  k ∈ mappings.*1 →
  List.find (λ kv, bool_decide (kv.1 = k)) (mappings ++ added)
  = List.find (λ kv, bool_decide (kv.1 = k)) mappings.
Proof.
  induction mappings as [|[k' v'] mappings IH]; intros Hk;
    [by apply elem_of_nil in Hk|].
  simpl in *. case_bool_decide; [done|].
  apply IH. apply elem_of_cons in Hk as [?|?]; [congruence|done].
Qed.

Section MappingFacts.

Variable clock : nat → Z.

Lemma write_rows_mappings (member_id : string) (group : list Row)
    (st st' : Commit) :
  write_rows clock member_id st group = Some st' →
  st_mappings st' = st_mappings st.
Proof.
  revert st. induction group as [|r group IH]; intros st; simpl.
  - by intros [= ->].
  - intros (st1 & Hst1 & Hrest)%bind_Some. rewrite (IH _ Hrest).
    unfold write_row in Hst1. apply bind_Some in Hst1 as (d & _ & Hst1).
    destruct (period_of r d), (entry_of clock member_id (st_tick st) r d).
    by injection Hst1 as <-.
Qed.

Lemma process_group_mappings (st st' : Commit) (g : string * list Row) :
  process_group clock st g = Some st' →
  ∃ added, st_mappings st' = st_mappings st ++ added.
Proof.
  destruct g as [member_name group]. unfold process_group.
  destruct (find_member_id _ _) as [member_id|].
  - intros (st1 & Hst1 & Hrest)%bind_Some.
    apply bind_Some in Hrest as (row & _ & [= <-]). simpl.
    rewrite <- (write_rows_mappings _ _ _ _ Hst1).
    destruct (add_member_mapping_appends (PyStr.strip (py_str (Details row)))
                (PyStr.strip member_name) (st_mappings st1))
      as [(_ & _ & _ & ->)|(_ & _ & ->)]; [by eexists|].
    exists []. by rewrite app_nil_r.
  - intros [= <-]. exists []. by rewrite app_nil_r.
Qed.

Lemma process_groups_mappings (groups : list (string * list Row)) (st : Commit) :
  ∃ added, st_mappings (process_groups clock st groups).1 = st_mappings st ++ added.
Proof.
  revert st. induction groups as [|g groups IH]; intros st; simpl.
  - exists []. by rewrite app_nil_r.
  - destruct (process_group clock st g) as [st1|] eqn:Hg; simpl.
    + destruct (process_group_mappings _ _ _ Hg) as [added1 H1].
      destruct (IH st1) as [added2 H2]. exists (added1 ++ added2).
      by rewrite H2, H1, app_assoc.
    + exists []. by rewrite app_nil_r.
Qed.

(** A commit, successful or not, leaves the entries of the mapping store
    in place and at most appends to them: the value found for a key of the
    store is the same afterwards. *)
Lemma transfer_keeps_mappings (df : list Row) (s : Store) (k : string) :
  k ∈ (categories s).*1 →
  List.find (λ kv, bool_decide (kv.1 = k))
    (categories (transfer_to_member_database clock df s).2)
  = List.find (λ kv, bool_decide (kv.1 = k)) (categories s).
Proof.
  intros Hk. unfold transfer_to_member_database.
  destruct (process_groups_mappings (groupby_Mitglied df)
              {| st_members := member_db s; st_mappings := categories s;
                 st_tick := 0 |}) as [added Hadded].
  destruct (process_groups _ _ _) as [st ok]. simpl in Hadded.
  destruct ok; simpl; rewrite Hadded; by apply find_mapping_app.
Qed.

End MappingFacts.

(** C3. Against an empty mapping store the batch [batch_two_details]
    passes validation and both payments are written with their statement
    texts, but only the text of the member's last row is learned:
    [add_member_mapping] is called after the loop over the member's rows. *)
Theorem mapping_learned_from_last_row_only (clock : nat → Z) :
  validate_import_data (member_db ledger0) batch_two_details
  = (true, ValidationOk)
  ∧ ∃ ledger1,
      transfer_to_member_database clock batch_two_details ledger0
      = (true, ledger1)
      ∧ (∃ m e,
           get_member (member_db ledger1) "M001" = Some m
           ∧ contributions_of m "2025" !! "01" = Some e
           ∧ c_details e = Some "Dauerauftrag J. Doe")
      ∧ categories ledger1 = [("ACME Corp Payment, Jane Doe", "Jane Doe")]
      ∧ "Dauerauftrag J. Doe" ∉ (categories ledger1).*1.
Proof.
  split; [by vm_compute|].
  eexists. split; [by vm_compute|].
  split. { eexists _, _. split; [by vm_compute|]. split; by vm_compute. }
  split; [by vm_compute|].
  simpl. rewrite list_elem_of_singleton. discriminate.
Qed.

(** ** Commit *)

Lemma grows_refl (ms : Members) : grows ms ms.
Proof. by split. Qed.

Lemma grows_trans (ms1 ms2 ms3 : Members) :
  grows ms1 ms2 → grows ms2 ms3 → grows ms1 ms3.
Proof.
  intros [Hf1 Hr1] [Hf2 Hr2]. split.
  - intros n. by rewrite Hf2.
  - auto.
Qed.

Lemma get_member_update (member_id member_id' : string) (f : Member → Member)
    (ms : Members) :
  get_member (update_member member_id f ms) member_id'
  = if decide (member_id = member_id') then f <$> get_member ms member_id'
    else get_member ms member_id'.
Proof.
  unfold get_member. induction ms as [|[mid m] ms IH]; simpl.
  - by destruct (decide _).
  - case_bool_decide as Hmid; simpl.
    + subst mid. case_bool_decide as Hid'; simpl.
      * by rewrite decide_True.
      * by rewrite decide_False.
    + case_bool_decide as Hid'; simpl.
      * subst mid. by rewrite decide_False by congruence.
      * exact IH.
Qed.

Lemma find_member_id_update (member_id n : string) (f : Member → Member)
    (ms : Members) :
  (∀ m, name (f m) = name m) →
  find_member_id (update_member member_id f ms) n = find_member_id ms n.
Proof.
  intros Hname. unfold find_member_id.
  induction ms as [|[mid m] ms IH]; simpl; [done|].
  case_bool_decide as Hmid; simpl.
  - rewrite Hname. by case_bool_decide.
  - case_bool_decide; [done|]. exact IH.
Qed.

Lemma contributions_of_put (year month year' : string) (entry : Contribution)
    (m : Member) :
  contributions_of (put_contribution year month entry m) year'
  = if decide (year = year') then <[month := entry]> (contributions_of m year)
    else contributions_of m year'.
Proof.
  unfold contributions_of, put_contribution. simpl.
  destruct (decide (year = year')) as [<-|Hne].
  - by rewrite lookup_insert_eq.
  - by rewrite lookup_insert_ne.
Qed.

Lemma grows_update (member_id : string) (f : Member → Member) (ms : Members) :
  (∀ m, name (f m) = name m) →
  (∀ m year month, is_Some (contributions_of m year !! month) →
                   is_Some (contributions_of (f m) year !! month)) →
  grows ms (update_member member_id f ms).
Proof.
  intros Hname Hkeep. split.
  - intros n. by apply find_member_id_update.
  - intros id year month (m & Hm & Hrec). unfold recorded.
    rewrite get_member_update, Hm. destruct (decide _); simpl; eauto.
Qed.

Lemma grows_put_contribution (member_id year month : string)
    (entry : Contribution) (ms : Members) :
  grows ms (update_member member_id (put_contribution year month entry) ms).
Proof.
  apply grows_update; [done|]. intros m y mo Hrec.
  rewrite contributions_of_put. destruct (decide _) as [<-|]; [|done].
  rewrite lookup_insert. destruct (decide _); [by eexists|done].
Qed.

Lemma grows_set_einfuehrungskurs (member_id : string) (ms : Members) :
  grows ms (update_member member_id set_einfuehrungskurs ms).
Proof. by apply grows_update. Qed.

Lemma find_member_id_get (ms : Members) (n member_id : string) :
  find_member_id ms n = Some member_id → is_Some (get_member ms member_id).
Proof.
  intros (m & Hin & _)%find_member_id_Some. by eapply get_member_is_Some.
Qed.

Section CommitFacts.

Variable clock : nat → Z.

(** A dated row is written under its period with the entry built from
    it. *)
Lemma write_row_dated (member_id : string) (st : Commit) (r : Row)
    (d : Timestamp) :
  Datum r = Some d →
  ∃ st', write_row clock member_id st r = Some st'
    ∧ st_mappings st' = st_mappings st
    ∧ grows (st_members st) (st_members st')
    ∧ (is_Some (get_member (st_members st) member_id) →
       ∃ m, get_member (st_members st') member_id = Some m
            ∧ contributions_of m (period_of r d).1 !! (period_of r d).2
              = Some (entry_of clock member_id (st_tick st) r d).1).
Proof.
  intros Hd. unfold write_row. rewrite Hd. simpl.
  destruct (period_of r d) as [year month] eqn:Hp.
  destruct (entry_of clock member_id (st_tick st) r d) as [entry ticked] eqn:He.
  eexists. split; [done|]. simpl. split; [done|].
  split; [apply grows_put_contribution|].
  intros [m Hm]. rewrite get_member_update, decide_True, Hm by done. simpl.
  eexists. split; [done|].
  by rewrite contributions_of_put, decide_True, lookup_insert_eq.
Qed.

Lemma write_rows_dated (member_id : string) (group : list Row) (st : Commit) :
  Forall (λ r, is_Some (Datum r)) group →
  ∃ st', write_rows clock member_id st group = Some st'
    ∧ st_mappings st' = st_mappings st
    ∧ grows (st_members st) (st_members st')
    ∧ (is_Some (get_member (st_members st) member_id) →
       ∀ r d, r ∈ group → Datum r = Some d →
         recorded (st_members st') member_id (period_of r d).1 (period_of r d).2).
Proof.
  intros Hdated. revert st.
  induction Hdated as [|r group [d Hd] _ IH]; intros st.
  - exists st. split; [done|]. split; [done|]. split; [apply grows_refl|].
    intros _ r d Hr. by apply elem_of_nil in Hr.
  - destruct (write_row_dated member_id st r d Hd)
      as (st1 & Hst1 & Hmap1 & Hgrow1 & Hrec1).
    destruct (IH st1) as (st' & Hst' & Hmap' & Hgrow' & Hrec').
    exists st'. simpl. rewrite Hst1. simpl.
    split; [done|]. split; [congruence|].
    split; [by eapply grows_trans|].
    intros Hget r' d' Hr' Hd'.
    destruct (Hrec1 Hget) as (m1 & Hm1 & Hentry).
    apply elem_of_cons in Hr' as [->|Hr'].
    + assert (d' = d) as -> by congruence.
      apply (proj2 Hgrow'). exists m1. split; [exact Hm1|].
      eexists. exact Hentry.
    + apply Hrec'; [by eexists|done..].
Qed.

Lemma process_group_dated (member_name : string) (group : list Row)
    (st : Commit) :
  group ≠ [] →
  Forall (λ r, is_Some (Datum r)) group →
  ∃ st', process_group clock st (member_name, group) = Some st'
    ∧ grows (st_members st) (st_members st')
    ∧ (∀ member_id r d,
         find_member_id (st_members st) member_name = Some member_id →
         r ∈ group → Datum r = Some d →
         recorded (st_members st') member_id (period_of r d).1 (period_of r d).2).
Proof.
  intros Hne Hdated. unfold process_group.
  destruct (find_member_id (st_members st) member_name) as [member_id|] eqn:Hfind.
  - destruct (write_rows_dated member_id group st Hdated)
      as (st1 & -> & _ & Hgrow1 & Hrec1). simpl.
    destruct (last group) as [row|] eqn:Hlast;
      [|by apply last_None in Hlast]. simpl.
    eexists. split; [done|]. simpl.
    assert (Hgrow2 : grows (st_members st1)
              (if bool_decide (PyStr.strip (py_str (Zahlungszweck row))
                               = "Einf√ºhrungskurs")
               then update_member member_id set_einfuehrungskurs (st_members st1)
               else st_members st1)).
    { case_bool_decide; [apply grows_set_einfuehrungskurs|apply grows_refl]. }
    split; [by eapply grows_trans|].
    intros ? r d [= <-] Hr Hd. apply (proj2 Hgrow2).
    apply Hrec1; [by eapply find_member_id_get|done..].
  - exists st. split; [done|]. split; [apply grows_refl|]. by intros.
Qed.

Lemma process_groups_dated (groups : list (string * list Row)) (st : Commit) :
  Forall (λ g, g.2 ≠ [] ∧ Forall (λ r, is_Some (Datum r)) g.2) groups →
  ∃ st', process_groups clock st groups = (st', true)
    ∧ grows (st_members st) (st_members st')
    ∧ (∀ member_name group member_id r d,
         (member_name, group) ∈ groups →
         find_member_id (st_members st) member_name = Some member_id →
         r ∈ group → Datum r = Some d →
         recorded (st_members st') member_id (period_of r d).1 (period_of r d).2).
Proof.
  intros Hgroups. revert st.
  induction Hgroups as [|[n g] groups [Hne Hdated] _ IH]; intros st.
  - exists st. split; [done|]. split; [apply grows_refl|].
    intros ????? Hin. by apply elem_of_nil in Hin.
  - simpl in Hne, Hdated.
    destruct (process_group_dated n g st Hne Hdated)
      as (st1 & Hst1 & Hgrow1 & Hrec1).
    destruct (IH st1) as (st' & Hst' & Hgrow' & Hrec').
    exists st'. cbn [process_groups]. rewrite Hst1. split; [done|].
    split; [by eapply grows_trans|].
    intros member_name group member_id r d Hin Hfind Hr Hd.
    apply elem_of_cons in Hin as [[= -> ->]|Hin].
    + apply (proj2 Hgrow'). by eapply Hrec1.
    + eapply Hrec'; [done| |done..]. destruct Hgrow1 as [Hf _]. by rewrite Hf.
Qed.

End CommitFacts.

Lemma groupby_Mitglied_elem (df : list Row) (k : string) (g : list Row) :
  (k, g) ∈ groupby_Mitglied df ↔
  k ∈ omap member_key df ∧ g = filter (λ r, member_key r = Some k) df.
Proof.
  unfold groupby_Mitglied. rewrite list_elem_of_fmap. split.
  - intros (k' & [= <- ->] & Hk). rewrite merge_sort_Permutation in Hk.
    by rewrite elem_of_remove_dups in Hk.
  - intros [Hk ->]. exists k. split; [done|].
    rewrite merge_sort_Permutation. by rewrite elem_of_remove_dups.
Qed.

Lemma groupby_Mitglied_dated (df : list Row) :
  Forall (λ r, is_Some (Datum r)) df →
  Forall (λ g, g.2 ≠ [] ∧ Forall (λ r, is_Some (Datum r)) g.2)
    (groupby_Mitglied df).
Proof.
  intros Hdated. apply Forall_forall. intros [k g] [Hk ->]%groupby_Mitglied_elem.
  simpl. split.
  - apply list_elem_of_omap in Hk as (r & Hr & Hkey). intros Hnil.
    by apply (filter_nil_not_elem_of (λ r, member_key r = Some k) df r Hnil Hkey).
  - rewrite Forall_forall in Hdated. apply Forall_forall.
    intros r [_ Hr]%list_elem_of_filter. by apply Hdated.
Qed.

Lemma groupby_Mitglied_row (df : list Row) (r : Row) (member_name : string) :
  r ∈ df → Mitglied r = CStr member_name →
  ∃ group, (member_name, group) ∈ groupby_Mitglied df ∧ r ∈ group.
Proof.
  intros Hr Hm.
  assert (member_key r = Some member_name) as Hkey
    by (unfold member_key; by rewrite Hm).
  eexists. split.
  - apply groupby_Mitglied_elem. split; [|done].
    apply list_elem_of_omap. by exists r.
  - by apply list_elem_of_filter.
Qed.

(** A batch without missing dates is committed, group by group. *)
Lemma transfer_dated (clock : nat → Z) (df : list Row) (s : Store) :
  (∀ r, r ∈ df → is_Some (Datum r)) →
  ∃ s', transfer_to_member_database clock df s = (true, s')
    ∧ grows (member_db s) (member_db s')
    ∧ (∀ member_name member_id r d,
         r ∈ df → Mitglied r = CStr member_name → Datum r = Some d →
         find_member_id (member_db s) member_name = Some member_id →
         recorded (member_db s') member_id (period_of r d).1 (period_of r d).2).
Proof.
  intros Hdated%Forall_forall%groupby_Mitglied_dated.
  unfold transfer_to_member_database.
  destruct (process_groups_dated clock _
              {| st_members := member_db s; st_mappings := categories s;
                 st_tick := 0 |} Hdated)
    as (st' & -> & Hgrow & Hrec). simpl in *.
  eexists. split; [done|]. simpl. split; [done|].
  intros member_name member_id r d Hr Hm Hd Hfind.
  destruct (groupby_Mitglied_row df r member_name Hr Hm) as (group & Hg & Hrg).
  by eapply Hrec.
Qed.

Lemma strftime_m_two_digits (d : Timestamp) :
  valid_date d → strftime_m d = two_digits (ts_month d).
Proof.
  intros [[Hlow Hhigh] _]. unfold strftime_m.
  destruct (ts_month d) as [|m]; [lia|].
  do 12 (destruct m as [|m]; [reflexivity|]). lia.
Qed.

(** C10. A row of a member of the directory whose month label is none of
    the twelve is written all the same: its iteration stores the entry built
    from it under the year of its date and the two-digit month of its date,
    with the label kept as the entry's month name, and a batch without
    missing dates that holds such a row is committed with that entry
    recorded. *)
Theorem transfer_unrecognised_month_label (clock : nat → Z) (df : list Row)
    (s : Store) (r : Row) (d : Timestamp) (member_name member_id : string) :
  (∀ r', r' ∈ df → is_Some (Datum r')) →
  r ∈ df → Mitglied r = CStr member_name → Datum r = Some d → valid_date d →
  find_member_id (member_db s) member_name = Some member_id →
  PyStr.strip (py_str (Monat r)) ∉ month_labels →
  (∀ st, is_Some (get_member (st_members st) member_id) →
     ∃ st' m, write_row clock member_id st r = Some st'
       ∧ get_member (st_members st') member_id = Some m
       ∧ contributions_of m (pretty (ts_year d)) !! two_digits (ts_month d)
         = Some (entry_of clock member_id (st_tick st) r d).1
       ∧ c_month_name (entry_of clock member_id (st_tick st) r d).1
         = Some (PyStr.strip (py_str (Monat r))))
  ∧ ∃ s', transfer_to_member_database clock df s = (true, s')
      ∧ recorded (member_db s') member_id (pretty (ts_year d))
          (two_digits (ts_month d)).
Proof.
  intros Hdated Hr Hm Hd Hvalid Hfind Hlabel.
  assert (Hperiod : period_of r d = (pretty (ts_year d), two_digits (ts_month d))).
  { unfold period_of. apply month_to_num_None in Hlabel. rewrite Hlabel. simpl.
    by rewrite strftime_m_two_digits. }
  split.
  - intros st Hget.
    destruct (write_row_dated clock member_id st r d Hd)
      as (st' & Hst' & _ & _ & Hrec).
    destruct (Hrec Hget) as (m & Hgm & Hentry). rewrite Hperiod in Hentry.
    by exists st', m.
  - destruct (transfer_dated clock df s Hdated) as (s' & Hs' & _ & Hrec).
    exists s'. split; [done|].
    specialize (Hrec member_name member_id r d Hr Hm Hd Hfind).
    by rewrite Hperiod in Hrec.
Qed.

(** A payment of 13 May 2025 labelled May is stored under 2025 and 05. *)
Lemma transfer_unrecognised_month_label_witness :
  let r := txn 0 2025 5 13 "Gutschrift Jane Doe" 50
             "Mitgliederbeitrag" "Jane Doe" "May" "SL250513579C9948" in
  let d := {| ts_year := 2025; ts_month := 5; ts_day := 13 |} in
  let clock := λ _ : nat, 1747130400%Z in
  (∀ st, is_Some (get_member (st_members st) "M001") →
     ∃ st' m, write_row clock "M001" st r = Some st'
       ∧ get_member (st_members st') "M001" = Some m
       ∧ contributions_of m (pretty (ts_year d)) !! two_digits (ts_month d)
         = Some (entry_of clock "M001" (st_tick st) r d).1
       ∧ c_month_name (entry_of clock "M001" (st_tick st) r d).1
         = Some (PyStr.strip (py_str (Monat r))))
  ∧ ∃ s', transfer_to_member_database clock batch_may_label ledger0 = (true, s')
      ∧ recorded (member_db s') "M001" (pretty (ts_year d))
          (two_digits (ts_month d)).
Proof.
  apply (transfer_unrecognised_month_label (λ _ : nat, 1747130400%Z)
           batch_may_label ledger0
           (txn 0 2025 5 13 "Gutschrift Jane Doe" 50
              "Mitgliederbeitrag" "Jane Doe" "May" "SL250513579C9948")
           {| ts_year := 2025; ts_month := 5; ts_day := 13 |}
           "Jane Doe" "M001").
  - intros r' Hr'. apply list_elem_of_singleton in Hr' as ->. by eexists.
  - apply list_elem_of_singleton. reflexivity.
  - reflexivity.
  - reflexivity.
  - unfold valid_date. simpl. lia.
  - reflexivity.
  - rewrite list_elem_of_In. simpl. intuition discriminate.
Defined.

(** The two-digit numerals of the months 5 and 12. *)
Example two_digits_months : two_digits 5 = "05" ∧ two_digits 12 = "12".
Proof. split; reflexivity. Qed.

Example transfer_may_label_entry (clock : nat → Z) :
  ∃ s' m e,
    transfer_to_member_database clock batch_may_label ledger0 = (true, s')
    ∧ get_member (member_db s') "M001" = Some m
    ∧ contributions_of m "2025" !! "05" = Some e
    ∧ c_month_name e = Some "May" ∧ c_date e = Some "2025-05-13"
    ∧ c_source e = Some "csv_import".
Proof.
  eexists _, _, _. split; [by vm_compute|]. split; [by vm_compute|].
  split; [by vm_compute|]. done.
Qed.

(** A row without a date makes the commit fail as a whole. *)
Example transfer_undated_fails (clock : nat → Z) :
  transfer_to_member_database clock
    [set_Mitglied (CStr "Jane Doe") (set_Monat (CStr "August")
       {| index := 0; Datum := None; Details := CStr "Jane Doe";
          Amount := Some 50%Q; Zahlungszweck := CStr "Mitgliederbeitrag";
          Mitglied := CStr ""; Monat := CStr ""; Bemerkungen := CStr "";
          ZKB_Referenz := CStr "" |})]
    ledger0
  = (false, ledger0).
Proof. by vm_compute. Qed.

(** Setting the course flag again changes nothing. *)
Lemma set_einfuehrungskurs_idempotent (m : Member) :
  set_einfuehrungskurs (set_einfuehrungskurs m) = set_einfuehrungskurs m
  ∧ (einfuehrungskurs m = Some true → set_einfuehrungskurs m = m).
Proof. split; [done|]. destruct m. simpl. by intros ->. Qed.

(** C4. The batch [batch_course_then_fee] passes validation and both
    payments are written, the first with the course purpose, but the
    member's course flag stays false: the flag is set after the loop over
    the member's rows, from the purpose of the last row. *)
Theorem course_flag_follows_last_row_only (clock : nat → Z) :
  validate_import_data (member_db ledger0) batch_course_then_fee
  = (true, ValidationOk)
  ∧ ∃ ledger1,
      transfer_to_member_database clock batch_course_then_fee ledger0
      = (true, ledger1)
      ∧ ∃ m e,
          get_member (member_db ledger1) "M001" = Some m
          ∧ contributions_of m "2025" !! "01" = Some e
          ∧ c_purpose e = Some "Einf√ºhrungskurs"
          ∧ is_Some (contributions_of m "2025" !! "02")
          ∧ einfuehrungskurs m = Some false.
Proof.
  split; [by vm_compute|].
  eexists. split; [by vm_compute|].
  eexists _, _. split; [by vm_compute|].
  split; [by vm_compute|]. split; [done|].
  split; [|done]. vm_compute. by eexists.
Qed.

(** In the other order the flag is set. *)
Example course_flag_set_when_last (clock : nat → Z) :
  ∃ ledger1 m,
    transfer_to_member_database clock (reverse batch_course_then_fee) ledger0
    = (true, ledger1)
    ∧ get_member (member_db ledger1) "M001" = Some m
    ∧ einfuehrungskurs m = Some true.
Proof. eexists _, _. split; [by vm_compute|]. split; by vm_compute. Qed.

(** ** Outstanding payments *)

Lemma outstanding_loop (monthly_amount : Q) (paid_months : gset string)
    (months : list nat) (acc : list string * Q) :
  (foldl (outstanding_step monthly_amount paid_months) acc months).1
  = acc.1 ++ filter (λ s, s ∉ paid_months) (PyStr.fmt02d <$> months)
  ∧ ((foldl (outstanding_step monthly_amount paid_months) acc months).2
     == acc.2
        + monthly_amount
          * inject_Z (Z.of_nat (length (filter (λ s, s ∉ paid_months)
                                          (PyStr.fmt02d <$> months)))))%Q.
Proof.
  revert acc. induction months as [|month months IH]; intros acc.
  - simpl. rewrite app_nil_r. split; [done|]. ring.
  - cbn [foldl].
    destruct (IH (outstanding_step monthly_amount paid_months acc month))
      as [IH1 IH2].
    rewrite IH1, IH2, fmap_cons, filter_cons. unfold outstanding_step.
    rewrite bool_decide_decide.
    destruct (decide (PyStr.fmt02d month ∉ paid_months)) as [Hpaid|Hpaid].
    + cbn [fst snd length]. rewrite <- app_assoc. split; [done|].
      rewrite Nat2Z.inj_succ, <- Z.add_1_r, inject_Z_plus.
      change (inject_Z 1) with 1%Q. ring.
    + split; [done|reflexivity].
Qed.

(** What [calculate_outstanding_payments] computes, whatever year the
    clock shows: for a member whose class is Aktiv (50.0 a month) or Passiv
    (25.0 a month), the months from 01 up to the clock's month that have no
    entry under the year 2025, and as total the monthly amount times the
    number of these months. *)
Lemma outstanding_payments_of_2025 (now : Timestamp) (m : Member)
    (form : string) :
  default "Aktiv" (mitgliedsform m) = form →
  form = "Aktiv" ∨ form = "Passiv" →
  let unpaid :=
    filter (λ s, contributions_of m "2025" !! s = None)
      (PyStr.fmt02d <$> seq 1 (ts_month now)) in
  (calculate_outstanding_payments now m).1 = unpaid
  ∧ ((calculate_outstanding_payments now m).2
     == monthly_amount_of form * inject_Z (Z.of_nat (length unpaid)))%Q
  ∧ monthly_amount_of "Aktiv" = 50%Q ∧ monthly_amount_of "Passiv" = 25%Q.
Proof.
  intros Hform Hclass unpaid. unfold calculate_outstanding_payments.
  rewrite Hform.
  assert (Qeq_bool (monthly_amount_of form) 0 = false) as ->
    by by destruct Hclass as [-> | ->].
  assert (unpaid = filter (λ s, s ∉ dom (contributions_of m "2025"))
                     (PyStr.fmt02d <$> seq 1 (ts_month now))) as ->.
  { apply list_filter_iff. intros s. by rewrite not_elem_of_dom. }
  destruct (outstanding_loop (monthly_amount_of form)
              (dom (contributions_of m "2025")) (seq 1 (ts_month now)) ([], 0%Q))
    as [H1 H2].
  split; [exact H1|]. split; [|done]. rewrite H2. simpl. ring.
Qed.

(** The outstanding-summary scenario: Jane Doe, active, no entry, March
    2025. *)
Example outstanding_jane_doe_march :
  calculate_outstanding_payments
    {| ts_year := 2025; ts_month := 3; ts_day := 10 |} jane_doe
  = (["01"; "02"; "03"], 150%Q).
Proof. by vm_compute. Qed.

(** C8. In March 2026 the member [jane_doe_2026], who has paid January to
    March of 2026, is reported with the outstanding months 01, 02 and 03 and
    150.0 owed: the months are looked up under the year 2025, not under the
    year of the clock, for which every one of them has a record. *)
Theorem outstanding_payments_ignore_clock_year :
  let now := {| ts_year := 2026; ts_month := 3; ts_day := 10 |} in
  calculate_outstanding_payments now jane_doe_2026
  = (["01"; "02"; "03"], 150%Q)
  ∧ ∀ s, s ∈ ["01"; "02"; "03"] →
      is_Some (contributions_of jane_doe_2026 (pretty (ts_year now)) !! s).
Proof.
  split; [by vm_compute|].
  intros s Hs. repeat (apply elem_of_cons in Hs as [->|Hs]; [vm_compute; by eexists|]).
  by apply elem_of_nil in Hs.
Qed.

(** * Further properties *)

(** ** StatementParser: order, defaults and the empty result *)

Lemma imap_pair_labels {A : Type} (P : nat * A → Prop) `{∀ x, Decision (P x)}
    (l : list A) (k : nat) :
  StronglySorted lt ((filter P (imap (λ i x, (k + i, x)) l)).*1)
  ∧ Forall (λ j, k ≤ j) ((filter P (imap (λ i x, (k + i, x)) l)).*1).
Proof.
  revert k. induction l as [|x l IH]; intros k.
  - split; constructor.
  - rewrite imap_cons.
    assert (Heq : imap ((λ i x0, (k + i, x0)) ∘ S) l
                  = imap (λ i x0, (S k + i, x0)) l).
    { apply imap_ext. intros i y _. simpl. f_equal. lia. }
    rewrite Heq. destruct (IH (S k)) as [IHs IHb]. rewrite filter_cons.
    destruct (decide (P (k + 0, x))).
    + rewrite fmap_cons. simpl. split.
      * constructor; [done|]. eapply Forall_impl; [exact IHb|]. simpl. lia.
      * constructor; [lia|]. eapply Forall_impl; [exact IHb|]. simpl. lia.
    + split; [done|]. eapply Forall_impl; [exact IHb|]. simpl. lia.
Qed.

Lemma StronglySorted_lookup_lt (l : list nat) (i j x y : nat) :
  StronglySorted lt l → l !! i = Some x → l !! j = Some y → i < j → x < y.
Proof.
  intros Hs. revert i j. induction Hs as [|a l Hs IH Hall]; intros i j Hi Hj Hij.
  - by rewrite lookup_nil in Hi.
  - destruct j as [|j]; [lia|]. destruct i as [|i].
    + injection Hi as <-. simpl in Hj. rewrite Forall_forall in Hall.
      apply Hall. by eapply list_elem_of_lookup_2.
    + simpl in Hi, Hj. eapply IH; [done..|lia].
Qed.

Section ParserMore.

Variable lower : string → string.
Variable to_numeric : cell → option Q.
Variable to_datetime : cell → option Timestamp.
Variable mappings : list (string * string).

Local Abbreviation parse' := (parse_csv_file lower to_numeric to_datetime mappings).
Local Abbreviation is_kept' := (kept to_numeric to_datetime).

Lemma parse_csv_file_labels (df : list RawRow) (out : list Row) :
  parse' df = Some out →
  index <$> out = (filter is_kept' (imap pair df)).*1.
Proof.
  intros Hrows%parse_csv_file_rows.
  induction Hrows as [|[i raw] r kept_rows out' (r1 & Hr1 & ->) _ IH]; [done|].
  rewrite !fmap_cons, IH. f_equal.
  destruct (auto_assign_fields lower mappings r1) as (-> & _).
  by destruct (month_default_fields _ _ Hr1) as (-> & _).
Qed.

(** X1. The parser keeps the order of the statement: the index labels of
    its output rows are strictly increasing positions of the raw table, so
    no raw row is reported twice or out of order. *)
Theorem parse_csv_file_keeps_order (df : list RawRow) (out : list Row) :
  parse' df = Some out →
  ∀ i j ri rj, out !! i = Some ri → out !! j = Some rj → i < j →
    index ri < index rj ∧ index rj < length df.
Proof.
  intros Hparse i j ri rj Hi Hj Hij.
  pose proof (parse_csv_file_labels df out Hparse) as Hlab.
  destruct (imap_pair_labels is_kept' df 0) as [Hsorted _].
  assert (Heq : imap (λ i x, (0 + i, x)) df = imap pair df) by done.
  rewrite Heq, <- Hlab in Hsorted. split.
  - eapply (StronglySorted_lookup_lt (index <$> out) i j); [done| | |done];
      rewrite list_lookup_fmap; [by rewrite Hi|by rewrite Hj].
  - destruct (parse_csv_file_origin _ _ _ _ df out rj Hparse) as (raw & _ & Hraw & _).
    { by eapply list_elem_of_lookup_2. }
    by eapply lookup_lt_Some.
Qed.

Lemma auto_assign_member (r : Row) :
  Mitglied (auto_assign lower mappings r) = Mitglied r
  ∨ ∃ k v, (k, v) ∈ mappings ∧ Mitglied (auto_assign lower mappings r) = CStr v.
Proof.
  unfold auto_assign. destruct (_ && _); [by left|].
  unfold first_mapping.
  destruct (List.find _ mappings) as [[k v]|] eqn:Hfind; simpl; [|by left].
  right. exists k, v. split; [|done].
  apply find_some in Hfind as [Hin _]. by apply list_elem_of_In.
Qed.

Lemma auto_assign_other_fields (r : Row) :
  Bemerkungen (auto_assign lower mappings r) = Bemerkungen r
  ∧ ZKB_Referenz (auto_assign lower mappings r) = ZKB_Referenz r.
Proof.
  unfold auto_assign. destruct (_ && _); [done|].
  by destruct (first_mapping _ _ _).
Qed.

(** X2. Every row of the parser's output has the purpose
    "Mitgliederbeitrag", whatever the bank's purpose text is; that text is
    the row's remark, and details, remark and bank reference are the raw
    cells with a missing value turned into the empty string.  The member is
    blank or a member name of the mapping store. *)
Theorem parse_csv_file_defaults (df : list RawRow) (out : list Row) (r : Row) :
  parse' df = Some out → r ∈ out →
  ∃ raw, df !! index r = Some raw
    ∧ Zahlungszweck r = CStr "Mitgliederbeitrag"
    ∧ Bemerkungen r = fillna (raw_Zahlungszweck raw)
    ∧ Details r = fillna (raw_Details raw)
    ∧ ZKB_Referenz r = fillna (raw_ZKB_Referenz raw)
    ∧ (Mitglied r = CStr ""
       ∨ ∃ k member_name, (k, member_name) ∈ mappings ∧ Mitglied r = CStr member_name).
Proof.
  intros Hparse Hr.
  destruct (parse_csv_file_origin _ _ _ _ df out r Hparse Hr)
    as (raw & r1 & Hraw & _ & Hr1 & ->).
  exists raw. split; [done|].
  destruct (auto_assign_fields lower mappings r1) as (_ & _ & _ & _ & Hdet & Hzw).
  destruct (auto_assign_other_fields r1) as (Hbem & Hzkb).
  destruct (month_default_fields _ _ Hr1)
    as (_ & _ & Hdet1 & _ & Hzw1 & Hmit1 & Hbem1 & Hzkb1).
  rewrite Hzw, Hzw1, Hbem, Hbem1, Hdet, Hdet1, Hzkb, Hzkb1. simpl.
  split_and!; [done..|].
  destruct (auto_assign_member r1) as [->|?]; [|by right].
  left. by rewrite Hmit1.
Qed.

(** X3. When the date parser returns calendar dates for the table, the
    parser answers [None] exactly when no row of the table has a filled
    credit cell, the empty table included; a table with credit rows of which
    none has a valid amount gives an empty table, not [None]. *)
Theorem parse_csv_file_None_iff (df : list RawRow) :
  (∀ raw d, raw ∈ df → to_datetime (raw_Datum raw) = Some d → valid_date d) →
  (parse' df = None ↔ Forall (λ raw, ¬ filled (raw_Gutschrift_CHF raw)) df)
  ∧ (Forall (λ raw, ∀ a, to_numeric (raw_Gutschrift_CHF raw) = Some a →
                           (a <= 0)%Q) df →
     Exists (λ raw, filled (raw_Gutschrift_CHF raw)) df →
     parse' df = Some []).
Proof.
  intros Hvalid.
  assert (Hcredit : filter (λ ir : nat * RawRow, is_credit ir.2) (imap pair df) = []
                    ↔ Forall (λ raw, ¬ filled (raw_Gutschrift_CHF raw)) df).
  { rewrite filter_eq_nil, !Forall_forall. split.
    - intros Hall raw [i Hi]%list_elem_of_lookup_1 Hf.
      apply (Hall (i, raw)); [by apply elem_of_lookup_imap_2|].
      simpl. by apply Is_true_true, is_credit_filled.
    - intros Hall [i raw] (j & x & [= <- <-] & Hj)%elem_of_lookup_imap Hc.
      simpl in Hc. apply (Hall raw); [by eapply list_elem_of_lookup_2|].
      by apply is_credit_filled, Is_true_true. }
  assert (Hdef : ∀ rows : list (nat * RawRow),
             (∀ ir, ir ∈ rows → ir.2 ∈ df) →
             is_Some (_add_smart_month_defaults
                        (filter (λ r, amount_ok r)
                           ((λ ir, processed_row to_numeric to_datetime ir.1 ir.2)
                              <$> rows)))).
  { intros rows Hrows. apply mapM_is_Some, Forall_forall.
    intros r [_ (ir & -> & Hir)%list_elem_of_fmap]%list_elem_of_filter.
    unfold compose. destruct (to_datetime (raw_Datum ir.2)) as [d|] eqn:Hd.
    - destruct (month_default_dated
                  (processed_row to_numeric to_datetime ir.1 ir.2) d Hd)
        as (r' & -> & _); [|done].
      by destruct (Hvalid ir.2 d (Hrows ir Hir) Hd).
    - rewrite month_default_undated; eauto. }
  split.
  - rewrite <- Hcredit. unfold parse_csv_file. case_bool_decide as Hnil; [done|].
    split; [|done]. intros Hnone. exfalso.
    destruct (Hdef (filter (λ ir : nat * RawRow, is_credit ir.2) (imap pair df)))
      as [df1 Hdf1].
    { intros [i raw] [_ (j & x & [= <- <-] & Hj)%elem_of_lookup_imap]%list_elem_of_filter.
      by eapply list_elem_of_lookup_2. }
    by rewrite Hdf1 in Hnone.
  - intros Hbad Hex. unfold parse_csv_file.
    case_bool_decide as Hnil.
    { apply Hcredit in Hnil. apply Exists_exists in Hex as (raw & Hraw & Hf).
      rewrite Forall_forall in Hnil. by destruct (Hnil raw Hraw). }
    assert (filter (λ r, amount_ok r)
              ((λ ir, processed_row to_numeric to_datetime ir.1 ir.2)
                 <$> filter (λ ir : nat * RawRow, is_credit ir.2) (imap pair df))
            = []) as ->; [|done].
    apply filter_eq_nil, Forall_forall.
    intros r (ir & -> & [Hc (j & x & Heq & Hj)%elem_of_lookup_imap]%list_elem_of_filter)%list_elem_of_fmap.
    destruct ir as [i raw]. injection Heq as <- <-. simpl in *.
    rewrite Forall_forall in Hbad. intros Hok.
    apply Is_true_true, amount_ok_positive in Hok as (a & Ha & Hpos). simpl in Ha.
    apply (Qlt_not_le _ _ Hpos). eapply Hbad; [by eapply list_elem_of_lookup_2|done].
Qed.

End ParserMore.

(** Two credits around a debit keep their positions 0 and 2. *)
Lemma parse_csv_file_keeps_order_witness :
  index (parsed_credit 0 29 "Test Member 1, Test Address" 50)
  < index (parsed_credit 2 25 "Test Member 3, Test Address" 25)
  ∧ index (parsed_credit 2 25 "Test Member 3, Test Address" 25)
    < length statement_two_credits.
Proof.
  apply (parse_csv_file_keeps_order Plain.lower Plain.to_numeric
           Plain.to_datetime [] statement_two_credits parsed_two_credits
           ltac:(vm_compute; reflexivity) 0 1).
  - reflexivity.
  - reflexivity.
  - lia.
Defined.

(** The second credit of the same statement. *)
Lemma parse_csv_file_defaults_witness :
  let r := parsed_credit 2 25 "Test Member 3, Test Address" 25 in
  ∃ raw, statement_two_credits !! index r = Some raw
    ∧ Zahlungszweck r = CStr "Mitgliederbeitrag"
    ∧ Bemerkungen r = fillna (raw_Zahlungszweck raw)
    ∧ Details r = fillna (raw_Details raw)
    ∧ ZKB_Referenz r = fillna (raw_ZKB_Referenz raw)
    ∧ (Mitglied r = CStr ""
       ∨ ∃ k member_name, (k, member_name) ∈ ([] : list (string * string))
                          ∧ Mitglied r = CStr member_name).
Proof.
  apply (parse_csv_file_defaults Plain.lower Plain.to_numeric
           Plain.to_datetime [] statement_two_credits parsed_two_credits).
  - vm_compute. reflexivity.
  - right. left.
Defined.

(** The same statement, whose dates are calendar dates. *)
Lemma parse_csv_file_None_iff_witness :
  (Plain.parse_csv_file [] statement_two_credits = None
   ↔ Forall (λ raw, ¬ filled (raw_Gutschrift_CHF raw)) statement_two_credits)
  ∧ (Forall (λ raw, ∀ a, Plain.to_numeric (raw_Gutschrift_CHF raw) = Some a →
                           (a <= 0)%Q) statement_two_credits →
     Exists (λ raw, filled (raw_Gutschrift_CHF raw)) statement_two_credits →
     Plain.parse_csv_file [] statement_two_credits = Some []).
Proof.
  apply (parse_csv_file_None_iff Plain.lower Plain.to_numeric
           Plain.to_datetime [] statement_two_credits).
  intros raw d Hraw Hd.
  repeat (apply elem_of_cons in Hraw as [->|Hraw];
          [vm_compute in Hd; injection Hd as <-; unfold valid_date; simpl; lia|]).
  by apply elem_of_nil in Hraw.
Defined.

(** ** Assigner: member defaults *)

Lemma find_first_match {A : Type} (f : A → bool) (pre post : list A) (x : A) :
  Forall (λ y, f y = false) pre → f x = true →
  List.find f (pre ++ x :: post) = Some x.
Proof.
  induction 1 as [|y pre Hy _ IH]; intros Hx; simpl.
  - by rewrite Hx.
  - rewrite Hy. by apply IH.
Qed.

Lemma find_no_match {A : Type} (f : A → bool) (l : list A) :
  Forall (λ y, f y = false) l → List.find f l = None.
Proof. induction 1 as [|y l Hy _ IH]; simpl; [done|]. by rewrite Hy. Qed.

Lemma prefix_refl (s : string) : String.prefix s s = true.
Proof.
  induction s as [|a s IH]; [done|]. simpl.
  destruct (Ascii.ascii_dec a a); [done|congruence].
Qed.

Lemma contains_refl (s : string) : PyStr.contains s s = true.
Proof.
  destruct s as [|a s]; [done|].
  change (PyStr.contains (String a s) (String a s))
    with (String.prefix (String a s) (String a s)
          || PyStr.contains (String a s) s).
  by rewrite prefix_refl.
Qed.

Lemma set_Mitglied_same (r : Row) : set_Mitglied (Mitglied r) r = r.
Proof. by destruct r. Qed.

Section AssignerFacts.

Variable lower : string → string.
Variable mappings : list (string * string).

Lemma auto_assign_only_member (r : Row) :
  set_Mitglied (Mitglied (auto_assign lower mappings r)) r
  = auto_assign lower mappings r.
Proof.
  unfold auto_assign. destruct (_ && _); [apply set_Mitglied_same|].
  destruct (first_mapping _ _ _); [done|apply set_Mitglied_same].
Qed.

Lemma auto_assign_assigned (r : Row) :
  filled (Mitglied r) ∨ Mitglied r = CNaN → auto_assign lower mappings r = r.
Proof.
  unfold auto_assign. intros [(n & -> & Hn)| ->]; simpl; [|done].
  by rewrite bool_decide_false.
Qed.

(** X4. [auto_assign_members] keeps the rows and their order and may
    change the member column only; a row whose member is already chosen (a
    non-empty name, or a NaN) is returned as it is, and a member that is
    filled in is a member name of the mapping store. *)
Theorem auto_assign_members_keeps_assigned (df : list Row) :
  length (auto_assign_members lower mappings df) = length df
  ∧ ∀ i r, df !! i = Some r →
      ∃ r', auto_assign_members lower mappings df !! i = Some r'
        ∧ set_Mitglied (Mitglied r') r = r'
        ∧ (filled (Mitglied r) ∨ Mitglied r = CNaN → r' = r)
        ∧ (Mitglied r' = Mitglied r
           ∨ ∃ k member_name, (k, member_name) ∈ mappings
                              ∧ Mitglied r' = CStr member_name).
Proof.
  unfold auto_assign_members. split; [by rewrite length_fmap|].
  intros i r Hi. exists (auto_assign lower mappings r).
  split; [by rewrite list_lookup_fmap, Hi|].
  split; [apply auto_assign_only_member|].
  split; [apply auto_assign_assigned|apply auto_assign_member].
Qed.

(** X5. For a row without a member the mapping store is scanned in
    insertion order and the first entry whose lowered key occurs in the
    lowered, trimmed details decides, also when a later entry matches too;
    when no entry matches, the row is returned as it is. *)
Theorem auto_assign_first_match (r : Row) (pre post : list (string * string))
    (k member_name : string) :
  Mitglied r = CStr "" →
  mappings = pre ++ (k, member_name) :: post →
  Forall (λ kv, PyStr.contains (lower kv.1)
                  (PyStr.strip (lower (py_str (Details r)))) = false) pre →
  (PyStr.contains (lower k) (PyStr.strip (lower (py_str (Details r)))) = true →
   auto_assign lower mappings r = set_Mitglied (CStr member_name) r)
  ∧ (PyStr.contains (lower k) (PyStr.strip (lower (py_str (Details r)))) = false →
     Forall (λ kv, PyStr.contains (lower kv.1)
                     (PyStr.strip (lower (py_str (Details r)))) = false) post →
     auto_assign lower mappings r = r).
Proof.
  intros Hm -> Hpre. unfold auto_assign, first_mapping. rewrite Hm. simpl. split.
  - intros Hk.
    by rewrite (find_first_match
                  (λ km, PyStr.contains (lower km.1)
                           (PyStr.strip (lower (py_str (Details r)))))
                  pre post (k, member_name) Hpre Hk).
  - intros Hk Hpost. rewrite find_no_match; [done|].
    apply Forall_app. split; [done|]. by constructor.
Qed.

(** X6. Learning round trip: after [add_member_mapping] has stored the
    details text of a transaction for a member, a row without a member that
    carries the same details text is assigned that member, provided no older
    entry of the store matches the text and lowering commutes with trimming
    on it. *)
Theorem learned_mapping_auto_assigns (details member_name : string) (r : Row) :
  (add_member_mapping details member_name mappings).1 = true →
  Forall (λ kv, PyStr.contains (lower kv.1)
                  (PyStr.strip (lower details)) = false) mappings →
  lower (PyStr.strip details) = PyStr.strip (lower details) →
  Details r = CStr details → Mitglied r = CStr "" →
  auto_assign lower (add_member_mapping details member_name mappings).2 r
  = set_Mitglied (CStr member_name) r.
Proof.
  intros Hadded Hold Hcomm Hd Hm.
  destruct (add_member_mapping_appends details member_name mappings)
    as [(_ & _ & _ & Hres)|(Hfalse & _)]; [|congruence].
  rewrite Hres. unfold auto_assign, first_mapping. rewrite Hm, Hd. simpl.
  rewrite (find_first_match
             (λ km, PyStr.contains (lower km.1) (PyStr.strip (lower details)))
             mappings [] (PyStr.strip details, member_name) Hold); [done|].
  simpl. rewrite Hcomm. apply contains_refl.
Qed.

End AssignerFacts.

(** The second of three mappings decides, although the third matches too. *)
Lemma auto_assign_first_match_witness :
  (PyStr.contains (Plain.lower "ACME Corp")
     (PyStr.strip (Plain.lower (py_str (Details unassigned_row)))) = true →
   auto_assign Plain.lower mappings_three unassigned_row
   = set_Mitglied (CStr "Jane Doe") unassigned_row)
  ∧ (PyStr.contains (Plain.lower "ACME Corp")
       (PyStr.strip (Plain.lower (py_str (Details unassigned_row)))) = false →
     Forall (λ kv, PyStr.contains (Plain.lower kv.1)
                     (PyStr.strip (Plain.lower (py_str (Details unassigned_row))))
                   = false) [("Jane Doe", "John Roe")] →
     auto_assign Plain.lower mappings_three unassigned_row = unassigned_row).
Proof.
  apply (auto_assign_first_match Plain.lower mappings_three unassigned_row
           [("Dauerauftrag J. Doe", "Jane Doe")] [("Jane Doe", "John Roe")]
           "ACME Corp" "Jane Doe").
  - reflexivity.
  - reflexivity.
  - repeat constructor.
Defined.

(** A mapping learned into an empty store assigns the next row with the
    same details. *)
Lemma learned_mapping_auto_assigns_witness :
  auto_assign Plain.lower
    (add_member_mapping "ACME Corp Payment, Jane Doe" "Jane Doe" []).2
    unassigned_row
  = set_Mitglied (CStr "Jane Doe") unassigned_row.
Proof.
  apply (learned_mapping_auto_assigns Plain.lower []
           "ACME Corp Payment, Jane Doe" "Jane Doe" unassigned_row).
  - reflexivity.
  - constructor.
  - reflexivity.
  - reflexivity.
  - reflexivity.
Defined.

(** ** Mapping store: unique keys *)

Lemma add_member_mapping_NoDup (details member_name : string)
    (mappings : list (string * string)) :
  NoDup mappings.*1 →
  NoDup (add_member_mapping details member_name mappings).2.*1.
Proof.
  intros Hnd.
  destruct (add_member_mapping_appends details member_name mappings)
    as [(_ & _ & Hnew & ->)|(_ & _ & ->)]; [|done].
  rewrite fmap_app. apply NoDup_app. split_and!; [done| |apply NoDup_singleton].
  intros k Hk [->|[]%elem_of_nil]%elem_of_cons. done.
Qed.

(** X7. [add_member_mapping] keeps the keys of the mapping store unique.
    It answers [True] exactly when the trimmed details text is not empty and
    not yet a key, and a second call with the same details text, for
    whichever member, answers [False] and leaves the store as it is. *)
Theorem add_member_mapping_unique_keys (details member_name member_name' : string)
    (mappings : list (string * string)) :
  NoDup mappings.*1 →
  NoDup (add_member_mapping details member_name mappings).2.*1
  ∧ ((add_member_mapping details member_name mappings).1 = true ↔
     PyStr.strip details ≠ "" ∧ PyStr.strip details ∉ mappings.*1)
  ∧ add_member_mapping details member_name'
      (add_member_mapping details member_name mappings).2
    = (false, (add_member_mapping details member_name mappings).2).
Proof.
  intros Hnd. split; [by apply add_member_mapping_NoDup|].
  destruct (add_member_mapping_appends details member_name mappings)
    as [(Hflag & Hne & Hnew & Hres)|(Hflag & Hold & Hres)];
    rewrite Hflag, Hres.
  - split_and!.
    + done.
    + unfold add_member_mapping. rewrite bool_decide_false by done. simpl.
      rewrite bool_decide_true; [done|].
      rewrite fmap_app. apply elem_of_app. right. by left.
  - split_and!.
    + split; [done|]. intros [Hne Hnew]. by destruct Hold.
    + unfold add_member_mapping. destruct Hold as [->|Hin].
      * by rewrite bool_decide_true.
      * rewrite (bool_decide_true (_ ∈ _)) by done. by rewrite andb_false_r.
Qed.

(** A second details text, with blanks around it, joins a store of one
    mapping. *)
Lemma add_member_mapping_unique_keys_witness :
  let mappings := [("Dauerauftrag J. Doe", "Jane Doe")] in
  let details := " ACME Corp Payment, Jane Doe " in
  NoDup (add_member_mapping details "Jane Doe" mappings).2.*1
  ∧ ((add_member_mapping details "Jane Doe" mappings).1 = true ↔
     PyStr.strip details ≠ "" ∧ PyStr.strip details ∉ mappings.*1)
  ∧ add_member_mapping details "John Roe"
      (add_member_mapping details "Jane Doe" mappings).2
    = (false, (add_member_mapping details "Jane Doe" mappings).2).
Proof.
  apply (add_member_mapping_unique_keys " ACME Corp Payment, Jane Doe "
           "Jane Doe" "John Roe" [("Dauerauftrag J. Doe", "Jane Doe")]).
  apply NoDup_singleton.
Defined.

(** ** Commit: what it keeps and when it fails *)

Lemma same_person_refl (m : Member) : same_person m m.
Proof. by repeat split. Qed.

Lemma same_person_trans (m1 m2 m3 : Member) :
  same_person m1 m2 → same_person m2 m3 → same_person m1 m3.
Proof.
  intros (? & ? & ? & ? & ?) (? & ? & ? & ? & ?). repeat split; try congruence. auto.
Qed.

Lemma same_directory_refl (ms : Members) : same_directory ms ms.
Proof.
  apply Forall2_same_length_lookup. split; [done|].
  intros i x y Hx Hy. assert (x = y) as -> by congruence.
  split; [done|apply same_person_refl].
Qed.

Lemma same_directory_trans (ms1 ms2 ms3 : Members) :
  same_directory ms1 ms2 → same_directory ms2 ms3 → same_directory ms1 ms3.
Proof.
  unfold same_directory. intros H12. revert ms3.
  induction H12 as [|x y l1 l2 [Hk Hp] _ IH]; intros ms3 H23.
  - by inversion H23.
  - inversion H23 as [|y' z l2' l3 [Hk' Hp'] Hrest]; subst.
    constructor; [|by apply IH]. split; [congruence|by eapply same_person_trans].
Qed.

Lemma same_directory_update (member_id : string) (f : Member → Member)
    (ms : Members) :
  (∀ m, same_person m (f m)) → same_directory ms (update_member member_id f ms).
Proof.
  intros Hf. induction ms as [|[mid m] ms IH]; simpl; [constructor|].
  case_bool_decide.
  - constructor; [by split|apply same_directory_refl].
  - constructor; [|done]. split; [done|apply same_person_refl].
Qed.

Section CommitMore.

Variable clock : nat → Z.

Lemma write_row_inv (member_id : string) (st st' : Commit) (r : Row) :
  write_row clock member_id st r = Some st' →
  ∃ d, Datum r = Some d
    ∧ st_mappings st' = st_mappings st
    ∧ st_members st'
      = update_member member_id
          (put_contribution (period_of r d).1 (period_of r d).2
             (entry_of clock member_id (st_tick st) r d).1)
          (st_members st).
Proof.
  unfold write_row. intros (d & Hd & Hst)%bind_Some. exists d. split; [done|].
  destruct (period_of r d), (entry_of clock member_id (st_tick st) r d).
  by injection Hst as <-.
Qed.

Lemma write_rows_None (member_id : string) (group : list Row) (st : Commit) :
  write_rows clock member_id st group = None ↔ Exists (λ r, Datum r = None) group.
Proof.
  revert st. induction group as [|r group IH]; intros st; simpl.
  - split; [done|]. by intros ?%Exists_nil.
  - rewrite Exists_cons. destruct (Datum r) as [d|] eqn:Hd.
    + destruct (write_row_dated clock member_id st r d Hd) as (st1 & -> & _).
      simpl. rewrite IH. split; [auto|]. by intros [?|?].
    + unfold write_row. rewrite Hd. simpl. split; auto.
Qed.

Lemma write_rows_keeps (member_id : string) (group : list Row)
    (st st' : Commit) :
  write_rows clock member_id st group = Some st' →
  grows (st_members st) (st_members st')
  ∧ same_directory (st_members st) (st_members st').
Proof.
  revert st. induction group as [|r group IH]; intros st; simpl.
  - intros [= ->]. split; [apply grows_refl|apply same_directory_refl].
  - intros (st1 & Hst1 & Hrest)%bind_Some.
    destruct (IH _ Hrest) as [Hg Hd].
    apply write_row_inv in Hst1 as (d & _ & _ & Hms).
    split.
    + eapply grows_trans; [|exact Hg]. rewrite Hms. apply grows_put_contribution.
    + eapply same_directory_trans; [|exact Hd]. rewrite Hms.
      apply same_directory_update. intros m. by repeat split.
Qed.

Lemma process_group_keeps (st st' : Commit) (g : string * list Row) :
  process_group clock st g = Some st' →
  grows (st_members st) (st_members st')
  ∧ same_directory (st_members st) (st_members st').
Proof.
  destruct g as [member_name group]. unfold process_group.
  destruct (find_member_id _ _) as [member_id|].
  - intros (st1 & Hst1 & Hrest)%bind_Some.
    apply bind_Some in Hrest as (row & _ & [= <-]). simpl.
    destruct (write_rows_keeps _ _ _ _ Hst1) as [Hg Hd].
    case_bool_decide.
    + split.
      * eapply grows_trans; [exact Hg|apply grows_set_einfuehrungskurs].
      * eapply same_directory_trans; [exact Hd|].
        apply same_directory_update. intros m. by repeat split.
    + done.
  - intros [= <-]. split; [apply grows_refl|apply same_directory_refl].
Qed.

Lemma process_group_None (st : Commit) (member_name : string)
    (group : list Row) :
  group ≠ [] →
  process_group clock st (member_name, group) = None ↔
  is_Some (find_member_id (st_members st) member_name)
  ∧ Exists (λ r, Datum r = None) group.
Proof.
  intros Hne. unfold process_group.
  destruct (find_member_id _ _) as [member_id|].
  - destruct (write_rows clock member_id st group) as [st1|] eqn:Hw; simpl.
    + destruct (last group) as [row|] eqn:Hlast; [|by apply last_None in Hlast].
      simpl. split; [done|]. intros [_ Hex].
      pose proof (proj2 (write_rows_None member_id group st) Hex). congruence.
    + apply write_rows_None in Hw. split; [eauto|done].
  - split; [done|]. by intros [[? ?] _].
Qed.

Lemma process_groups_keeps (groups : list (string * list Row)) (st : Commit) :
  grows (st_members st) (st_members (process_groups clock st groups).1)
  ∧ same_directory (st_members st) (st_members (process_groups clock st groups).1).
Proof.
  revert st. induction groups as [|g groups IH]; intros st; simpl.
  - split; [apply grows_refl|apply same_directory_refl].
  - destruct (process_group clock st g) as [st1|] eqn:Hg; simpl.
    + destruct (process_group_keeps _ _ _ Hg) as [Hg1 Hd1].
      destruct (IH st1) as [Hg2 Hd2].
      split; [by eapply grows_trans|by eapply same_directory_trans].
    + split; [apply grows_refl|apply same_directory_refl].
Qed.

Lemma process_groups_fails (groups : list (string * list Row)) (st : Commit) :
  Forall (λ g, g.2 ≠ []) groups →
  (process_groups clock st groups).2 = false ↔
  Exists (λ g, is_Some (find_member_id (st_members st) g.1)
               ∧ Exists (λ r, Datum r = None) g.2) groups.
Proof.
  intros Hne. revert st. induction Hne as [|[n g] groups Hg _ IH]; intros st.
  - simpl. split; [done|]. by intros ?%Exists_nil.
  - cbn [process_groups]. rewrite Exists_cons. simpl in Hg.
    destruct (process_group clock st (n, g)) as [st1|] eqn:Hpg.
    + rewrite IH. destruct (process_group_keeps _ _ _ Hpg) as [[Hfind _] _].
      assert (¬ (is_Some (find_member_id (st_members st) n)
                 ∧ Exists (λ r, Datum r = None) g)) as Hno.
      { intros Hx. apply (process_group_None st n g Hg) in Hx. congruence. }
      split.
      * intros Hex. right. eapply Exists_impl; [exact Hex|].
        intros [n' g']. simpl. by rewrite Hfind.
      * intros [Hx|Hex]; [done|]. eapply Exists_impl; [exact Hex|].
        intros [n' g']. simpl. by rewrite Hfind.
    + simpl. split; [|done]. intros _. left.
      by apply (process_group_None st n g Hg).
Qed.

(** X8. A commit, successful or not, leaves the directory in place: the
    same member ids in the same order with the same names, contacts and
    membership classes; a course flag that was set stays set, and every
    entry that the ledger held is still there (possibly overwritten, never
    deleted). *)
Theorem transfer_keeps_directory (df : list Row) (s : Store) :
  same_directory (member_db s)
    (member_db (transfer_to_member_database clock df s).2)
  ∧ ∀ member_id year month,
      recorded (member_db s) member_id year month →
      recorded (member_db (transfer_to_member_database clock df s).2)
        member_id year month.
Proof.
  unfold transfer_to_member_database.
  destruct (process_groups_keeps (groupby_Mitglied df)
              {| st_members := member_db s; st_mappings := categories s;
                 st_tick := 0 |}) as [[_ Hrec] Hdir].
  destruct (process_groups _ _ _) as [st ok]. simpl in *.
  destruct ok; simpl; [done|]. split; [apply same_directory_refl|done].
Qed.

Lemma groupby_Mitglied_nonempty (df : list Row) :
  Forall (λ g, g.2 ≠ []) (groupby_Mitglied df).
Proof.
  apply Forall_forall. intros [k g] [Hk ->]%groupby_Mitglied_elem. simpl.
  apply list_elem_of_omap in Hk as (r & Hr & Hkey). intros Hnil.
  by apply (filter_nil_not_elem_of (λ r, member_key r = Some k) df r Hnil Hkey).
Qed.

(** X9. The commit answers [False] exactly when the batch holds a row
    without a date whose member cell names a member of the directory; the
    member database on disk is then as before.  Rows of unknown members
    never make it fail. *)
Theorem transfer_fails_iff (df : list Row) (s : Store) :
  ((transfer_to_member_database clock df s).1 = false ↔
   ∃ r member_name, r ∈ df ∧ Mitglied r = CStr member_name
     ∧ is_Some (find_member_id (member_db s) member_name)
     ∧ Datum r = None)
  ∧ ((transfer_to_member_database clock df s).1 = false →
     member_db (transfer_to_member_database clock df s).2 = member_db s).
Proof.
  unfold transfer_to_member_database.
  pose proof (process_groups_fails (groupby_Mitglied df)
                {| st_members := member_db s; st_mappings := categories s;
                   st_tick := 0 |} (groupby_Mitglied_nonempty df)) as Hiff.
  destruct (process_groups _ _ _) as [st ok]. simpl in Hiff.
  assert (Hgroups :
    Exists (λ g, is_Some (find_member_id (member_db s) g.1)
                 ∧ Exists (λ r, Datum r = None) g.2) (groupby_Mitglied df)
    ↔ ∃ r member_name, r ∈ df ∧ Mitglied r = CStr member_name
        ∧ is_Some (find_member_id (member_db s) member_name)
        ∧ Datum r = None).
  { rewrite Exists_exists. split.
    - intros ([n g] & [Hk ->]%groupby_Mitglied_elem & Hfind & Hex). simpl in *.
      apply Exists_exists in Hex as (r & [Hkey Hr]%list_elem_of_filter & Hd).
      exists r, n. split_and!; [done| |done..].
      unfold member_key in Hkey. by destruct (Mitglied r); simplify_eq.
    - intros (r & n & Hr & Hm & Hfind & Hd).
      destruct (groupby_Mitglied_row df r n Hr Hm) as (g & Hg & Hrg).
      exists (n, g). split_and!; [done..|]. apply Exists_exists. eauto. }
  destruct ok; simpl.
  - split; [|done]. rewrite <- Hgroups, <- Hiff. done.
  - split; [|done]. rewrite <- Hgroups, <- Hiff. done.
Qed.

Lemma process_groups_strangers (groups : list (string * list Row)) (st : Commit) :
  Forall (λ g, find_member_id (st_members st) g.1 = None) groups →
  process_groups clock st groups = (st, true).
Proof.
  induction 1 as [|[n g] groups Hg _ IH]; [done|].
  cbn [process_groups]. unfold process_group. simpl in Hg. by rewrite Hg.
Qed.

(** X10. A batch in which no member cell names a member of the directory
    is skipped row by row: the commit answers [True] and both stores are as
    before. *)
Theorem transfer_skips_strangers (df : list Row) (s : Store) :
  (∀ r member_name, r ∈ df → Mitglied r = CStr member_name →
     find_member_id (member_db s) member_name = None) →
  transfer_to_member_database clock df s = (true, s).
Proof.
  intros Hnone. unfold transfer_to_member_database.
  rewrite process_groups_strangers; [by destruct s|].
  apply Forall_forall. intros [n g] [Hk ->]%groupby_Mitglied_elem. simpl.
  apply list_elem_of_omap in Hk as (r & Hr & Hkey).
  apply (Hnone r n Hr). unfold member_key in Hkey.
  by destruct (Mitglied r); simplify_eq.
Qed.

End CommitMore.

(** John Roe is no member of the directory of [ledger0]. *)
Lemma transfer_skips_strangers_witness :
  transfer_to_member_database (λ _ : nat, 1747130400%Z) batch_stranger ledger0
  = (true, ledger0).
Proof.
  apply (transfer_skips_strangers (λ _ : nat, 1747130400%Z) batch_stranger ledger0).
  intros r member_name Hr Hm.
  apply list_elem_of_singleton in Hr as ->. injection Hm as <-. reflexivity.
Defined.

(** ** Commit: what the mapping store learns *)

Section CommitLearns.

Variable clock : nat → Z.

Lemma process_group_learns (st st' : Commit) (member_name : string)
    (group : list Row) :
  process_group clock st (member_name, group) = Some st' →
  NoDup (st_mappings st).*1 →
  NoDup (st_mappings st').*1
  ∧ ∀ kv, kv ∈ st_mappings st' →
      kv ∈ st_mappings st
      ∨ (is_Some (find_member_id (st_members st) member_name)
         ∧ ∃ row, row ∈ group
             ∧ kv = (PyStr.strip (PyStr.strip (py_str (Details row))),
                     PyStr.strip member_name)
             ∧ kv.1 ≠ "").
Proof.
  unfold process_group.
  destruct (find_member_id _ _) as [member_id|].
  - intros (st1 & Hst1 & Hrest)%bind_Some Hnd.
    apply bind_Some in Hrest as (row & Hlast & [= <-]). simpl.
    rewrite <- (write_rows_mappings _ _ _ _ _ Hst1) in Hnd |- *.
    split; [by apply add_member_mapping_NoDup|].
    intros kv.
    destruct (add_member_mapping_appends (PyStr.strip (py_str (Details row)))
                (PyStr.strip member_name) (st_mappings st1))
      as [(_ & Hne & _ & ->)|(_ & _ & ->)]; [|by left].
    intros [Hold|Hnew%list_elem_of_singleton]%elem_of_app; [by left|].
    right. split; [by eexists|]. exists row.
    split; [by eapply last_Some_elem_of|]. by subst kv.
  - intros [= <-] Hnd. split; [done|]. by left.
Qed.

Lemma process_groups_learns (groups : list (string * list Row)) (st : Commit) :
  NoDup (st_mappings st).*1 →
  NoDup (st_mappings (process_groups clock st groups).1).*1
  ∧ ∀ kv, kv ∈ st_mappings (process_groups clock st groups).1 →
      kv ∈ st_mappings st
      ∨ ∃ member_name group row,
          (member_name, group) ∈ groups ∧ row ∈ group
          ∧ is_Some (find_member_id (st_members st) member_name)
          ∧ kv = (PyStr.strip (PyStr.strip (py_str (Details row))),
                  PyStr.strip member_name)
          ∧ kv.1 ≠ "".
Proof.
  revert st. induction groups as [|[n g] groups IH]; intros st Hnd.
  - simpl. split; [done|]. by left.
  - cbn [process_groups].
    destruct (process_group clock st (n, g)) as [st1|] eqn:Hpg.
    + destruct (process_group_learns _ _ _ _ Hpg Hnd) as [Hnd1 Hnew1].
      destruct (process_group_keeps _ _ _ _ Hpg) as [[Hfind _] _].
      destruct (IH st1 Hnd1) as [Hnd2 Hnew2]. split; [done|].
      intros kv [Hkv|(n' & g' & row & Hin & Hrow & Hres & Heq & Hne)]%Hnew2.
      * destruct (Hnew1 kv Hkv) as [?|(Hres & row & Hrow & Heq & Hne)]; [by left|].
        right. exists n, g, row.
        split_and!; [apply list_elem_of_here|done..].
      * right. exists n', g', row. rewrite Hfind in Hres.
        split_and!; [by apply list_elem_of_further|done..].
    + simpl. split; [done|]. by left.
Qed.

(** X11. A commit keeps the keys of the mapping store unique, and what it
    adds to the store comes from the batch: the key is the trimmed details
    text, not empty, of a row whose member cell names a member of the
    directory, and the value is that member cell, trimmed. *)
Theorem transfer_learns_from_batch (df : list Row) (s : Store) :
  NoDup (categories s).*1 →
  NoDup (categories (transfer_to_member_database clock df s).2).*1
  ∧ ∀ k v, (k, v) ∈ categories (transfer_to_member_database clock df s).2 →
      (k, v) ∈ categories s
      ∨ ∃ r member_name,
          r ∈ df ∧ Mitglied r = CStr member_name
          ∧ is_Some (find_member_id (member_db s) member_name)
          ∧ k = PyStr.strip (PyStr.strip (py_str (Details r)))
          ∧ k ≠ "" ∧ v = PyStr.strip member_name.
Proof.
  intros Hnd. unfold transfer_to_member_database.
  destruct (process_groups_learns (groupby_Mitglied df)
              {| st_members := member_db s; st_mappings := categories s;
                 st_tick := 0 |} Hnd) as [Hnd' Hnew].
  destruct (process_groups _ _ _) as [st ok]. simpl in *.
  assert (Hgoal : ∀ k v, (k, v) ∈ st_mappings st →
      (k, v) ∈ categories s
      ∨ ∃ r member_name,
          r ∈ df ∧ Mitglied r = CStr member_name
          ∧ is_Some (find_member_id (member_db s) member_name)
          ∧ k = PyStr.strip (PyStr.strip (py_str (Details r)))
          ∧ k ≠ "" ∧ v = PyStr.strip member_name).
  { intros k v [?|(n & g & row & [Hk ->]%groupby_Mitglied_elem & Hrow & Hres
                   & [= -> ->] & Hne)]%Hnew; [by left|].
    right. apply list_elem_of_filter in Hrow as [Hkey Hrow].
    exists row, n. split_and!; [done| |done..].
    unfold member_key in Hkey. by destruct (Mitglied row); simplify_eq. }
  by destruct ok.
Qed.

(** After a successful commit every row of a member of the directory has
    an entry at its period. *)
Lemma process_groups_records (groups : list (string * list Row))
    (st st' : Commit) :
  Forall (λ g, g.2 ≠ []) groups →
  process_groups clock st groups = (st', true) →
  ∀ member_name group member_id r d,
    (member_name, group) ∈ groups →
    find_member_id (st_members st) member_name = Some member_id →
    r ∈ group → Datum r = Some d →
    recorded (st_members st') member_id (period_of r d).1 (period_of r d).2.
Proof.
  intros Hne. revert st. induction Hne as [|[n g] groups Hg _ IH]; intros st.
  - intros _ ????? Hin. by apply elem_of_nil in Hin.
  - cbn [process_groups]. simpl in Hg.
    destruct (process_group clock st (n, g)) as [st1|] eqn:Hpg; [|done].
    intros Hrest member_name group member_id r d Hin Hfind Hr Hd.
    destruct (process_group_keeps _ _ _ _ Hpg) as [[Hfind1 _] _].
    pose proof (process_groups_keeps clock groups st1) as [[_ Hkeep] _].
    rewrite Hrest in Hkeep. simpl in Hkeep.
    apply elem_of_cons in Hin as [[= -> ->]|Hin].
    + apply Hkeep.
      assert (Forall (λ r, is_Some (Datum r)) g) as Hdated.
      { apply Forall_forall. intros r' Hr'.
        destruct (Datum r') eqn:Hd'; [by eexists|]. exfalso.
        assert (process_group clock st (n, g) = None); [|congruence].
        apply process_group_None; [done|]. split; [by eexists|].
        apply Exists_exists. eauto. }
      destruct (process_group_dated clock n g st Hg Hdated) as (st1' & Hst1' & _ & Hrec).
      assert (st1' = st1) as -> by congruence. by eapply Hrec.
    + eapply IH; [done..| |done|done]. by rewrite Hfind1.
Qed.

Lemma transfer_records (df : list Row) (s s' : Store) (r : Row)
    (member_id year month : string) :
  transfer_to_member_database clock df s = (true, s') →
  r ∈ df → targets (member_db s) r member_id year month →
  recorded (member_db s') member_id year month.
Proof.
  unfold transfer_to_member_database.
  intros Ht Hr (n & d & Hm & Hfind & Hd & Hp).
  destruct (process_groups _ _ _) as [st ok] eqn:Hpg.
  destruct ok; [|done]. injection Ht as <-. simpl.
  destruct (groupby_Mitglied_row df r n Hr Hm) as (g & Hg & Hrg).
  pose proof (process_groups_records _ _ _ (groupby_Mitglied_nonempty df) Hpg
                n g member_id r d Hg Hfind Hrg Hd) as Hrec.
  by rewrite Hp in Hrec.
Qed.

End CommitLearns.

(** The commit of [batch_two_details] on the empty mapping store. *)
Lemma transfer_learns_from_batch_witness :
  let clock := λ _ : nat, 1747130400%Z in
  NoDup (categories (transfer_to_member_database clock batch_two_details ledger0).2).*1
  ∧ ∀ k v,
      (k, v) ∈ categories (transfer_to_member_database clock batch_two_details ledger0).2 →
      (k, v) ∈ categories ledger0
      ∨ ∃ r member_name,
          r ∈ batch_two_details ∧ Mitglied r = CStr member_name
          ∧ is_Some (find_member_id (member_db ledger0) member_name)
          ∧ k = PyStr.strip (PyStr.strip (py_str (Details r)))
          ∧ k ≠ "" ∧ v = PyStr.strip member_name.
Proof.
  apply (transfer_learns_from_batch (λ _ : nat, 1747130400%Z)
           batch_two_details ledger0).
  apply NoDup_nil_2.
Defined.

(** ** Validation and the transfer button *)

Lemma validate_import_data_verdict (members : Members) (df : list Row) :
  (validate_import_data members df).1 = true ↔
  Forall complete df ∧ NoDup (omap group_key df)
  ∧ Forall (λ r, existing_entry members r = None) df.
Proof.
  unfold validate_import_data.
  destruct (existsb (λ r, missing (Zahlungszweck r)) df) eqn:Hz.
  { split; [done|]. intros (Hc & _). apply not_false_iff_true in Hz. destruct Hz.
    apply existsb_missing_false. eapply Forall_impl; [exact Hc|]. by intros r (? & _). }
  apply existsb_missing_false in Hz.
  destruct (existsb (λ r, missing (Mitglied r)) df) eqn:Hm.
  { split; [done|]. intros (Hc & _). apply not_false_iff_true in Hm. destruct Hm.
    apply existsb_missing_false. eapply Forall_impl; [exact Hc|]. by intros r (_ & ? & _). }
  apply existsb_missing_false in Hm.
  destruct (existsb (λ r, missing (Monat r)) df) eqn:Hmo.
  { split; [done|]. intros (Hc & _). apply not_false_iff_true in Hmo. destruct Hmo.
    apply existsb_missing_false. eapply Forall_impl; [exact Hc|]. by intros r (_ & _ & ?). }
  apply existsb_missing_false in Hmo.
  assert (Hc : Forall complete df).
  { rewrite Forall_forall in Hz, Hm, Hmo. apply Forall_forall. intros r Hr.
    split_and!; auto. }
  simpl. case_bool_decide as Hdup; simpl.
  - apply duplicates_nil in Hdup. case_bool_decide as Hconf; simpl.
    + apply check_existing_entries_nil in Hconf. done.
    + split; [done|]. intros (_ & _ & Hno).
      by apply check_existing_entries_nil in Hno.
  - split; [done|]. intros (_ & Hnd & _). by apply duplicates_nil in Hnd.
Qed.

(** X12. The verdict of validation does not depend on the order of the rows
    of the batch. *)
Theorem validate_import_data_permutation (members : Members) (df df' : list Row) :
  df ≡ₚ df' →
  (validate_import_data members df).1 = (validate_import_data members df').1.
Proof.
  intros Hperm.
  assert (Hiff : (validate_import_data members df).1 = true
                 ↔ (validate_import_data members df').1 = true).
  { rewrite !validate_import_data_verdict. by rewrite Hperm. }
  destruct (validate_import_data members df).1,
           (validate_import_data members df').1; try done.
  - symmetry. by apply Hiff.
  - by apply Hiff.
Qed.

(** [batch_two_details] and the same batch in reverse order. *)
Lemma validate_import_data_permutation_witness :
  (validate_import_data (member_db ledger0) batch_two_details).1
  = (validate_import_data (member_db ledger0) (reverse batch_two_details)).1.
Proof.
  apply (validate_import_data_permutation (member_db ledger0)
           batch_two_details (reverse batch_two_details)).
  apply Permutation_sym, reverse_Permutation.
Defined.

(** X13. Pressing the transfer button twice commits once: when the first
    press has transferred a table that holds a payment dated 2025 with one of
    the twelve month labels for a member of the directory (named without
    surrounding blanks), the second press on the same table is refused by
    validation and both stores stay as the first press left them. *)
Theorem transfer_button_twice (clock clock' : nat → Z) (df : list Row)
    (s s1 : Store) (r : Row) (d : Timestamp)
    (member_name member_id month_num : string) :
  transfer_button clock df s = (Some true, s1) →
  r ∈ df → Mitglied r = CStr member_name →
  PyStr.strip member_name = member_name →
  find_member_id (member_db s) member_name = Some member_id →
  Datum r = Some d → ts_year d = 2025%nat →
  month_to_num !! PyStr.strip (py_str (Monat r)) = Some month_num →
  transfer_button clock' df s1 = (None, s1).
Proof.
  unfold transfer_button.
  intros Hfirst Hr Hm Hstrip Hfind Hd Hyear Hnum.
  destruct (validate_import_data (member_db s) df) as [valid msg]; destruct valid;
    [|done].
  destruct (transfer_to_member_database clock df s) as [ok s1'] eqn:Ht.
  injection Hfirst as -> ->.
  assert (Hrec : recorded (member_db s1) member_id "2025" month_num).
  { eapply (transfer_records clock df s s1 r); [done..|].
    exists member_name, d. split_and!; [done..|].
    unfold period_of. rewrite Hnum, Hyear. done. }
  assert (Hfind1 : find_member_id (member_db s1) member_name = Some member_id).
  { pose proof (process_groups_keeps clock (groupby_Mitglied df)
                  {| st_members := member_db s; st_mappings := categories s;
                     st_tick := 0 |}) as [[Hf _] _].
    unfold transfer_to_member_database in Ht.
    destruct (process_groups _ _ _) as [st ok]. destruct ok; [|done].
    injection Ht as <-. simpl in *. by rewrite Hf. }
  destruct (validate_import_data (member_db s1) df) as [valid msg'] eqn:Hv.
  destruct valid; [|done]. exfalso.
  assert ((validate_import_data (member_db s1) df).1 = true) as Hv1 by by rewrite Hv.
  apply validate_import_data_verdict in Hv1 as (_ & _ & Hno).
  rewrite Forall_forall in Hno. specialize (Hno r Hr).
  destruct Hrec as (m & Hgm & Hentry).
  assert (existing_entry (member_db s1) r = Some (conflict_line r)) as Hsome.
  { apply existing_entry_Some. split; [|done].
    exists member_id, m, month_num. rewrite Hm. simpl. rewrite Hstrip. done. }
  congruence.
Qed.

(** [batch_two_details] is transferred on [ledger0] and offered again. *)
Lemma transfer_button_twice_witness :
  transfer_button (λ _ : nat, 1747216800%Z) batch_two_details ledger_two_details
  = (None, ledger_two_details).
Proof.
  apply (transfer_button_twice (λ _ : nat, 1747130400%Z) (λ _ : nat, 1747216800%Z)
           batch_two_details ledger0 ledger_two_details
           (txn 0 2025 1 15 "Dauerauftrag J. Doe" 50
              "Mitgliederbeitrag" "Jane Doe" "Januar" "SL250115579B1869")
           {| ts_year := 2025; ts_month := 1; ts_day := 15 |}
           "Jane Doe" "M001" "01").
  - vm_compute. reflexivity.
  - left.
  - reflexivity.
  - reflexivity.
  - reflexivity.
  - reflexivity.
  - reflexivity.
  - reflexivity.
Defined.

(** ** Commit: where the entries of the ledger come from *)

Lemma entry_at_put (member_id year month : string) (entry : Contribution)
    (ms : Members) (member_id' year' month' : string) :
  entry_at (update_member member_id (put_contribution year month entry) ms)
    member_id' year' month'
  = if decide (member_id = member_id' ∧ year = year' ∧ month = month')
    then (λ _, entry) <$> get_member ms member_id'
    else entry_at ms member_id' year' month'.
Proof.
  unfold entry_at. rewrite get_member_update.
  destruct (decide (member_id = member_id')) as [<-|Hid].
  - destruct (get_member ms member_id) as [m|]; simpl.
    + rewrite contributions_of_put.
      destruct (decide (year = year')) as [<-|Hy].
      * destruct (decide (month = month')) as [<-|Hm].
        -- by rewrite decide_True, lookup_insert_eq.
        -- rewrite decide_False by (by intros (_ & _ & ?)).
           by rewrite lookup_insert_ne.
      * by rewrite decide_False by (by intros (_ & ? & _)).
    + by destruct (decide _).
  - by rewrite decide_False by (by intros (? & _)).
Qed.

Lemma entry_at_update_same (member_id : string) (f : Member → Member)
    (ms : Members) (member_id' year month : string) :
  (∀ m, contributions (f m) = contributions m) →
  entry_at (update_member member_id f ms) member_id' year month
  = entry_at ms member_id' year month.
Proof.
  intros Hf. unfold entry_at. rewrite get_member_update.
  destruct (decide _) as [<-|]; [|done].
  destruct (get_member ms member_id) as [m|]; simpl; [|done].
  unfold contributions_of. by rewrite Hf.
Qed.

Section CommitEntries.

Variable clock : nat → Z.

Lemma write_rows_entries (member_id : string) (group : list Row)
    (st st' : Commit) (member_id' year month : string) :
  write_rows clock member_id st group = Some st' →
  entry_at (st_members st') member_id' year month
  = entry_at (st_members st) member_id' year month
  ∨ ∃ r d tick,
      r ∈ group ∧ member_id' = member_id ∧ Datum r = Some d
      ∧ period_of r d = (year, month)
      ∧ entry_at (st_members st') member_id' year month
        = Some (entry_of clock member_id tick r d).1.
Proof.
  revert st. induction group as [|r group IH]; intros st; simpl.
  - intros [= ->]. by left.
  - intros (st1 & Hst1 & Hrest)%bind_Some.
    destruct (IH _ Hrest) as [Heq|(r' & d & tick & Hr' & Hrest')].
    + apply write_row_inv in Hst1 as (d & Hd & _ & Hms).
      rewrite Heq, Hms, entry_at_put.
      destruct (decide _) as [(<- & Hy & Hm)|]; [|by left].
      destruct (get_member (st_members st) member_id) as [m|] eqn:Hget; simpl.
      * right. exists r, d, (st_tick st).
        split_and!; [left|done|done| |done].
        destruct (period_of r d). simpl in *. by subst.
      * left. unfold entry_at. by rewrite Hget.
    + right. exists r', d, tick. destruct Hrest' as (? & ? & ? & ?).
      split_and!; [by right|done..].
Qed.

Lemma process_group_entries (st st' : Commit) (member_name : string)
    (group : list Row) (member_id year month : string) :
  process_group clock st (member_name, group) = Some st' →
  entry_at (st_members st') member_id year month
  = entry_at (st_members st) member_id year month
  ∨ ∃ r d tick,
      r ∈ group ∧ find_member_id (st_members st) member_name = Some member_id
      ∧ Datum r = Some d ∧ period_of r d = (year, month)
      ∧ entry_at (st_members st') member_id year month
        = Some (entry_of clock member_id tick r d).1.
Proof.
  unfold process_group.
  destruct (find_member_id _ _) as [mid|]; [|intros [= <-]; by left].
  intros (st1 & Hst1 & Hrest)%bind_Some.
  apply bind_Some in Hrest as (row & _ & [= <-]). simpl.
  assert (Hflag : entry_at
            (if bool_decide (PyStr.strip (py_str (Zahlungszweck row))
                             = "Einf√ºhrungskurs")
             then update_member mid set_einfuehrungskurs (st_members st1)
             else st_members st1) member_id year month
          = entry_at (st_members st1) member_id year month).
  { case_bool_decide; [by apply entry_at_update_same|done]. }
  rewrite Hflag.
  destruct (write_rows_entries mid group st st1 member_id year month Hst1)
    as [?|(r & d & tick & Hr & -> & Hd & Hp & He)]; [by left|].
  right. by exists r, d, tick.
Qed.

Lemma process_groups_entries (groups : list (string * list Row)) (st : Commit)
    (member_id year month : string) :
  entry_at (st_members (process_groups clock st groups).1) member_id year month
  = entry_at (st_members st) member_id year month
  ∨ ∃ member_name group r d tick,
      (member_name, group) ∈ groups ∧ r ∈ group
      ∧ find_member_id (st_members st) member_name = Some member_id
      ∧ Datum r = Some d ∧ period_of r d = (year, month)
      ∧ entry_at (st_members (process_groups clock st groups).1)
          member_id year month
        = Some (entry_of clock member_id tick r d).1.
Proof.
  revert st. induction groups as [|[n g] groups IH]; intros st.
  - by left.
  - cbn [process_groups].
    destruct (process_group clock st (n, g)) as [st1|] eqn:Hpg; [|by left].
    destruct (process_group_keeps _ _ _ _ Hpg) as [[Hfind _] _].
    destruct (IH st1) as [Heq|(n' & g' & r & d & tick & Hin & Hr & Hf & Hrest)].
    + rewrite Heq.
      destruct (process_group_entries st st1 n g member_id year month Hpg)
        as [?|(r & d & tick & Hr & Hf & Hd & Hp & He)]; [by left|].
      right. exists n, g, r, d, tick. split_and!; [left|done..].
    + right. exists n', g', r, d, tick. rewrite Hfind in Hf.
      destruct Hrest as (? & ? & ?). split_and!; [by right|done..].
Qed.

(** X14. The commit writes only where the batch points: an entry of the
    member database after the commit is the entry that was there before, or
    it was built from a dated row of the batch whose member cell names that
    member and whose period is that year and month.  In particular, a period
    that no row of the batch targets keeps its entry. *)
Theorem transfer_writes_only_targets (df : list Row) (s : Store)
    (member_id year month : string) :
  (entry_at (member_db (transfer_to_member_database clock df s).2)
     member_id year month
   = entry_at (member_db s) member_id year month
   ∨ ∃ r d tick,
       r ∈ df ∧ targets (member_db s) r member_id year month
       ∧ Datum r = Some d
       ∧ entry_at (member_db (transfer_to_member_database clock df s).2)
           member_id year month
         = Some (entry_of clock member_id tick r d).1)
  ∧ ((∀ r, r ∈ df → ¬ targets (member_db s) r member_id year month) →
     entry_at (member_db (transfer_to_member_database clock df s).2)
       member_id year month
     = entry_at (member_db s) member_id year month).
Proof.
  assert (Hmain :
    entry_at (member_db (transfer_to_member_database clock df s).2)
      member_id year month
    = entry_at (member_db s) member_id year month
    ∨ ∃ r d tick,
        r ∈ df ∧ targets (member_db s) r member_id year month
        ∧ Datum r = Some d
        ∧ entry_at (member_db (transfer_to_member_database clock df s).2)
            member_id year month
          = Some (entry_of clock member_id tick r d).1).
  { unfold transfer_to_member_database.
    pose proof (process_groups_entries (groupby_Mitglied df)
                  {| st_members := member_db s; st_mappings := categories s;
                     st_tick := 0 |} member_id year month) as Hent.
    destruct (process_groups _ _ _) as [st ok]. simpl in Hent.
    destruct ok; simpl; [|by left].
    destruct Hent as [?|(n & g & r & d & tick & [Hk ->]%groupby_Mitglied_elem
                         & [Hkey Hr]%list_elem_of_filter & Hf & Hd & Hp & He)];
      [by left|].
    right. exists r, d, tick. split_and!; [done| |done..].
    exists n, d. split_and!; [|done..].
    unfold member_key in Hkey. by destruct (Mitglied r); simplify_eq. }
  split; [exact Hmain|].
  intros Hno. destruct Hmain as [?|(r & _ & _ & Hr & Ht & _)]; [done|].
  by destruct (Hno r Hr).
Qed.

End CommitEntries.

(** ** Outstanding payments after a commit, and the summary *)

Lemma paid_not_outstanding (now : Timestamp) (m : Member) (month : string) :
  is_Some (contributions_of m "2025" !! month) →
  month ∉ (calculate_outstanding_payments now m).1.
Proof.
  intros Hpaid. unfold calculate_outstanding_payments.
  destruct (Qeq_bool _ _); [apply not_elem_of_nil|].
  destruct (outstanding_loop (monthly_amount_of (default "Aktiv" (mitgliedsform m)))
              (dom (contributions_of m "2025")) (seq 1 (ts_month now)) ([], 0%Q))
    as [-> _].
  simpl. intros [Hout _]%list_elem_of_filter. apply Hout. by apply elem_of_dom.
Qed.

(** X15. A month of 2025 that a commit has written for a member is not
    asked for again: after a successful commit, a row of the batch that was
    written under a month of 2025 takes that month off the member's
    outstanding months, whatever the clock shows. *)
Theorem transferred_month_not_outstanding (clock : nat → Z) (now : Timestamp)
    (df : list Row) (s s' : Store) (r : Row) (member_id month : string)
    (m : Member) :
  transfer_to_member_database clock df s = (true, s') →
  r ∈ df → targets (member_db s) r member_id "2025" month →
  get_member (member_db s') member_id = Some m →
  month ∉ (calculate_outstanding_payments now m).1.
Proof.
  intros Ht Hr Htarget Hget. apply paid_not_outstanding.
  destruct (transfer_records clock df s s' r member_id "2025" month Ht Hr Htarget)
    as (m' & Hm' & Hrec).
  by assert (m' = m) as -> by congruence.
Qed.

(** After the commit of [batch_two_details], January is not outstanding in
    June. *)
Lemma transferred_month_not_outstanding_witness :
  "01" ∉ (calculate_outstanding_payments
            {| ts_year := 2025; ts_month := 6; ts_day := 10 |}
            jane_doe_two_details).1.
Proof.
  apply (transferred_month_not_outstanding (λ _ : nat, 1747130400%Z)
           {| ts_year := 2025; ts_month := 6; ts_day := 10 |}
           batch_two_details ledger0 ledger_two_details
           (txn 0 2025 1 15 "Dauerauftrag J. Doe" 50
              "Mitgliederbeitrag" "Jane Doe" "Januar" "SL250115579B1869")
           "M001" "01" jane_doe_two_details).
  - vm_compute. reflexivity.
  - left.
  - exists "Jane Doe", {| ts_year := 2025; ts_month := 1; ts_day := 15 |}.
    repeat split.
  - reflexivity.
Defined.

Lemma outstanding_amount_bounds (now : Timestamp) (m : Member) :
  (calculate_outstanding_payments now m).1 ≠ [] →
  (25 <= (calculate_outstanding_payments now m).2)%Q
  ∧ ((calculate_outstanding_payments now m).2
     <= 50 * inject_Z (Z.of_nat (ts_month now)))%Q.
Proof.
  unfold calculate_outstanding_payments.
  set (form := default "Aktiv" (mitgliedsform m)).
  destruct (Qeq_bool (monthly_amount_of form) 0) eqn:Hzero; [done|].
  destruct (outstanding_loop (monthly_amount_of form)
              (dom (contributions_of m "2025")) (seq 1 (ts_month now)) ([], 0%Q))
    as [-> ->].
  simpl. set (unpaid := filter _ _). intros Hne.
  assert (Hlen : (1 ≤ length unpaid ≤ ts_month now)%nat).
  { split; [destruct unpaid; [done|simpl; lia]|].
    etrans; [apply length_filter|]. by rewrite length_fmap, length_seq. }
  assert (H1 : (1 <= inject_Z (Z.of_nat (length unpaid)))%Q).
  { change 1%Q with (inject_Z 1). rewrite <- Zle_Qle. lia. }
  assert (H2 : (inject_Z (Z.of_nat (length unpaid))
                <= inject_Z (Z.of_nat (ts_month now)))%Q).
  { rewrite <- Zle_Qle. lia. }
  unfold monthly_amount_of in *.
  repeat case_bool_decide; [split; lra..|done].
Qed.

Lemma summary_step_spec (now : Timestamp) (acc : Summary) (im : string * Member) :
  let s := summary_step now acc im in
  ∃ c j : nat,
    c = (if decide (mitgliedsform im.2 ≠ Some "Inaktiv") then 1 else 0)%nat
    ∧ (j ≤ c)%nat
    ∧ total_members s = (total_members acc + c)%nat
    ∧ members_with_outstanding s = (members_with_outstanding acc + j)%nat
    ∧ (total_outstanding_amount acc + 25 * inject_Z (Z.of_nat j)
       <= total_outstanding_amount s)%Q
    ∧ (total_outstanding_amount s
       <= total_outstanding_amount acc
          + 50 * inject_Z (Z.of_nat (ts_month now * j)))%Q.
Proof.
  unfold summary_step. rewrite bool_decide_decide.
  destruct (decide (mitgliedsform im.2 = Some "Inaktiv")) as [Hin|Hact].
  - exists 0%nat, 0%nat. rewrite decide_False by (by intros ?).
    rewrite Nat.mul_0_r. change (inject_Z (Z.of_nat 0)) with 0%Q.
    split_and!; [done|lia|lia|lia|lra|lra].
  - rewrite decide_True by done.
    pose proof (outstanding_amount_bounds now im.2) as Hb.
    destruct (calculate_outstanding_payments now im.2) as [months amount].
    simpl in Hb. rewrite bool_decide_decide.
    destruct (decide (months = [])) as [->|Hne]; cbn [total_members
      members_with_outstanding total_outstanding_amount].
    + exists 1%nat, 0%nat. rewrite Nat.mul_0_r.
      change (inject_Z (Z.of_nat 0)) with 0%Q.
      split_and!; [done|lia|lia|lia|lra|lra].
    + destruct (Hb Hne) as [Hb1 Hb2].
      exists 1%nat, 1%nat. rewrite Nat.mul_1_r.
      change (inject_Z (Z.of_nat 1)) with 1%Q.
      split_and!; [done|lia|lia|lia|lra|lra].
Qed.

Lemma summary_loop (now : Timestamp) (members : list (string * Member))
    (acc : Summary) :
  let s := foldl (summary_step now) acc members in
  total_members s
  = (total_members acc
     + length (filter (λ im, mitgliedsform im.2 ≠ Some "Inaktiv") members))%nat
  ∧ ∃ k, members_with_outstanding s = (members_with_outstanding acc + k)%nat
      ∧ (k ≤ length (filter (λ im, mitgliedsform im.2 ≠ Some "Inaktiv") members))%nat
      ∧ (total_outstanding_amount acc + 25 * inject_Z (Z.of_nat k)
         <= total_outstanding_amount s)%Q
      ∧ (total_outstanding_amount s
         <= total_outstanding_amount acc
            + 50 * inject_Z (Z.of_nat (ts_month now * k)))%Q.
Proof.
  revert acc. induction members as [|im members IH]; intros acc.
  - simpl. split; [lia|]. exists 0%nat. rewrite Nat.mul_0_r.
    change (inject_Z (Z.of_nat 0)) with 0%Q.
    split_and!; [lia|lia|lra|lra].
  - cbn [foldl]. cbv zeta.
    destruct (IH (summary_step now acc im)) as (Htot & k & Hk & Hle & Hlow & Hup).
    destruct (summary_step_spec now acc im)
      as (c & j & Hc & Hjc & Htot1 & Hk1 & Hlow1 & Hup1).
    rewrite Htot, Hk, Htot1, Hk1, filter_cons.
    assert (Hlen : length (if decide (mitgliedsform im.2 ≠ Some "Inaktiv")
                           then im :: filter (λ im, mitgliedsform im.2 ≠ Some "Inaktiv") members
                           else filter (λ im, mitgliedsform im.2 ≠ Some "Inaktiv") members)
                   = (c + length (filter (λ im, mitgliedsform im.2 ≠ Some "Inaktiv") members))%nat).
    { rewrite Hc. by destruct (decide _). }
    rewrite Hlen. split; [lia|]. exists (j + k)%nat.
    split_and!; [lia|lia|..].
    + rewrite Nat2Z.inj_add, inject_Z_plus. lra.
    + rewrite Nat.mul_add_distr_l, Nat2Z.inj_add, inject_Z_plus. lra.
Qed.

(** X16. In the summary of outstanding payments, the members counted are
    those whose class is not Inaktiv; the members with outstanding payments
    are among them, and the total lies between 25.0 for each of them and
    50.0 for each of them and each month up to the clock's month. *)
Theorem get_outstanding_summary_bounds (now : Timestamp) (members : Members) :
  let s := get_outstanding_summary now members in
  total_members s
  = length (filter (λ im, mitgliedsform im.2 ≠ Some "Inaktiv") members)
  ∧ (members_with_outstanding s ≤ total_members s)%nat
  ∧ (25 * inject_Z (Z.of_nat (members_with_outstanding s))
     <= total_outstanding_amount s)%Q
  ∧ (total_outstanding_amount s
     <= 50 * inject_Z (Z.of_nat (ts_month now * members_with_outstanding s)))%Q.
Proof.
  unfold get_outstanding_summary, Members in *.
  destruct (summary_loop now members
              {| total_members := 0; members_with_outstanding := 0;
                 total_outstanding_amount := 0%Q |})
    as (Htot & k & Hk & Hle & Hlow & Hup).
  simpl in *. rewrite Htot, Hk. simpl.
  split_and!; [done|lia|lra|lra].
Qed.

(** ** New members *)

Lemma string_app_assoc (s1 s2 s3 : string) :
  (s1 +:+ s2) +:+ s3 = s1 +:+ (s2 +:+ s3).
Proof.
  induction s1 as [|a s1 IH]; [done|].
  change (String a ((s1 +:+ s2) +:+ s3) = String a (s1 +:+ (s2 +:+ s3))).
  by f_equal.
Qed.

Lemma string_app_nil_r (s : string) : s +:+ "" = s.
Proof.
  induction s as [|a s IH]; [done|].
  change (String a (s +:+ "") = String a s). by f_equal.
Qed.

Lemma number_app (p s : string) (acc : nat) :
  Plain.number acc (p +:+ s) = Plain.number acc p ≫= λ v, Plain.number v s.
Proof.
  revert acc. induction p as [|a p IH]; intros acc; [done|].
  change (String a p +:+ s) with (String a (p +:+ s)). simpl.
  destruct (Plain.digit a); simpl; [apply IH|done].
Qed.

Lemma number_is_Some (s : string) (acc : nat) :
  forallb (λ a, bool_decide (is_Some (Plain.digit a)))
    (String.list_ascii_of_string s) = true
  ↔ is_Some (Plain.number acc s).
Proof.
  revert acc. induction s as [|a s IH]; intros acc; simpl.
  - split; [by eexists|done].
  - rewrite andb_true_iff, bool_decide_eq_true.
    destruct (Plain.digit a) as [d|]; simpl.
    + rewrite IH. split; [by intros [_ ?]|]. split; [by eexists|done].
    + split; [by intros [[? ?] _]|by intros [? ?]].
Qed.

Lemma digit_pretty_N_char (x : N) :
  (x < 10)%N → Plain.digit (pretty_N_char x) = Some (N.to_nat x).
Proof.
  intros Hx.
  assert (x = 0 ∨ x = 1 ∨ x = 2 ∨ x = 3 ∨ x = 4 ∨ x = 5 ∨ x = 6 ∨ x = 7
          ∨ x = 8 ∨ x = 9)%N as Hcases by lia.
  repeat (destruct Hcases as [->|Hcases]; [reflexivity|]). by subst.
Qed.

Lemma pretty_N_go_number (x : N) :
  ∃ p, (∀ s, pretty_N_go x s = p +:+ s)
       ∧ Plain.number 0 p = Some (N.to_nat x)
       ∧ (x ≠ 0%N → p ≠ "").
Proof.
  induction (N.lt_wf_0 x) as [x _ IH].
  destruct (decide (x = 0%N)) as [->|Hx].
  - exists "". split; [intros s; by rewrite pretty_N_go_0|done].
  - destruct (IH (x `div` 10)%N) as (p & Hp & Hnum & _).
    { apply N.div_lt; lia. }
    exists (p +:+ String (pretty_N_char (x `mod` 10)) "").
    split_and!.
    + intros s. rewrite pretty_N_go_step by lia.
      by rewrite Hp, string_app_assoc.
    + rewrite number_app, Hnum. simpl.
      rewrite digit_pretty_N_char by (apply N.mod_lt; lia). simpl. f_equal.
      pose proof (N.div_mod x 10). lia.
    + intros _. by destruct p.
Qed.

Lemma number_pretty (n : nat) :
  Plain.number 0 (pretty n) = Some n ∧ pretty n ≠ "".
Proof.
  unfold pretty, pretty_nat, pretty, pretty_N.
  case_decide as Hn.
  - assert (n = 0)%nat as -> by lia. done.
  - destruct (pretty_N_go_number (N.of_nat n)) as (p & Hp & Hnum & Hne).
    rewrite Hp, string_app_nil_r, Hnum, Nat2N.id. split; [done|]. by apply Hne.
Qed.

(** The decimal numerals that [fmt03d] writes are read back by the plain
    [isdigit] and [int]. *)
Lemma plain_numerals (n : nat) :
  Plain.isdigit (fmt03d n) = true ∧ Plain.int (fmt03d n) = Some n.
Proof.
  destruct (number_pretty n) as [Hnum Hne].
  assert (Hfmt : Plain.number 0 (fmt03d n) = Some n ∧ fmt03d n ≠ "").
  { unfold fmt03d. repeat case_match; rewrite ?number_app; simpl; split;
      first [done | by intros ?%(f_equal String.length)]. }
  destruct Hfmt as [Hfmt Hfne].
  assert (Plain.isdigit (fmt03d n) = true) as Hdigit.
  { unfold Plain.isdigit. rewrite bool_decide_false by done. simpl.
    apply (number_is_Some (fmt03d n) 0). by eexists. }
  split; [done|]. unfold Plain.int. by rewrite Hdigit.
Qed.

Lemma dict_set_fresh (k : string) (v : Member) (members : Members) :
  k ∉ members.*1 → dict_set k v members = members ++ [(k, v)].
Proof.
  induction members as [|[k' v'] members IH]; simpl; [done|].
  intros [Hk Hrest]%not_elem_of_cons.
  rewrite bool_decide_false by done. by rewrite IH.
Qed.

Section NewMember.

Variable isdigit : string → bool.
Variable int : string → option nat.

(** On the numerals that [add_new_member] writes, [str.isdigit] holds and
    [int] returns the number. *)
Hypothesis numerals : ∀ n, isdigit (fmt03d n) = true ∧ int (fmt03d n) = Some n.

Lemma member_numbers_fresh (existing_ids : list string) (numbers : list nat) :
  member_numbers isdigit int existing_ids = Some numbers →
  ("M" +:+ fmt03d (max_list numbers + 1)) ∉ existing_ids.
Proof.
  unfold member_numbers. intros Hnum%mapM_Some Hin.
  destruct (numerals (max_list numbers + 1)) as [Hdigit Hint].
  assert (fmt03d (max_list numbers + 1) ∈ omap (numeric_part isdigit) existing_ids)
    as Hpart.
  { apply list_elem_of_omap. eexists. split; [exact Hin|].
    change ("M" +:+ fmt03d (max_list numbers + 1))
      with (String "M" (fmt03d (max_list numbers + 1))).
    simpl. by rewrite Hdigit. }
  apply list_elem_of_lookup_1 in Hpart as [i Hi].
  destruct (Forall2_lookup_l _ _ _ _ _ Hnum Hi) as (n & Hn & Hread).
  assert (n = max_list numbers + 1) as -> by congruence.
  apply list_elem_of_lookup_2, max_list_elem_of_le in Hn. lia.
Qed.

(** X17. [add_new_member] never overwrites a member: when it answers
    [True], the new record is appended under an id that no member has, an M
    followed by the successor, written with at least three digits, of the
    largest number among the ids of the form M and digits (001 when there is
    none), and the members that were there are as before.  It answers
    [False] exactly when there are members and either [int] refuses the
    digits of one of these ids or no id has that form; the directory is then
    as it was. *)
Theorem add_new_member_fresh_id (new_name new_phone new_email new_form : string)
    (members : Members) :
  ((add_new_member isdigit int new_name new_phone new_email new_form members).1
   = true →
   ∃ numbers new_member,
     member_numbers isdigit int members.*1 = Some numbers
     ∧ (add_new_member isdigit int new_name new_phone new_email new_form members).2
       = members ++ [("M" +:+ fmt03d (max_list numbers + 1), new_member)]
     ∧ (("M" +:+ fmt03d (max_list numbers + 1)) ∉ members.*1)
     ∧ name new_member = PyStr.strip new_name
     ∧ mitgliedsform new_member = Some (PyStr.strip new_form)
     ∧ einfuehrungskurs new_member = Some false
     ∧ ∀ month, contributions_of new_member "2025" !! month = None)
  ∧ ((add_new_member isdigit int new_name new_phone new_email new_form members).1
     = false ↔
     members ≠ []
     ∧ (member_numbers isdigit int members.*1 = None
        ∨ member_numbers isdigit int members.*1 = Some []))
  ∧ ((add_new_member isdigit int new_name new_phone new_email new_form members).1
     = false →
     (add_new_member isdigit int new_name new_phone new_email new_form members).2
     = members).
Proof.
  unfold add_new_member, new_member_id.
  case_bool_decide as Hnil.
  { apply fmap_nil_inv in Hnil as ->. simpl. split_and!; [| |done].
    - intros _. exists [], (Build_Member (PyStr.strip new_name)
        (Some (PyStr.strip new_phone)) (Some (PyStr.strip new_email))
        (Some (PyStr.strip new_form)) (Some false) (Some {[ "2025" := ∅ ]})).
      split_and!; [done|done|apply not_elem_of_nil|done..].
    - split; [done|]. by intros [? _]. }
  assert (members ≠ []) as Hne by (by intros ->).
  destruct (member_numbers isdigit int members.*1) as [numbers|] eqn:Hnum; simpl.
  - case_bool_decide as Hempty; simpl.
    + subst numbers. split_and!; [done| |done]. split; [|done]. intros _.
      split; [done|]. by right.
    + pose proof (member_numbers_fresh _ _ Hnum) as Hfresh.
      split_and!; [|split; [done|]|done].
      * intros _. eexists numbers, _.
        split_and!; [done|by apply dict_set_fresh|done..].
      * intros [_ [?|[= ?]]]; done.
  - split_and!; [done| |done]. split; [|done]. intros _. split; [done|]. by left.
Qed.

End NewMember.

(** The directory of [ledger0] gets its second member. *)
Lemma add_new_member_fresh_id_witness :
  let members := member_db ledger0 in
  let added :=
    add_new_member Plain.isdigit Plain.int " John Roe" "+41 79 123 45 67"
      "john.roe@example.com" "Passiv" members in
  (added.1 = true →
   ∃ numbers new_member,
     member_numbers Plain.isdigit Plain.int members.*1 = Some numbers
     ∧ added.2 = members ++ [("M" +:+ fmt03d (max_list numbers + 1), new_member)]
     ∧ (("M" +:+ fmt03d (max_list numbers + 1)) ∉ members.*1)
     ∧ name new_member = PyStr.strip " John Roe"
     ∧ mitgliedsform new_member = Some (PyStr.strip "Passiv")
     ∧ einfuehrungskurs new_member = Some false
     ∧ ∀ month, contributions_of new_member "2025" !! month = None)
  ∧ (added.1 = false ↔
     members ≠ []
     ∧ (member_numbers Plain.isdigit Plain.int members.*1 = None
        ∨ member_numbers Plain.isdigit Plain.int members.*1 = Some []))
  ∧ (added.1 = false → added.2 = members).
Proof.
  apply (add_new_member_fresh_id Plain.isdigit Plain.int plain_numerals
           " John Roe" "+41 79 123 45 67" "john.roe@example.com" "Passiv"
           (member_db ledger0)).
Defined.

(** The new member of that directory is M002.  With a second id M², whose
    raised two [str.isdigit] accepts and [int] refuses, nobody is added. *)
Example add_new_member_ids :
  (add_new_member Plain.isdigit Plain.int "John Roe" "" "" "Passiv"
     (member_db ledger0)).2.*1 = ["M001"; "M002"]
  ∧ let isdigit s := Plain.isdigit s || bool_decide (s = "²") in
    let members := [("M001", jane_doe); ("M²", jane_doe)] in
    add_new_member isdigit Plain.int "John Roe" "" "" "Passiv" members
    = (false, members).
Proof. split; by vm_compute. Qed.

(** ** Member table *)

Lemma contributions_of_delete (year month year' : string) (m : Member) :
  contributions_of (delete_contribution year month m) year'
  = if decide (year = year') then delete month (contributions_of m year)
    else contributions_of m year'.
Proof.
  unfold contributions_of, delete_contribution. simpl.
  destruct (decide (year = year')) as [<-|Hne].
  - by rewrite lookup_insert_eq.
  - by rewrite lookup_insert_ne.
Qed.

Lemma get_payment_status_update (member_id member_id' month year : string)
    (f : Member → Member) (ms : Members) (m : Member) :
  get_member ms member_id = Some m →
  get_payment_status (update_member member_id f ms) member_id' month year
  = if decide (member_id = member_id')
    then bool_decide (is_Some (contributions_of (f m) year !! month))
    else get_payment_status ms member_id' month year.
Proof.
  intros Hget. unfold get_payment_status. rewrite get_member_update.
  destruct (decide _) as [<-|]; [|done]. by rewrite Hget.
Qed.

Lemma update_months_false (member_id : string) (row : MemberRow)
    (months : list string) (ms : Members) :
  foldl (update_month member_id row) (ms, false) months = (ms, false).
Proof. induction months as [|month months IH]; [done|]. exact IH. Qed.

Lemma update_rows_false (df : list MemberRow) (ms : Members) :
  foldl update_row (ms, false) df = (ms, false).
Proof. induction df as [|row df IH]; [done|]. exact IH. Qed.

(** One month of one row: the checkbox decides the status of that month,
    the other months, the class and the course flag stay. *)
Lemma update_month_post (member_id : string) (row : MemberRow) (month : string)
    (ms ms' : Members) (m : Member) :
  update_month member_id row (ms, true) month = (ms', true) →
  get_member ms member_id = Some m →
  (∃ month_name,
     MONTH_NAMES !! month = Some month_name
     ∧ mr_months row !! month_name
       = Some (get_payment_status ms' member_id month "2025"))
  ∧ (∀ month', month' ≠ month →
       get_payment_status ms' member_id month' "2025"
       = get_payment_status ms member_id month' "2025")
  ∧ (∀ n, find_member_id ms' n = find_member_id ms n)
  ∧ ∃ m', get_member ms' member_id = Some m'
          ∧ mitgliedsform m' = mitgliedsform m
          ∧ einfuehrungskurs m' = einfuehrungskurs m.
Proof.
  intros Hstep Hget. unfold update_month in Hstep.
  destruct (MONTH_NAMES !! month) as [month_name|] eqn:Hname; [|done].
  simpl in Hstep.
  destruct (mr_months row !! month_name) as [is_paid|] eqn:Hcell; [|done].
  assert (Hpaid : get_payment_status ms member_id month "2025"
                  = bool_decide (is_Some (contributions_of m "2025" !! month))).
  { unfold get_payment_status. by rewrite Hget. }
  destruct is_paid, (get_payment_status ms member_id month "2025") eqn:Hstatus;
    simpl in Hstep; injection Hstep as <-.
  - split_and!; [exists month_name; by rewrite Hstatus|done|done|by exists m].
  - split_and!.
    + exists month_name. split; [done|].
      rewrite (get_payment_status_update _ _ _ _ _ _ m Hget), decide_True by done.
      rewrite contributions_of_put, decide_True, lookup_insert_eq by done.
      by rewrite bool_decide_true by by eexists.
    + intros month' Hne.
      rewrite (get_payment_status_update _ _ _ _ _ _ m Hget), decide_True by done.
      rewrite contributions_of_put, decide_True, lookup_insert_ne by done.
      unfold get_payment_status. by rewrite Hget.
    + intros n. by apply find_member_id_update.
    + rewrite get_member_update, decide_True, Hget by done. by eexists.
  - split_and!.
    + exists month_name. split; [done|].
      rewrite (get_payment_status_update _ _ _ _ _ _ m Hget), decide_True by done.
      rewrite contributions_of_delete, decide_True, lookup_delete_eq by done.
      by rewrite bool_decide_false by by intros [? ?].
    + intros month' Hne.
      rewrite (get_payment_status_update _ _ _ _ _ _ m Hget), decide_True by done.
      rewrite contributions_of_delete, decide_True, lookup_delete_ne by done.
      unfold get_payment_status. by rewrite Hget.
    + intros n. by apply find_member_id_update.
    + rewrite get_member_update, decide_True, Hget by done. by eexists.
  - split_and!; [exists month_name; by rewrite Hstatus|done|done|by exists m].
Qed.

Lemma update_months_post (member_id : string) (row : MemberRow)
    (months : list string) (ms ms' : Members) (m : Member) :
  NoDup months →
  foldl (update_month member_id row) (ms, true) months = (ms', true) →
  get_member ms member_id = Some m →
  (∀ month, month ∈ months →
     ∃ month_name,
       MONTH_NAMES !! month = Some month_name
       ∧ mr_months row !! month_name
         = Some (get_payment_status ms' member_id month "2025"))
  ∧ (∀ month, month ∉ months →
       get_payment_status ms' member_id month "2025"
       = get_payment_status ms member_id month "2025")
  ∧ (∀ n, find_member_id ms' n = find_member_id ms n)
  ∧ ∃ m', get_member ms' member_id = Some m'
          ∧ mitgliedsform m' = mitgliedsform m
          ∧ einfuehrungskurs m' = einfuehrungskurs m.
Proof.
  intros Hnd. revert ms m.
  induction Hnd as [|month months Hnotin Hnd IH]; intros ms m.
  - intros [= <-] Hget. split_and!; [by intros ? ?%elem_of_nil|done|done|by exists m].
  - cbn [foldl].
    destruct (update_month member_id row (ms, true) month) as [ms1 ok] eqn:Hstep.
    destruct ok; [|by rewrite update_months_false].
    intros Hrest Hget.
    destruct (update_month_post _ _ _ _ _ _ Hstep Hget)
      as ((month_name & Hname & Hcell) & Hother & Hfind & m1 & Hget1 & Hf1 & He1).
    destruct (IH ms1 m1 Hrest Hget1)
      as (Hin & Hout & Hfind' & m' & Hget' & Hf' & He').
    split_and!.
    + intros month' [->|Hm]%elem_of_cons; [|by apply Hin].
      exists month_name. split; [done|]. by rewrite Hout.
    + intros month' [Hne Hm]%not_elem_of_cons. by rewrite Hout, Hother.
    + intros n. by rewrite Hfind'.
    + exists m'. split_and!; [done|congruence..].
Qed.

Lemma MONTHS_NoDup : NoDup MONTHS.
Proof. apply (bool_decide_unpack _). by vm_compute. Qed.

Lemma update_month_other (member_id member_id' : string) (row : MemberRow)
    (st : Members * bool) (month : string) :
  member_id ≠ member_id' →
  get_member (update_month member_id row st month).1 member_id'
  = get_member st.1 member_id'.
Proof.
  intros Hne. destruct st as [ms ok]. unfold update_month.
  destruct ok; [|done].
  destruct (MONTH_NAMES !! month ≫= _) as [is_paid|]; [|done].
  repeat case_match; simpl; try done;
    by rewrite get_member_update, decide_False.
Qed.

Lemma update_months_other (member_id member_id' : string) (row : MemberRow)
    (months : list string) (st : Members * bool) :
  member_id ≠ member_id' →
  get_member (foldl (update_month member_id row) st months).1 member_id'
  = get_member st.1 member_id'.
Proof.
  intros Hne. revert st. induction months as [|month months IH]; intros st; [done|].
  cbn [foldl]. rewrite IH. by apply update_month_other.
Qed.

(** One row of the table, when no exception is raised: names resolve as
    before, the members that the row does not name are untouched, and the
    member it names has the row's class, course flag and months. *)
Lemma update_row_inv (row : MemberRow) (ms ms' : Members) :
  update_row (ms, true) row = (ms', true) →
  (∀ n, find_member_id ms' n = find_member_id ms n)
  ∧ (∀ member_id,
       (∀ n, mr_Mitglied row = CStr n → find_member_id ms n ≠ Some member_id) →
       get_member ms' member_id = get_member ms member_id)
  ∧ (∀ n member_id,
       mr_Mitglied row = CStr n → find_member_id ms n = Some member_id →
       ∃ m', get_member ms' member_id = Some m'
         ∧ mitgliedsform m' = Some (mr_Mitgliedsform row)
         ∧ einfuehrungskurs m' = Some (mr_Einfuehrungskurs row)
         ∧ ∀ month, month ∈ MONTHS →
             ∃ month_name,
               MONTH_NAMES !! month = Some month_name
               ∧ mr_months row !! month_name
                 = Some (get_payment_status ms' member_id month "2025")).
Proof.
  unfold update_row.
  destruct (match mr_Mitglied row with
            | CStr member_name => find_member_id ms member_name
            | _ => None
            end) as [mid|] eqn:Hres.
  - assert (∃ n, mr_Mitglied row = CStr n ∧ find_member_id ms n = Some mid)
      as (n & Hn & Hfind) by (destruct (mr_Mitglied row); [eauto|done..]).
    destruct (find_member_id_get _ _ _ Hfind) as [m Hget].
    set (ms2 := update_member mid (set_einfuehrungskurs_to _)
                  (update_member mid (set_mitgliedsform _) ms)).
    assert (Hget2 : get_member ms2 mid
                    = Some (set_einfuehrungskurs_to (mr_Einfuehrungskurs row)
                              (set_mitgliedsform (mr_Mitgliedsform row) m))).
    { unfold ms2. by rewrite !get_member_update, !decide_True, Hget by done. }
    intros Hfold.
    destruct (update_months_post _ _ _ _ _ _ MONTHS_NoDup Hfold Hget2)
      as (Hin & _ & Hfind' & m' & Hget' & Hf' & He').
    split_and!.
    + intros n'. rewrite Hfind'. unfold ms2.
      by rewrite !find_member_id_update.
    + intros member_id Hother.
      assert (mid ≠ member_id) as Hne.
      { intros <-. by apply (Hother n Hn). }
      apply (f_equal (λ st, get_member st.1 member_id)) in Hfold.
      rewrite update_months_other in Hfold by done. simpl in Hfold.
      rewrite <- Hfold. unfold ms2. by rewrite !get_member_update, !decide_False.
    + intros n' member_id Hn' Hfind''.
      assert (n' = n) as -> by congruence.
      assert (member_id = mid) as -> by congruence.
      exists m'. split_and!; [done|by rewrite Hf'|by rewrite He'|done].
  - intros [= <-]. split_and!; [done|done|].
    intros n member_id Hn Hfind. rewrite Hn in Hres. congruence.
Qed.

Lemma update_rows_inv (df : list MemberRow) (ms ms' : Members) :
  foldl update_row (ms, true) df = (ms', true) →
  (∀ n, find_member_id ms' n = find_member_id ms n)
  ∧ (∀ member_id,
       (∀ row n, row ∈ df → mr_Mitglied row = CStr n →
                 find_member_id ms n ≠ Some member_id) →
       get_member ms' member_id = get_member ms member_id).
Proof.
  revert ms. induction df as [|row df IH]; intros ms.
  - intros [= <-]. done.
  - cbn [foldl].
    destruct (update_row (ms, true) row) as [ms1 ok] eqn:Hrow.
    destruct ok; [|by rewrite update_rows_false].
    intros Hrest.
    destruct (update_row_inv _ _ _ Hrow) as (Hfind1 & Hother1 & _).
    destruct (IH _ Hrest) as (Hfind & Hother).
    split.
    + intros n. by rewrite Hfind.
    + intros member_id Hno. rewrite Hother, Hother1; [done|..].
      * intros n Hn. apply (Hno row n); [left|done].
      * intros row' n Hrow' Hn. rewrite Hfind1. apply (Hno row' n); [by right|done].
Qed.

(** X18. Saving the member table: when [update_member_from_dataframe]
    answers [True], a member whose name stands in a row of the table, and in
    no later row, has that row's class and course flag, and each of the
    twelve months of 2025 has an entry exactly when the row's checkbox of
    that month is ticked. *)
Theorem update_member_from_dataframe_post (df1 df2 : list MemberRow)
    (row : MemberRow) (members members' : Members)
    (member_name member_id : string) :
  update_member_from_dataframe (df1 ++ row :: df2) members = (true, members') →
  mr_Mitglied row = CStr member_name →
  find_member_id members member_name = Some member_id →
  (∀ row' n, row' ∈ df2 → mr_Mitglied row' = CStr n →
             find_member_id members n ≠ Some member_id) →
  ∃ m', get_member members' member_id = Some m'
    ∧ mitgliedsform m' = Some (mr_Mitgliedsform row)
    ∧ einfuehrungskurs m' = Some (mr_Einfuehrungskurs row)
    ∧ ∀ month, month ∈ MONTHS →
        ∃ month_name,
          MONTH_NAMES !! month = Some month_name
          ∧ mr_months row !! month_name
            = Some (get_payment_status members' member_id month "2025").
Proof.
  unfold update_member_from_dataframe. rewrite foldl_app. cbn [foldl].
  destruct (foldl update_row (members, true) df1) as [ms1 ok1] eqn:H1.
  destruct ok1;
    [|change (update_row (ms1, false) row) with (ms1, false);
      by rewrite update_rows_false].
  destruct (update_row (ms1, true) row) as [ms2 ok2] eqn:H2.
  destruct ok2; [|by rewrite update_rows_false].
  destruct (foldl update_row (ms2, true) df2) as [ms3 ok3] eqn:H3.
  intros [= -> ->] Hname Hfind Hlater.
  destruct (update_rows_inv _ _ _ H1) as (Hfind1 & _).
  destruct (update_row_inv _ _ _ H2) as (Hfind2 & _ & Hpost).
  destruct (update_rows_inv _ _ _ H3) as (_ & Hother3).
  destruct (Hpost member_name member_id Hname) as (m' & Hget & Hf & He & Hmonths).
  { by rewrite Hfind1. }
  assert (Hsame : get_member members' member_id = get_member ms2 member_id).
  { apply Hother3. intros row' n Hrow' Hn. rewrite Hfind2, Hfind1. by eapply Hlater. }
  exists m'. split_and!; [by rewrite Hsame|done..|].
  intros month Hmonth. destruct (Hmonths month Hmonth) as (month_name & ? & Hcell).
  exists month_name. split; [done|]. rewrite Hcell. f_equal.
  unfold get_payment_status. by rewrite Hsame.
Qed.

(** Jane Doe's row, with January and March ticked, followed by a row of a
    stranger. *)
Lemma update_member_from_dataframe_post_witness :
  let row := table_row "Jane Doe" "Passiv" true ["01"; "03"] in
  let members' :=
    [("M001",
      put_contribution "2025" "03" (ticked_entry 25)
        (put_contribution "2025" "01" (ticked_entry 25)
           (set_einfuehrungskurs_to true (set_mitgliedsform "Passiv" jane_doe))))] in
  ∃ m', get_member members' "M001" = Some m'
    ∧ mitgliedsform m' = Some (mr_Mitgliedsform row)
    ∧ einfuehrungskurs m' = Some (mr_Einfuehrungskurs row)
    ∧ ∀ month, month ∈ MONTHS →
        ∃ month_name,
          MONTH_NAMES !! month = Some month_name
          ∧ mr_months row !! month_name
            = Some (get_payment_status members' "M001" month "2025").
Proof.
  apply (update_member_from_dataframe_post []
           [table_row "John Roe" "Aktiv" false []]
           (table_row "Jane Doe" "Passiv" true ["01"; "03"])
           (member_db ledger0) _ "Jane Doe" "M001").
  - vm_compute. reflexivity.
  - reflexivity.
  - reflexivity.
  - intros row' n Hrow' Hn.
    apply list_elem_of_singleton in Hrow' as ->. injection Hn as <-. done.
Defined.

Lemma foldl_fixed {A B : Type} (f : A → B → A) (a : A) (l : list B) :
  Forall (λ x, f a x = a) l → foldl f a l = a.
Proof. induction 1 as [|x l Hx _ IH]; [done|]. cbn [foldl]. by rewrite Hx. Qed.

Lemma get_member_middle (pre post : Members) (member_id : string) (m : Member) :
  member_id ∉ pre.*1 →
  get_member (pre ++ (member_id, m) :: post) member_id = Some m.
Proof.
  intros Hfresh. unfold get_member.
  rewrite (find_first_match _ pre post (member_id, m)); [done| |by apply bool_decide_eq_true].
  apply Forall_forall. intros [k v] Hin. simpl. apply bool_decide_eq_false.
  intros ->. apply Hfresh. apply list_elem_of_fmap. by exists (member_id, v).
Qed.

Lemma find_member_id_middle (pre post : Members) (member_id : string)
    (m : Member) :
  name m ∉ name <$> pre.*2 →
  find_member_id (pre ++ (member_id, m) :: post) (name m) = Some member_id.
Proof.
  intros Hfresh. unfold find_member_id.
  rewrite (find_first_match _ pre post (member_id, m)); [done| |by apply bool_decide_eq_true].
  apply Forall_forall. intros [k v] Hin. simpl. apply bool_decide_eq_false.
  intros Heq. apply Hfresh. rewrite <- Heq. apply list_elem_of_fmap. exists v.
  split; [done|]. apply list_elem_of_fmap. by exists (k, v).
Qed.

Lemma update_member_middle (pre post : Members) (member_id : string)
    (m : Member) (f : Member → Member) :
  member_id ∉ pre.*1 →
  update_member member_id f (pre ++ (member_id, m) :: post)
  = pre ++ (member_id, f m) :: post.
Proof.
  induction pre as [|[k v] pre IH]; simpl.
  - intros _. by rewrite bool_decide_true.
  - intros [Hk Hrest]%not_elem_of_cons.
    rewrite bool_decide_false by done. by rewrite IH.
Qed.

Lemma get_member_NoDup (ms : Members) (member_id : string) (m : Member) :
  NoDup ms.*1 → (member_id, m) ∈ ms → get_member ms member_id = Some m.
Proof.
  intros Hnd [i Hi]%list_elem_of_lookup_1.
  rewrite <- (take_drop_middle ms i (member_id, m) Hi) in Hnd |- *.
  apply get_member_middle.
  rewrite fmap_app, fmap_cons in Hnd. apply NoDup_app in Hnd as (_ & Hdisj & _).
  intros Hin. apply (Hdisj _ Hin). left.
Qed.

Lemma month_cells_lookup (status : string → bool) (month : string) :
  month ∈ MONTHS →
  ∃ month_name, MONTH_NAMES !! month = Some month_name
                ∧ month_cells status !! month_name = Some (status month).
Proof.
  unfold MONTHS. intros Hin.
  repeat (apply elem_of_cons in Hin as [->|Hin];
          [eexists; split; reflexivity|]).
  by apply elem_of_nil in Hin.
Qed.

(** A row whose checkboxes agree with the ledger only sets the class and
    the course flag of the member it names. *)
Lemma update_row_unchanged (pre post : Members) (member_id : string)
    (m : Member) (row : MemberRow) :
  member_id ∉ pre.*1 → name m ∉ name <$> pre.*2 →
  mr_Mitglied row = CStr (name m) →
  (∀ month, month ∈ MONTHS →
     ∃ month_name,
       MONTH_NAMES !! month = Some month_name
       ∧ mr_months row !! month_name
         = Some (bool_decide (is_Some (contributions_of m "2025" !! month)))) →
  update_row (pre ++ (member_id, m) :: post, true) row
  = (pre ++ (member_id,
             set_einfuehrungskurs_to (mr_Einfuehrungskurs row)
               (set_mitgliedsform (mr_Mitgliedsform row) m)) :: post, true).
Proof.
  intros Hid Hname Hrow Hmonths. unfold update_row.
  rewrite Hrow, find_member_id_middle by done.
  rewrite !update_member_middle by done.
  apply foldl_fixed, Forall_forall. intros month Hmonth.
  destruct (Hmonths month Hmonth) as (month_name & Hn & Hcell).
  unfold update_month. rewrite Hn. simpl. rewrite Hcell.
  unfold get_payment_status. rewrite get_member_middle by done.
  change (contributions_of (set_einfuehrungskurs_to _ (set_mitgliedsform _ m)))
    with (contributions_of m).
  by destruct (bool_decide _).
Qed.

Lemma update_rows_table (members0 post pre : Members) :
  NoDup (pre ++ post).*1 → NoDup (name <$> (pre ++ post).*2) →
  (∀ im, im ∈ post → get_member members0 im.1 = Some im.2) →
  foldl update_row (pre ++ post, true)
    ((λ im,
        {| mr_Mitglied := CStr (name im.2);
           mr_Mitgliedsform := default "Aktiv" (mitgliedsform im.2);
           mr_Einfuehrungskurs := get_introduction_course_status members0 im.1;
           mr_months :=
             month_cells (λ month, get_payment_status members0 im.1 month "2025") |})
       <$> post)
  = (pre ++ ((λ im,
                (im.1,
                 set_einfuehrungskurs_to (default false (einfuehrungskurs im.2))
                   (set_mitgliedsform (default "Aktiv" (mitgliedsform im.2)) im.2)))
               <$> post), true).
Proof.
  revert pre. induction post as [|[mid m] post IH]; intros pre Hids Hnames Hget.
  - done.
  - rewrite !fmap_cons. cbn [foldl].
    assert (Hm : get_member members0 mid = Some m) by (apply (Hget (mid, m)); left).
    rewrite update_row_unchanged.
    + simpl. unfold get_introduction_course_status. rewrite Hm.
      rewrite (cons_middle _ pre post), app_assoc.
      rewrite IH.
      * by rewrite <- app_assoc.
      * rewrite <- app_assoc. simpl. by rewrite !fmap_app, !fmap_cons in *.
      * rewrite <- app_assoc. simpl. by rewrite !fmap_app, !fmap_cons in *.
      * intros im Him. apply Hget. by right.
    + rewrite fmap_app, fmap_cons in Hids. apply NoDup_app in Hids as (_ & Hdisj & _).
      intros Hin. apply (Hdisj _ Hin). left.
    + rewrite !fmap_app, !fmap_cons in Hnames.
      apply NoDup_app in Hnames as (_ & Hdisj & _).
      intros Hin. apply (Hdisj _ Hin). left.
    + done.
    + intros month Hmonth. simpl.
      destruct (month_cells_lookup
                  (λ month, get_payment_status members0 mid month "2025")
                  month Hmonth) as (month_name & Hn & Hcell).
      exists month_name. split; [done|]. rewrite Hcell.
      unfold get_payment_status. by rewrite Hm.
Qed.

(** X19. Round trip of the member table: when the member ids and the
    member names are unique, saving the table that [create_member_dataframe]
    shows, unchanged, answers [True] and changes no entry of the ledger; the
    only change is that a class or a course flag that a record lacks is
    written with its default, Aktiv and False. *)
Theorem member_table_round_trip (members : Members) :
  NoDup members.*1 → NoDup (name <$> members.*2) →
  update_member_from_dataframe (create_member_dataframe members) members
  = (true,
     (λ im,
        (im.1,
         set_einfuehrungskurs_to (default false (einfuehrungskurs im.2))
           (set_mitgliedsform (default "Aktiv" (mitgliedsform im.2)) im.2)))
       <$> members).
Proof.
  intros Hids Hnames.
  unfold update_member_from_dataframe, create_member_dataframe.
  pose proof (update_rows_table members members [] Hids Hnames) as Heq.
  change ([] ++ members) with members in Heq.
  unfold Members in *. rewrite Heq; [done|].
  intros [mid m] Him. by apply get_member_NoDup.
Qed.

(** The table of the directory of [ledger_two_details]. *)
Lemma member_table_round_trip_witness :
  update_member_from_dataframe
    (create_member_dataframe (member_db ledger_two_details))
    (member_db ledger_two_details)
  = (true,
     (λ im,
        (im.1,
         set_einfuehrungskurs_to (default false (einfuehrungskurs im.2))
           (set_mitgliedsform (default "Aktiv" (mitgliedsform im.2)) im.2)))
       <$> member_db ledger_two_details).
Proof.
  apply (member_table_round_trip (member_db ledger_two_details)).
  - apply NoDup_singleton.
  - apply NoDup_singleton.
Defined.

(** ** Month defaults: applying them again *)

Lemma month_default_again (r r' : Row) :
  month_default r = Some r' →
  month_default r' = Some r'
  ∧ r' = set_Monat (Monat r') r
  ∧ (Datum r = None → r' = r).
Proof.
  unfold month_default. destruct r as [i d det a z mi mo b ref]. simpl.
  destruct d as [d|]; [|intros [= <-]; done].
  destruct (ts_day d <=? 7)%nat eqn:Hday.
  - intros [= <-]. simpl. by rewrite Hday.
  - destruct (month_names !! ts_month d) as [month_name|] eqn:Hname; [|done].
    intros [= <-]. simpl. by rewrite Hday, Hname.
Qed.

(** X20. [_add_smart_month_defaults] is idempotent and touches the month
    column only: applied to its own result it returns that result, every row
    of the result is the input row with another month, and a row without a
    date is returned as it is. *)
Theorem add_smart_month_defaults_idempotent (df df' : list Row) :
  _add_smart_month_defaults df = Some df' →
  _add_smart_month_defaults df' = Some df'
  ∧ ∀ i r, df !! i = Some r →
      ∃ r', df' !! i = Some r' ∧ r' = set_Monat (Monat r') r
            ∧ (Datum r = None → r' = r).
Proof.
  unfold _add_smart_month_defaults. intros Hall%mapM_Some. split.
  - apply mapM_Some. apply Forall2_same_length_lookup. split; [done|].
    intros i r1 r2 H1 H2. assert (r2 = r1) as -> by congruence.
    destruct (Forall2_lookup_r _ _ _ _ _ Hall H1) as (r & _ & Hr).
    by apply month_default_again in Hr as (? & _).
  - intros i r Hi.
    destruct (Forall2_lookup_l _ _ _ _ _ Hall Hi) as (r' & Hi' & Hr).
    exists r'. split; [done|]. by apply month_default_again in Hr as (_ & ? & ?).
Qed.

(** The boundary days 7 and 8 of August. *)
Lemma add_smart_month_defaults_idempotent_witness :
  let df := [august_row 0 7 "x"; august_row 1 8 "x"] in
  let df' := [august_row 0 7 ""; august_row 1 8 "August"] in
  _add_smart_month_defaults df' = Some df'
  ∧ ∀ i r, df !! i = Some r →
      ∃ r', df' !! i = Some r' ∧ r' = set_Monat (Monat r') r
            ∧ (Datum r = None → r' = r).
Proof.
  apply (add_smart_month_defaults_idempotent
           [august_row 0 7 "x"; august_row 1 8 "x"]
           [august_row 0 7 ""; august_row 1 8 "August"]).
  reflexivity.
Defined.
